(** * DreamerV2 agent with isometric regularisation: [dreamerv2/agent.py]

    A shallow embedding of the tensor programs of [WorldModel] and
    [ActorCritic] and the properties their documentation states.

    Conventions of the embedding.
    - Tensor entries are exact rationals ([Qc]); rounding of float16/32 and
      the special values NaN and Inf are outside the model.
    - A tensor whose leading axes are (time, batch) is a list of rows, one
      row per time step, a row holding one entry per batch item.
    - [tf.stop_gradient] is the identity on values; the flow of gradients
      is not part of the value semantics.
    - Random draws ([sample], [tf.random.*]) are arguments of the function
      that consumes them.
    - Networks, distributions, optimizers and the RSSM live in the package
      [common], and appear as record fields. *)

From Stdlib Require Import ZArith QArith Qcanon Lia Ring Field.
From stdpp Require Import base gmap strings list numbers.

Local Open Scope Qc_scope.

(** ** Errors *)

Inductive Error : Type :=
  | AssertionError (msg : string)
  | KeyError (key : string)
  | NotImplementedError (msg : string)
  | IndexError (msg : string)
  | InvalidArgumentError (msg : string)
  | ZeroDivisionError (msg : string).

Inductive result (A : Type) : Type :=
  | Ok (a : A)
  | Raise (e : Error).
Arguments Ok {A} a.
Arguments Raise {A} e.

#[global] Instance result_ret : MRet result := fun _ a => Ok a.
#[global] Instance result_bind : MBind result := fun _ _ k m =>
  match m with
  | Ok a => k a
  | Raise e => Raise e
  end.

Definition getitem {V} (d : gmap string V) (key : string) : result V :=
  match d !! key with
  | Some v => Ok v
  | None => Raise (KeyError key)
  end.

(** ** Tensors *)

Abbreviation Row := (list Qc).
Abbreviation Seq2 := (list (list Qc)).

Definition Qc_of_nat (n : nat) : Qc := Qc_of_Z (Z.of_nat n).

Definition stop_gradient {A} (x : A) : A := x.

Definition radd (x y : Row) : Row := zip_with Qcplus x y.
Definition rsub (x y : Row) : Row := zip_with Qcminus x y.
Definition rmul (x y : Row) : Row := zip_with Qcmult x y.
Definition rscale (c : Qc) (x : Row) : Row := map (Qcmult c) x.

Definition tadd (x y : Seq2) : Seq2 := zip_with radd x y.
Definition tsub (x y : Seq2) : Seq2 := zip_with rsub x y.
Definition tmul (x y : Seq2) : Seq2 := zip_with rmul x y.
Definition tscale (c : Qc) (x : Seq2) : Seq2 := map (rscale c) x.

Definition reduce_sum (x : list Qc) : Qc := foldr Qcplus 0 x.
(** The mean of an empty tensor, NaN in TensorFlow, is [0 / 0 = 0] here. *)
Definition reduce_mean (x : list Qc) : Qc :=
  reduce_sum x / Qc_of_nat (length x).
(** [x.mean()] of a rank-2 tensor: all entries, divided by their number. *)
Definition mean2 (x : Seq2) : Qc := reduce_mean (concat x).

(** [x[t][b]], 0 outside the tensor. *)
Definition at2 (x : Seq2) (t b : nat) : Qc :=
  default 0 (x !! t ≫= fun r => r !! b).

(** Shape [(T, B)]. *)
Definition has_shape (T B : nat) (x : Seq2) : Prop :=
  length x = T /\ Forall (fun r => length r = B) x.

Definition ones_like {A} (x : list (list A)) : Seq2 :=
  map (map (fun _ => 1)) x.
Definition zeros_like {A} (x : list (list A)) : Seq2 :=
  map (map (fun _ => 0)) x.

(** [x[:-1]] and [x[:-2]] along the first axis. *)
Definition drop_last {A} (n : nat) (x : list A) : list A :=
  take (length x - n) x.

(** [tf.math.cumprod(x, 0)]: [out[0] = x[0]], [out[t] = out[t-1] * x[t]]. *)
Fixpoint cumprod_from (acc : Row) (xs : Seq2) : Seq2 :=
  match xs with
  | [] => []
  | x :: xs' => let acc' := rmul acc x in acc' :: cumprod_from acc' xs'
  end.
Definition cumprod (xs : Seq2) : Seq2 :=
  match xs with
  | [] => []
  | x :: xs' => x :: cumprod_from x xs'
  end.

Inductive DType : Type :=
  | tf_bool | tf_uint8 | tf_int32 | tf_int64
  | tf_float16 | tf_float32 | tf_float64.

#[global] Instance DType_eq_dec : EqDecision DType.
Proof. solve_decision. Defined.

(** The compute element type of a mixed-precision policy is a float type. *)
Inductive FloatDType : Type := float16 | float32 | float64.

Definition float_dtype (d : FloatDType) : DType :=
  match d with
  | float16 => tf_float16
  | float32 => tf_float32
  | float64 => tf_float64
  end.

(** An array as the data pipeline hands it over: element type, shape and
    the entries in row-major order ([True] is 1, [False] is 0). *)
Record NDArray : Type := {
  nd_dtype : DType;
  nd_shape : list nat;
  nd_data : list Qc;
}.

(** [x.astype(dt)] with the entries as exact rationals: the cast is the
    identity on the values, which is what the code computes for every value
    that [dt] represents exactly (booleans, bytes, integers up to [2^p] for
    a float type of [p] significand bits).  The rounding of other values
    is not modelled, here as in the arithmetic of the tensors. *)
Definition astype (dt : DType) (x : NDArray) : NDArray :=
  {| nd_dtype := dt; nd_shape := nd_shape x; nd_data := nd_data x |}.
Definition nd_map (f : Qc -> Qc) (x : NDArray) : NDArray :=
  {| nd_dtype := nd_dtype x; nd_shape := nd_shape x;
     nd_data := map f (nd_data x) |}.
Definition tf_sign (x : Qc) : Qc :=
  if decide (x = 0) then 0 else if Qclt_le_dec 0 x then 1 else - (1).

(** ** Collaborators from [common] *)

Abbreviation Feat := (list Qc).
Abbreviation Action := (list Qc).
(** The entries of one item's latent state ([stoch], [deter], ...). *)
Abbreviation Latent := (gmap string (list Qc)).
Definition Seed := nat.

(** A distribution over a (time, batch) tensor of scalars. *)
Record Dist : Type := {
  d_log_prob : NDArray -> Seq2;
  d_mean : Seq2;
  d_mode : Seq2;
}.

(** The action distribution of the actor on one batch row and on a
    (time, batch) sequence of features. *)
Record StepPolicy : Type := {
  sp_mode : list Action;
  sp_sample : Seed -> list Action;
}.
Record SeqPolicy : Type := {
  log_prob : list (list Action) -> Seq2;
  entropy : Seq2;
}.
Record Actor : Type := {
  actor_step : list Feat -> StepPolicy;
  actor_seq : list (list Feat) -> SeqPolicy;
}.

Definition MLP := list (list Feat) -> Dist.

(** The decoder returns a dictionary of distributions. Of [estim_obs] the
    program uses the batch Jacobian that [tape.batch_jacobian] computes at
    a batch of latent points, of shape (batch, obs_dim, latent_dim). *)
Record Decoder : Type := {
  decoder_call : list (list Feat) -> list (string * Dist);
  estim_obs_jacobian : list Feat -> list (list (list Qc));
}.

(** [get_feat] concatenates the entries of one item's state; [img_step]
    reads the latent entries of the batch of states it is given. *)
Record RSSM : Type := {
  get_feat : Latent -> Feat;
  img_step : list Latent -> list Action -> list Latent;
  observe : NDArray -> NDArray -> NDArray -> option (list Latent) ->
            list (list Latent) * list (list Latent);
  kl_loss : list (list Latent) -> list (list Latent) -> NDArray * Seq2;
  dist_entropy : list (list Latent) -> Seq2;
}.

(** ** Configuration *)

Record Config : Type := {
  discount : Qc;
  pred_discount : bool;
  grad_heads : list string;
  clip_rewards : string;
  loss_scales : gmap string Qc;
  compute_dtype : FloatDType;
  actor_grad : string;
  actor_grad_mix : nat -> Qc;
  actor_ent : nat -> Qc;
  discount_lambda : Qc;
  imag_horizon : nat;
  slow_target : bool;
  slow_target_update : Z;
  slow_target_fraction : Qc;
}.

(** [common.schedule(spec, step)] with the spec already parsed. *)
Definition schedule (spec : nat -> Qc) (step : nat) : Qc := spec step.

(** ** [common.lambda_return] *)

Module common.

(** Modelled from the spec: [common.lambda_return] is defined in the
    package [common]. Working backward from the bootstrap value,
    [return[t] = reward[t] + discount[t] * ((1-lambda)*value[t+1] +
    lambda*return[t+1])] with [return[last] = bootstrap]; past the last
    value the next value is the bootstrap. The result has one row per
    reward row. *)
Fixpoint lambda_return (reward value pcont : Seq2) (bootstrap : Row)
    (lambda_ : Qc) : Seq2 :=
  match reward, value, pcont with
  | r :: reward', _ :: value', d :: pcont' =>
      let returns := lambda_return reward' value' pcont' bootstrap lambda_ in
      let next_value := hd bootstrap value' in
      let next_return := hd bootstrap returns in
      radd r (rmul d (radd (rscale (1 - lambda_) next_value)
                           (rscale lambda_ next_return)))
        :: returns
  | _, _, _ => []
  end.

End common.

(** ** WorldModel *)

Module WorldModel.

(** [self.heads]: the keys are fixed by [__init__]. *)
Record Heads : Type := {
  head_decoder : Decoder;
  head_reward : MLP;
  head_discount : option MLP;
}.

Definition heads_keys (h : Heads) : list string :=
  ["decoder"; "reward"] ++
  match head_discount h with
  | Some _ => ["discount"]
  | None => []
  end.

(** [self.heads.items()], every output seen as a dictionary
    ([out if isinstance(out, dict) else {name: out}]). *)
Definition heads_items (h : Heads)
  : list (string * (list (list Feat) -> list (string * Dist))) :=
  [("decoder", decoder_call (head_decoder h));
   ("reward", fun inp => [("reward", head_reward h inp)])] ++
  match head_discount h with
  | Some head => [("discount", fun inp => [("discount", head inp)])]
  | None => []
  end.

Definition Encoder := gmap string NDArray -> NDArray.
Definition Modules : Type := Encoder * RSSM * Heads.

Record t : Type := {
  config : Config;
  iso_reg : Qc;
  rssm : RSSM;
  encoder : Encoder;
  heads : Heads;
  (** [common.Optimizer]: the recorded loss as a function of the
      modules, and the modules to update. *)
  model_opt : (Modules -> result Qc) -> Modules -> Modules * gmap string Qc;
}.

Definition modules (self : t) : Modules :=
  (encoder self, rssm self, heads self).
Definition with_modules (self : t) (m : Modules) : t :=
  {| config := config self; iso_reg := iso_reg self;
     rssm := m.1.2; encoder := m.1.1; heads := m.2;
     model_opt := model_opt self |}.

(** What [__init__] builds through [common]. *)
Record Built : Type := {
  built_rssm : RSSM;
  built_encoder : Encoder;
  built_decoder : Decoder;
  built_reward : MLP;
  built_discount : MLP;
  built_model_opt :
    (Modules -> result Qc) -> Modules -> Modules * gmap string Qc;
}.

(** [for name in config.grad_heads: assert name in self.heads, name]. *)
Fixpoint assert_grad_heads (keys names : list string) : result unit :=
  match names with
  | [] => Ok tt
  | name :: names' =>
      if decide (name ∈ keys) then assert_grad_heads keys names'
      else Raise (AssertionError name)
  end.

Definition __init__ (config : Config) (built : Built) (iso_reg : Qc)
  : result t :=
  let heads :=
    {| head_decoder := built_decoder built;
       head_reward := built_reward built;
       head_discount :=
         if pred_discount config then Some (built_discount built)
         else None |} in
  _ ← assert_grad_heads (heads_keys heads) (grad_heads config);
  Ok {| config := config; iso_reg := iso_reg;
        rssm := built_rssm built; encoder := built_encoder built;
        heads := heads; model_opt := built_model_opt built |}.

Section Preprocess.
(** [tf.tanh] has no rational closed form. *)
Variable tf_tanh : Qc -> Qc.

(** The two casts of the loop body of [preprocess], in order. *)
Definition convert (dtype : DType) (value : NDArray) : NDArray :=
  let value :=
    if decide (nd_dtype value = tf_int32) then astype dtype value
    else value in
  let value :=
    if decide (nd_dtype value = tf_uint8)
    then nd_map (fun x => x / Qc_of_Z 255 - Q2Qc (1 # 2))
                (astype dtype value)
    else value in
  value.

(** The dictionary literal of [preprocess], subscripted. *)
Definition clip_fn (name : string) : result (NDArray -> NDArray) :=
  if decide (name = "identity") then Ok id
  else if decide (name = "sign") then Ok (nd_map tf_sign)
  else if decide (name = "tanh") then Ok (nd_map tf_tanh)
  else Raise (KeyError name).

Definition preprocess (self : t) (obs : gmap string NDArray)
  : result (gmap string NDArray) :=
  let dtype := float_dtype (compute_dtype (config self)) in
  let obs :=
    map_imap (fun key value =>
      Some (if String.prefix "log_" key then value
            else convert dtype value)) obs in
  clip ← clip_fn (clip_rewards (config self));
  reward ← getitem obs "reward";
  let obs := <["reward" := clip reward]> obs in
  is_terminal ← getitem obs "is_terminal";
  let obs :=
    <["discount" :=
        nd_map (fun x => 1 - x) (astype dtype is_terminal)]> obs in
  disc ← getitem obs "discount";
  let obs :=
    <["discount" :=
        nd_map (fun x => x * discount (config self)) disc]> obs in
  Ok obs.
End Preprocess.

(** The stacked trajectory of [imagine]: [seq[k][t][b]] for a latent key
    [k] is entry [k] of [seq_latent !! t !! b]. [seq_reward] is the
    entry that [ActorCritic.train] adds. *)
Record Seq : Type := {
  seq_latent : list (list Latent);
  seq_feat : list (list Feat);
  seq_action : list (list Action);
  seq_discount : Seq2;
  seq_weight : Seq2;
  seq_reward : option Seq2;
}.

Definition last_row {A} (x : list (list A)) : list A := List.last x [].

(** One iteration of the loop of [imagine], on the lists being grown. *)
Definition imagine_step (self : t) (policy : Actor) (seeds : nat -> Seed)
    (acc : list (list Latent) * list (list Feat) * list (list Action))
    (i : nat)
  : list (list Latent) * list (list Feat) * list (list Action) :=
  let '(latents, feats, actions) := acc in
  let action :=
    sp_sample (actor_step policy (stop_gradient (last_row feats)))
              (seeds i) in
  let state := img_step (rssm self) (last_row latents) action in
  let feat := map (get_feat (rssm self)) state in
  (latents ++ [state], feats ++ [feat], actions ++ [action]).

(** The trajectory that [imagine] returns.  With a discount head,
    [tf.concat] requires [is_terminal] to have one entry per item of the
    flattened start and raises otherwise; the definition is total and
    gives the value for the calls that respect that size. *)
Definition imagine (self : t) (policy : Actor)
    (start : list (list Latent)) (is_terminal : option NDArray)
    (horizon : nat) (seeds : nat -> Seed) : Seq :=
  let start := concat start in
  let feat0 := map (get_feat (rssm self)) start in
  let action0 := zeros_like (sp_mode (actor_step policy feat0)) in
  let '(latents, feats, actions) :=
    fold_left (imagine_step self policy seeds) (seq 0 horizon)
              ([start], [feat0], [action0]) in
  let disc :=
    match head_discount (heads self) with
    | Some head =>
        let disc := d_mean (head feats) in
        match is_terminal with
        | Some is_terminal =>
            let true_first :=
              map (fun x => (1 - x) * discount (config self))
                  (nd_data is_terminal) in
            [true_first] ++ drop 1 disc
        | None => disc
        end
    | None => tscale (discount (config self)) (ones_like feats)
    end in
  {| seq_latent := latents; seq_feat := feats; seq_action := actions;
     seq_discount := disc;
     seq_weight := cumprod (ones_like (take 1 disc) ++ drop_last 1 disc);
     seq_reward := None |}.

(** *** Isometric regularisation of the decoder *)

(** The random draws of [relaxed_distortion_measure], by the shape
    requested: the two shuffles of [tf.range], the uniform [alpha] and
    the normal [v]. *)
Record Draws : Type := {
  sample_shuffle : nat -> list nat;
  pair_shuffle : nat -> list nat;
  alpha_uniform : nat -> Qc -> Qc -> list Qc;
  v_normal : nat -> nat -> list (list Qc);
}.

(** [tf.gather(z, indices)]; the indices come from a shuffled range and
    are in bounds. *)
Definition gather (z : list Feat) (indices : list nat) : list Feat :=
  map (fun i => nth i z []) indices.

Definition sample_batch (draws : Draws) (z : list Feat) (ratio : nat)
  : list Feat :=
  let indices :=
    take (Nat.div (length z) ratio) (sample_shuffle draws (length z)) in
  gather z indices.

Definition dot (x y : list Qc) : Qc := reduce_sum (zip_with Qcmult x y).

(** [tf.linalg.matvec] on a batch of matrices and a batch of vectors. *)
Definition matvec (J : list (list (list Qc))) (v : list (list Qc))
  : list (list Qc) :=
  zip_with (fun Jb vb => map (fun row => dot row vb) Jb) J v.

(** [tf.transpose(J, perm=[0,2,1])]: [out[b][j][i] = J[b][i][j]]. *)
Definition transpose021 (J : list (list (list Qc)))
  : list (list (list Qc)) :=
  map (fun Jb =>
         map (fun j => map (fun row => nth j row 0) Jb)
             (seq 0 (length (hd [] Jb)))) J.

(** [tf.reduce_mean(tf.reduce_sum(x**2, axis=1))]. *)
Definition mean_sum_sq (x : list (list Qc)) : Qc :=
  reduce_mean (map (fun r => reduce_sum (map (fun e => e ^ 2) r)) x).

(** [tape.batch_jacobian] divides the number of elements of its target by
    the batch size, with Python's [//]: it raises [ZeroDivisionError] on a
    batch of no rows, which is what [sample_batch] returns for fewer than
    [ratio = 400] feature rows. *)
Definition relaxed_distortion_measure (func : Decoder)
    (feat : list (list Feat)) (eta : Qc) (draws : Draws) : result Qc :=
  let z := concat feat in
  let ratio := 400%nat in
  let z := sample_batch draws z ratio in
  let BS := length z in
  let indices := pair_shuffle draws BS in
  let z_perm := gather z indices in
  let alpha := alpha_uniform draws BS (1 - eta) (1 + eta) in
  let z_augmented :=
    zip_with (fun a zz => radd (rscale a zz.1) (rscale (1 - a) zz.2))
             alpha (zip z z_perm) in
  let v := v_normal draws BS (length (hd [] z)) in
  if decide (BS = 0%nat)
  then Raise (ZeroDivisionError "integer division or modulo by zero")
  else
    let J := estim_obs_jacobian func z_augmented in
    let Jv := matvec J v in
    let TrG := mean_sum_sq Jv in
    let JTJv := matvec (transpose021 J) Jv in
    let TrG2 := mean_sum_sq JTJv in
    Ok (TrG2 - Qc_of_Z 2 * TrG + Qc_of_Z 2).

(** *** Training loss *)

Record Outs : Type := {
  out_embed : NDArray;
  out_feat : list (list Feat);
  out_post : list (list Latent);
  out_prior : list (list Latent);
  out_likes : gmap string Seq2;
  out_kl : Seq2;
  out_iso : Qc;
}.

(** The entry of a rank-0 array. *)
Definition scalar (x : NDArray) : Qc := hd 0 (nd_data x).

(** The inner loop of [loss] over the distributions of one head. *)
Definition add_like (data : gmap string NDArray)
    (acc : result (gmap string Seq2 * gmap string Qc))
    (kd : string * Dist) : result (gmap string Seq2 * gmap string Qc) :=
  terms ← acc;
  let likes := terms.1 in
  let losses := terms.2 in
  value ← getitem data kd.1;
  let like := d_log_prob kd.2 value in
  Ok (<[kd.1 := like]> likes, <[kd.1 := - mean2 like]> losses).

(** The outer loop of [loss] over the heads. The features handed to a
    head differ only in whether gradients flow. *)
Definition add_head (self : t) (data : gmap string NDArray)
    (feat : list (list Feat))
    (acc : result (gmap string Seq2 * gmap string Qc))
    (item : string * (list (list Feat) -> list (string * Dist)))
  : result (gmap string Seq2 * gmap string Qc) :=
  let grad_head := bool_decide (item.1 ∈ grad_heads (config self)) in
  let inp := if grad_head then feat else stop_gradient feat in
  fold_left (add_like data) (item.2 inp) acc.

(** [sum(self.config.loss_scales.get(k, 1.0) * v for k, v in
    losses.items())]. *)
Definition scaled_sum (scales losses : gmap string Qc) : Qc :=
  map_fold (fun k v acc => default 1 (scales !! k) * v + acc) 0 losses.

Section Loss.
Variable tf_tanh : Qc -> Qc.

Definition loss (self : t) (data : gmap string NDArray)
    (state : option (list Latent)) (draws : Draws)
  : result (Qc * list Latent * Outs * gmap string Qc) :=
  data ← preprocess tf_tanh self data;
  let embed := encoder self data in
  action ← getitem data "action";
  is_first ← getitem data "is_first";
  let observed := observe (rssm self) embed action is_first state in
  let post := observed.1 in
  let prior := observed.2 in
  let kl := kl_loss (rssm self) post prior in
  let kl_loss := kl.1 in
  let kl_value := kl.2 in
  if negb (bool_decide (length (nd_shape kl_loss) = 0%nat))
  then Raise (AssertionError EmptyString)
  else
    let likes : gmap string Seq2 := ∅ in
    let losses : gmap string Qc := {["kl" := scalar kl_loss]} in
    let feat := map (map (get_feat (rssm self))) post in
    terms ←
      fold_left (add_head self data feat) (heads_items (heads self))
                (Ok (likes, losses));
    let likes := terms.1 in
    let losses := terms.2 in
    iso_loss ←
      relaxed_distortion_measure (head_decoder (heads self)) feat
                                 (Q2Qc (2 # 10)) draws;
    let iso_loss := iso_reg self * iso_loss in
    let losses := <["iso" := iso_loss]> losses in
    let model_loss := scaled_sum (loss_scales (config self)) losses in
    let outs :=
      {| out_embed := embed; out_feat := feat; out_post := post;
         out_prior := prior; out_likes := likes; out_kl := kl_value;
         out_iso := iso_loss |} in
    let metrics : gmap string Qc :=
      kmap (fun name => name +:+ "_loss") losses in
    let metrics := <["model_kl" := mean2 kl_value]> metrics in
    let metrics :=
      <["prior_ent" := mean2 (dist_entropy (rssm self) prior)]> metrics in
    let metrics :=
      <["post_ent" := mean2 (dist_entropy (rssm self) post)]> metrics in
    let last_state := map (fun v => List.last v ∅) post in
    Ok (model_loss, last_state, outs, metrics).

Definition train (self : t) (data : gmap string NDArray)
    (state : option (list Latent)) (draws : Draws)
  : result (t * list Latent * Outs * gmap string Qc) :=
  r ← loss self data state draws;
  let model_loss := r.1.1.1 in
  let state' := r.1.1.2 in
  let outputs := r.1.2 in
  let metrics := r.2 in
  let model_tape := fun m : Modules =>
    r ← loss (with_modules self m) data state draws; Ok r.1.1.1 in
  let updated := model_opt self model_tape (modules self) in
  Ok (with_modules self updated.1, state', outputs, updated.2 ∪ metrics).
End Loss.

End WorldModel.

(** ** ActorCritic *)

Module ActorCritic.

Abbreviation Variables := (list (list Qc)).

Record t : Type := {
  config : Config;
  actor : Actor;
  (** The critic architecture, shared by [critic] and [_target_critic],
      as a function of its variables (one flat list per tensor). *)
  critic_net : Variables -> MLP;
  critic_variables : Variables;
  (** The variables and the counter (a [tf.int32] variable, see
      [int32_wrap]) that exist when [slow_target]. *)
  target_variables : Variables;
  _updates : Z;
  (** [common.StreamNorm]: state, and the call on a reward tensor. *)
  rewnorm_state : list Qc;
  rewnorm_call : list Qc -> Seq2 -> Seq2 * gmap string Qc * list Qc;
  (** [common.Optimizer]: the recorded loss as a function of what is
      updated, and the current value. *)
  actor_opt : (Actor -> result Qc) -> Actor -> Actor * gmap string Qc;
  critic_opt :
    (Variables -> result Qc) -> Variables -> Variables * gmap string Qc;
}.

Definition critic (self : t) : MLP := critic_net self (critic_variables self).

(** [self._target_critic] is [self.critic] itself unless [slow_target]. *)
Definition _target_critic (self : t) : MLP :=
  if slow_target (config self)
  then critic_net self (target_variables self)
  else critic self.

Definition with_actor (self : t) (a : Actor) : t :=
  {| config := config self; actor := a; critic_net := critic_net self;
     critic_variables := critic_variables self;
     target_variables := target_variables self;
     _updates := _updates self; rewnorm_state := rewnorm_state self;
     rewnorm_call := rewnorm_call self; actor_opt := actor_opt self;
     critic_opt := critic_opt self |}.
Definition with_critic (self : t) (v : Variables) : t :=
  {| config := config self; actor := actor self;
     critic_net := critic_net self;
     critic_variables := v;
     target_variables := target_variables self;
     _updates := _updates self; rewnorm_state := rewnorm_state self;
     rewnorm_call := rewnorm_call self; actor_opt := actor_opt self;
     critic_opt := critic_opt self |}.
Definition with_rewnorm (self : t) (s : list Qc) : t :=
  {| config := config self; actor := actor self;
     critic_net := critic_net self;
     critic_variables := critic_variables self;
     target_variables := target_variables self;
     _updates := _updates self; rewnorm_state := s;
     rewnorm_call := rewnorm_call self; actor_opt := actor_opt self;
     critic_opt := critic_opt self |}.
Definition with_target (self : t) (v : Variables) (n : Z) : t :=
  {| config := config self; actor := actor self;
     critic_net := critic_net self;
     critic_variables := critic_variables self;
     target_variables := v;
     _updates := n; rewnorm_state := rewnorm_state self;
     rewnorm_call := rewnorm_call self; actor_opt := actor_opt self;
     critic_opt := critic_opt self |}.

Definition with_reward (seq : WorldModel.Seq) (reward : Seq2)
  : WorldModel.Seq :=
  {| WorldModel.seq_latent := WorldModel.seq_latent seq;
     WorldModel.seq_feat := WorldModel.seq_feat seq;
     WorldModel.seq_action := WorldModel.seq_action seq;
     WorldModel.seq_discount := WorldModel.seq_discount seq;
     WorldModel.seq_weight := WorldModel.seq_weight seq;
     WorldModel.seq_reward := Some reward |}.

(** [x[-1]] along the first axis. *)
Definition last_item (x : Seq2) : result Row :=
  match x with
  | [] => Raise (IndexError EmptyString)
  | _ => Ok (List.last x [])
  end.

Definition target (self : t) (seq : WorldModel.Seq)
  : result (Seq2 * gmap string Qc) :=
  reward ← match WorldModel.seq_reward seq with
           | Some r => Ok r
           | None => Raise (KeyError "reward")
           end;
  let disc := WorldModel.seq_discount seq in
  let value := d_mode (_target_critic self (WorldModel.seq_feat seq)) in
  bootstrap ← last_item value;
  let target :=
    common.lambda_return
      (drop_last 1 reward) (drop_last 1 value) (drop_last 1 disc)
      bootstrap (discount_lambda (config self)) in
  let metrics : gmap string Qc :=
    <["critic_target" := mean2 target]> {["critic_slow" := mean2 value]} in
  Ok (target, metrics).

(** The branch of [actor_loss] on [config.actor_grad]: the objective
    before the entropy bonus, and the metrics so far. *)
Definition actor_objective (self : t) (seq : WorldModel.Seq)
    (target : Seq2) (policy : SeqPolicy) (tfstep : nat)
  : result (Seq2 * gmap string Qc) :=
  let metrics : gmap string Qc := ∅ in
  if decide (actor_grad (config self) = "dynamics") then
    Ok (drop 1 target, metrics)
  else if decide (actor_grad (config self) = "reinforce") then
    let baseline :=
      d_mode (_target_critic self (drop_last 2 (WorldModel.seq_feat seq))) in
    let advantage := stop_gradient (tsub (drop 1 target) baseline) in
    let action :=
      stop_gradient (drop 1 (drop_last 1 (WorldModel.seq_action seq))) in
    Ok (tmul (log_prob policy action) advantage, metrics)
  else if decide (actor_grad (config self) = "both") then
    let baseline :=
      d_mode (_target_critic self (drop_last 2 (WorldModel.seq_feat seq))) in
    let advantage := stop_gradient (tsub (drop 1 target) baseline) in
    let objective :=
      tmul (log_prob policy (drop 1 (drop_last 1 (WorldModel.seq_action seq))))
           advantage in
    let mix := schedule (actor_grad_mix (config self)) tfstep in
    let objective :=
      tadd (tscale mix (drop 1 target)) (tscale (1 - mix) objective) in
    Ok (objective, <["actor_grad_mix" := mix]> metrics)
  else Raise (NotImplementedError (actor_grad (config self))).

Definition actor_loss (self : t) (seq : WorldModel.Seq) (target : Seq2)
    (tfstep : nat) : result (Qc * gmap string Qc) :=
  let policy :=
    actor_seq (actor self)
              (stop_gradient (drop_last 2 (WorldModel.seq_feat seq))) in
  om ← actor_objective self seq target policy tfstep;
  let objective := om.1 in
  let metrics := om.2 in
  let ent := entropy policy in
  let ent_scale := schedule (actor_ent (config self)) tfstep in
  let objective := tadd objective (tscale ent_scale ent) in
  let weight := stop_gradient (WorldModel.seq_weight seq) in
  let actor_loss := - mean2 (tmul (drop_last 2 weight) objective) in
  let metrics := <["actor_ent" := mean2 ent]> metrics in
  let metrics := <["actor_ent_scale" := ent_scale]> metrics in
  Ok (actor_loss, metrics).

Definition to_ndarray (x : Seq2) : NDArray :=
  {| nd_dtype := tf_float32;
     nd_shape := [length x; length (hd [] x)];
     nd_data := concat x |}.

Definition critic_loss (self : t) (seq : WorldModel.Seq) (target : Seq2)
  : Qc * gmap string Qc :=
  let dist := critic self (drop_last 1 (WorldModel.seq_feat seq)) in
  let target := stop_gradient target in
  let weight := stop_gradient (WorldModel.seq_weight seq) in
  let critic_loss :=
    - mean2 (tmul (d_log_prob dist (to_ndarray target))
                  (drop_last 1 weight)) in
  (critic_loss, {["critic" := mean2 (d_mode dist)]}).

(** Arithmetic of the counter. [tf.Variable(0, tf.int64)] passes
    [tf.int64] as the second positional argument of [tf.Variable], which
    is [trainable]; the dtype is inferred from the initial value [0], so
    the counter is a [tf.int32] variable and wraps at [2^31]. *)
Definition int32_wrap (z : Z) : Z :=
  ((z + 2 ^ 31) mod 2 ^ 32 - 2 ^ 31)%Z.

(** [x % y] on integer tensors: floor modulo, an error for [y = 0]. *)
Definition floormod (x y : Z) : result Z :=
  if decide (y = 0%Z)
  then Raise (InvalidArgumentError "Integer division by zero")
  else Ok (x mod y)%Z.

(** [mix * s + (1 - mix) * d] on one pair of variables. *)
Definition ema (mix : Qc) (s d : list Qc) : list Qc :=
  radd (rscale mix s) (rscale (1 - mix) d).

(** The loop [for s, d in zip(...): d.assign(...)]; variables of the
    target beyond the zip keep their value. *)
Fixpoint assign_zip (mix : Qc) (ss ds : Variables) : Variables :=
  match ss, ds with
  | s :: ss', d :: ds' => ema mix s d :: assign_zip mix ss' ds'
  | _, _ => ds
  end.

Definition update_slow_target (self : t) : result t :=
  if slow_target (config self) then
    r ← floormod (_updates self) (slow_target_update (config self));
    let target_variables :=
      if decide (r = 0%Z) then
        let mix :=
          if decide (_updates self = 0%Z) then 1
          else slow_target_fraction (config self) in
        assign_zip mix (critic_variables self) (target_variables self)
      else target_variables self in
    Ok (with_target self target_variables (int32_wrap (_updates self + 1)))
  else Ok self.

(** The computation recorded on [actor_tape], for a given actor. *)
Definition imagined (self : t) (world_model : WorldModel.t)
    (start : list (list Latent)) (is_terminal : option NDArray)
    (reward_fn : WorldModel.Seq -> Seq2) (seeds : nat -> Seed)
    (tfstep : nat) (a : Actor)
  : result (WorldModel.Seq * Seq2 * Qc * list Qc * gmap string Qc) :=
  let hor := imag_horizon (config self) in
  let seq := WorldModel.imagine world_model a start is_terminal hor seeds in
  let reward := reward_fn seq in
  let normed := rewnorm_call self (rewnorm_state self) reward in
  let seq := with_reward seq normed.1.1 in
  let mets1 : gmap string Qc :=
    kmap (fun k => "reward_" +:+ k) normed.1.2 in
  tm ← target self seq;
  lm ← actor_loss (with_actor self a) seq tm.1 tfstep;
  Ok (seq, tm.1, lm.1, normed.2, mets1 ∪ tm.2 ∪ lm.2).

Definition train (self : t) (world_model : WorldModel.t)
    (start : list (list Latent)) (is_terminal : option NDArray)
    (reward_fn : WorldModel.Seq -> Seq2) (seeds : nat -> Seed)
    (tfstep : nat) : result (t * gmap string Qc) :=
  let metrics : gmap string Qc := ∅ in
  let actor_tape :=
    imagined self world_model start is_terminal reward_fn seeds tfstep in
  fw ← actor_tape (actor self);
  let seq := fw.1.1.1.1 in
  let target := fw.1.1.1.2 in
  let self := with_rewnorm self fw.1.2 in
  let critic_tape := fun v : Variables =>
    Ok (critic_loss (with_critic self v) seq target).1 in
  let mets4 := (critic_loss self seq target).2 in
  let a := actor_opt self (fun a => r ← actor_tape a; Ok r.1.1.2)
                     (actor self) in
  let metrics := a.2 ∪ metrics in
  let c := critic_opt self critic_tape (critic_variables self) in
  let metrics := c.2 ∪ metrics in
  let metrics := fw.2 ∪ mets4 ∪ metrics in
  let self := with_critic (with_actor self a.1) c.1 in
  self ← update_slow_target self;
  Ok (self, metrics).

End ActorCritic.

(** ** Concrete instances

    Small collaborators on which the definitions above evaluate. *)

Module Demo.

Definition const_dist (c : Qc) (feat : list (list Feat)) : Dist :=
  {| d_log_prob := fun _ => map (map (fun _ => 0)) feat;
     d_mean := map (map (fun _ => c)) feat;
     d_mode := map (map (fun _ => c)) feat |}.

Definition rssm : RSSM :=
  {| get_feat := fun l => default [] (l !! "deter");
     img_step := fun state _ => state;
     observe := fun _ _ _ _ => ([], []);
     kl_loss := fun _ _ =>
       ({| nd_dtype := tf_float32; nd_shape := []; nd_data := [0] |}, []);
     dist_entropy := fun _ => [] |}.

Definition decoder : Decoder :=
  {| decoder_call := fun _ => [];
     estim_obs_jacobian := fun z => map (fun _ => [[1; 0]; [0; 1]]) z |}.

Definition actor : Actor :=
  {| actor_step := fun feat =>
       {| sp_mode := map (fun _ => [0]) feat;
          sp_sample := fun _ => map (fun _ => [1]) feat |};
     actor_seq := fun feat =>
       {| log_prob := fun _ => map (map (fun _ => 0)) feat;
          entropy := map (map (fun _ => 1)) feat |} |}.

Definition cfg : Config :=
  {| discount := Q2Qc (9 # 10);
     pred_discount := true;
     grad_heads := ["decoder"; "reward"; "discount"];
     clip_rewards := "identity";
     loss_scales := ∅;
     compute_dtype := float32;
     actor_grad := "dynamics";
     actor_grad_mix := fun _ => Q2Qc (1 # 10);
     actor_ent := fun _ => Q2Qc (1 # 2);
     discount_lambda := Q2Qc (95 # 100);
     imag_horizon := 3;
     slow_target := true;
     slow_target_update := 100;
     slow_target_fraction := Q2Qc (1 # 2) |}.

Definition built : WorldModel.Built :=
  {| WorldModel.built_rssm := rssm;
     WorldModel.built_encoder := fun _ =>
       {| nd_dtype := tf_float32; nd_shape := [0%nat]; nd_data := [] |};
     WorldModel.built_decoder := decoder;
     WorldModel.built_reward := const_dist 1;
     WorldModel.built_discount := const_dist (Q2Qc (1 # 2));
     WorldModel.built_model_opt := fun _ m => (m, ∅) |}.

(** A world model with and one without a discount head. *)
Definition wm (pred : bool) : WorldModel.t :=
  {| WorldModel.config := cfg;
     WorldModel.iso_reg := Q2Qc (1 # 10);
     WorldModel.rssm := rssm;
     WorldModel.encoder := WorldModel.built_encoder built;
     WorldModel.heads :=
       {| WorldModel.head_decoder := decoder;
          WorldModel.head_reward := const_dist 1;
          WorldModel.head_discount :=
            if pred then Some (const_dist (Q2Qc (1 # 2))) else None |};
     WorldModel.model_opt := fun _ m => (m, ∅) |}.

(** A start state of two items (batch 2, one time step each). *)
Definition start : list (list Latent) :=
  [[ {["deter" := [1]]} ]; [ {["deter" := [Qc_of_Z 2]]} ]].

(** [is_terminal = [1, 0]]. *)
Definition is_terminal : NDArray :=
  {| nd_dtype := tf_bool; nd_shape := [2%nat; 1%nat]; nd_data := [1; 0] |}.

Definition seeds : nat -> Seed := fun i => i.

(** The discount-override scenario on any world model: configured
    discount 0.9 and a discount head that predicts 0.5 everywhere. *)
Definition scenario (self : WorldModel.t) : WorldModel.t :=
  let c := WorldModel.config self in
  {| WorldModel.config :=
       {| discount := Q2Qc (9 # 10);
          pred_discount := true;
          grad_heads := grad_heads c;
          clip_rewards := clip_rewards c;
          loss_scales := loss_scales c;
          compute_dtype := compute_dtype c;
          actor_grad := actor_grad c;
          actor_grad_mix := actor_grad_mix c;
          actor_ent := actor_ent c;
          discount_lambda := discount_lambda c;
          imag_horizon := imag_horizon c;
          slow_target := slow_target c;
          slow_target_update := slow_target_update c;
          slow_target_fraction := slow_target_fraction c |};
     WorldModel.iso_reg := WorldModel.iso_reg self;
     WorldModel.rssm := WorldModel.rssm self;
     WorldModel.encoder := WorldModel.encoder self;
     WorldModel.heads :=
       {| WorldModel.head_decoder :=
            WorldModel.head_decoder (WorldModel.heads self);
          WorldModel.head_reward :=
            WorldModel.head_reward (WorldModel.heads self);
          WorldModel.head_discount := Some (const_dist (Q2Qc (1 # 2))) |};
     WorldModel.model_opt := WorldModel.model_opt self |}.

(** An observation batch of two steps. *)
Definition obs : gmap string NDArray :=
  <["image" := {| nd_dtype := tf_uint8; nd_shape := [2%nat];
                  nd_data := [Qc_of_Z 255; 0] |}]>
  (<["reward" := {| nd_dtype := tf_float32; nd_shape := [2%nat];
                    nd_data := [1; Qc_of_Z 3] |}]>
  (<["is_terminal" := {| nd_dtype := tf_bool; nd_shape := [2%nat];
                         nd_data := [1; 0] |}]>
  (<["discount" := {| nd_dtype := tf_float32; nd_shape := [2%nat];
                      nd_data := [Qc_of_Z 7; Qc_of_Z 7] |}]>
  (<["log_step" := {| nd_dtype := tf_int32; nd_shape := [2%nat];
                      nd_data := [Qc_of_Z 4; Qc_of_Z 5] |}]> ∅)))).

(** An actor-critic with a constant critic, for a given
    [discount_lambda], [actor_grad] and update counter. *)
Definition ac_cfg (lam : Qc) (grad : string) : Config :=
  {| discount := discount cfg;
     pred_discount := pred_discount cfg;
     grad_heads := grad_heads cfg;
     clip_rewards := clip_rewards cfg;
     loss_scales := loss_scales cfg;
     compute_dtype := compute_dtype cfg;
     actor_grad := grad;
     actor_grad_mix := actor_grad_mix cfg;
     actor_ent := actor_ent cfg;
     discount_lambda := lam;
     imag_horizon := imag_horizon cfg;
     slow_target := slow_target cfg;
     slow_target_update := slow_target_update cfg;
     slow_target_fraction := slow_target_fraction cfg |}.

Definition ac (lam : Qc) (grad : string) (updates : Z) : ActorCritic.t :=
  {| ActorCritic.config := ac_cfg lam grad;
     ActorCritic.actor := actor;
     ActorCritic.critic_net := fun v => const_dist (hd 0 (hd [] v));
     ActorCritic.critic_variables := [[Qc_of_Z 4; 1]; [Qc_of_Z 3]];
     ActorCritic.target_variables := [[Qc_of_Z 10; Qc_of_Z 5]; [1]];
     ActorCritic._updates := updates;
     ActorCritic.rewnorm_state := [];
     ActorCritic.rewnorm_call := fun st r => (r, ∅, st);
     ActorCritic.actor_opt := fun _ a => (a, ∅);
     ActorCritic.critic_opt := fun _ v => (v, ∅) |}.

(** The imagined trajectory of [start] with constant reward 1. *)
Definition imagined_seq : WorldModel.Seq :=
  let s := WorldModel.imagine (wm false) actor start None 3 seeds in
  ActorCritic.with_reward s (map (map (fun _ => 1)) (WorldModel.seq_feat s)).

(** A world model whose RSSM observes one sequence of 400 steps, with a
    linear decoder, and a configuration that weighs the ["iso"] loss. *)
Definition rssm_obs : RSSM :=
  {| get_feat := fun l => default [] (l !! "deter");
     img_step := fun state _ => state;
     observe := fun _ _ _ _ =>
       ([replicate 400 {["deter" := [1; Qc_of_Z 2]]}],
        [replicate 400 {["deter" := [1; Qc_of_Z 2]]}]);
     kl_loss := fun _ _ =>
       ({| nd_dtype := tf_float32; nd_shape := [];
           nd_data := [Qc_of_Z 3] |}, [[0]]);
     dist_entropy := fun _ => [[0]] |}.

Definition decoder_iso : Decoder :=
  {| decoder_call := fun _ => [];
     estim_obs_jacobian := fun z => map (fun _ => [[Qc_of_Z 2; 0]; [0; 1]]) z |}.

Definition draws : WorldModel.Draws :=
  {| WorldModel.sample_shuffle := fun n => seq 0 n;
     WorldModel.pair_shuffle := fun n => rev (seq 0 n);
     WorldModel.alpha_uniform := fun n _ _ => replicate n 1;
     WorldModel.v_normal := fun n F => replicate n (replicate F 1) |}.

Definition cfg_iso : Config :=
  {| discount := discount cfg;
     pred_discount := pred_discount cfg;
     grad_heads := grad_heads cfg;
     clip_rewards := clip_rewards cfg;
     loss_scales := {["iso" := Qc_of_Z 2]};
     compute_dtype := compute_dtype cfg;
     actor_grad := actor_grad cfg;
     actor_grad_mix := actor_grad_mix cfg;
     actor_ent := actor_ent cfg;
     discount_lambda := discount_lambda cfg;
     imag_horizon := imag_horizon cfg;
     slow_target := slow_target cfg;
     slow_target_update := slow_target_update cfg;
     slow_target_fraction := slow_target_fraction cfg |}.

Definition wm_iso : WorldModel.t :=
  {| WorldModel.config := cfg_iso;
     WorldModel.iso_reg := Q2Qc (1 # 10);
     WorldModel.rssm := rssm_obs;
     WorldModel.encoder := WorldModel.built_encoder built;
     WorldModel.heads :=
       {| WorldModel.head_decoder := decoder_iso;
          WorldModel.head_reward := const_dist 1;
          WorldModel.head_discount := Some (const_dist (Q2Qc (1 # 2))) |};
     WorldModel.model_opt := fun _ m => (m, ∅) |}.

Definition batch : gmap string NDArray :=
  <["action" := {| nd_dtype := tf_float32; nd_shape := [2%nat];
                   nd_data := [0; 1] |}]>
  (<["is_first" := {| nd_dtype := tf_bool; nd_shape := [2%nat];
                      nd_data := [1; 0] |}]> obs).

(** A configuration with given [grad_heads], and an RSSM whose KL loss
    has rank 1. *)
Definition cfg_heads (names : list string) : Config :=
  {| discount := discount cfg;
     pred_discount := false;
     grad_heads := names;
     clip_rewards := clip_rewards cfg;
     loss_scales := loss_scales cfg;
     compute_dtype := compute_dtype cfg;
     actor_grad := actor_grad cfg;
     actor_grad_mix := actor_grad_mix cfg;
     actor_ent := actor_ent cfg;
     discount_lambda := discount_lambda cfg;
     imag_horizon := imag_horizon cfg;
     slow_target := slow_target cfg;
     slow_target_update := slow_target_update cfg;
     slow_target_fraction := slow_target_fraction cfg |}.

Definition rssm_rank1 : RSSM :=
  {| get_feat := get_feat rssm_obs;
     img_step := img_step rssm_obs;
     observe := observe rssm_obs;
     kl_loss := fun _ _ =>
       ({| nd_dtype := tf_float32; nd_shape := [2%nat];
           nd_data := [Qc_of_Z 3; 1] |}, [[0]]);
     dist_entropy := dist_entropy rssm_obs |}.

Definition wm_rank1 : WorldModel.t :=
  {| WorldModel.config := cfg_iso;
     WorldModel.iso_reg := WorldModel.iso_reg wm_iso;
     WorldModel.rssm := rssm_rank1;
     WorldModel.encoder := WorldModel.encoder wm_iso;
     WorldModel.heads := WorldModel.heads wm_iso;
     WorldModel.model_opt := WorldModel.model_opt wm_iso |}.

End Demo.

(** ** Definitions used in the statements *)

(** The loop of [preprocess] as a dictionary. *)
Definition converted (dtype : DType) (obs : gmap string NDArray)
  : gmap string NDArray :=
  map_imap (fun key value =>
    Some (if String.prefix "log_" key then value
          else WorldModel.convert dtype value)) obs.

(** The discount entry that [preprocess] writes. *)
Definition discount_entry (self : WorldModel.t) (is_terminal : NDArray)
  : NDArray :=
  nd_map (fun x => x * discount (WorldModel.config self))
    (nd_map (fun x => 1 - x)
       (astype (float_dtype (compute_dtype (WorldModel.config self)))
               is_terminal)).

(** [l[i]], 0 outside the list. *)
Definition get (l : list Qc) (i : nat) : Qc := default 0 (l !! i).

(** The entries of batch item [b] along the time axis. *)
Definition column (x : Seq2) (b : nat) : list Qc :=
  map (fun r => get r b) x.

Definition reduce_prod (x : list Qc) : Qc := foldr Qcmult 1 x.

(** The discounted Monte-Carlo return of rewards [rs] under discounts
    [ds] with [tail] as the value after the last step:
    [sum_k (prod_{j<k} ds[j]) * rs[k] + (prod_j ds[j]) * tail]. *)
Definition monte_carlo_return (rs ds : list Qc) (tail : Qc) : Qc :=
  reduce_sum (map (fun k => reduce_prod (take k ds) * get rs k)
                  (seq 0 (length rs)))
  + reduce_prod (take (length rs) ds) * tail.

(** The recurrence of [common.lambda_return] on one batch item. *)
Fixpoint lambda_return1 (reward value pcont : list Qc) (bootstrap : Qc)
    (lambda_ : Qc) : list Qc :=
  match reward, value, pcont with
  | r :: reward', _ :: value', d :: pcont' =>
      let returns := lambda_return1 reward' value' pcont' bootstrap lambda_ in
      let next_value := hd bootstrap value' in
      let next_return := hd bootstrap returns in
      (r + d * ((1 - lambda_) * next_value + lambda_ * next_return))
        :: returns
  | _, _, _ => []
  end.

(** The dictionaries [likes] and [losses] of [WorldModel.loss] after its
    loop over the heads, from [losses = {'kl': kl_loss}]. *)
Definition head_terms (self : WorldModel.t) (data : gmap string NDArray)
    (feat : list (list Feat)) (kl_loss : Qc)
  : result (gmap string Seq2 * gmap string Qc) :=
  fold_left (WorldModel.add_head self data feat)
            (WorldModel.heads_items (WorldModel.heads self))
            (Ok (∅, {["kl" := kl_loss]})).

(** The posterior and prior states, and the KL loss, that [loss] obtains
    from the RSSM on a preprocessed batch. *)
Definition observed (self : WorldModel.t) (data : gmap string NDArray)
    (action is_first : NDArray) (state : option (list Latent))
  : list (list Latent) * list (list Latent) :=
  observe (WorldModel.rssm self) (WorldModel.encoder self data)
          action is_first state.

Definition observed_kl (self : WorldModel.t) (data : gmap string NDArray)
    (action is_first : NDArray) (state : option (list Latent)) : NDArray :=
  (kl_loss (WorldModel.rssm self)
           (observed self data action is_first state).1
           (observed self data action is_first state).2).1.

Definition observed_feat (self : WorldModel.t) (data : gmap string NDArray)
    (action is_first : NDArray) (state : option (list Latent))
  : list (list Feat) :=
  map (map (get_feat (WorldModel.rssm self)))
      (observed self data action is_first state).1.

(** The keys of [self.heads] that [__init__] builds for a configuration. *)
Definition registered_heads (config : Config) : list string :=
  ["decoder"; "reward"] ++ (if pred_discount config then ["discount"] else []).

(** [sum_{i<n} f i]. *)
Definition big_sum (n : nat) (f : nat -> Qc) : Qc :=
  reduce_sum (map f (seq 0 n)).

(** The Jacobian-vector product [J v] of an (obs_dim, F) matrix:
    entry [i] is [sum_j J[i][j] * v[j]]. *)
Definition jvp (obs_dim F : nat) (J : list (list Qc)) (v : list Qc)
  : list Qc :=
  map (fun i => big_sum F (fun j => at2 J i j * get v j)) (seq 0 obs_dim).

(** The Jacobian-transpose applied to [u]: entry [j] is
    [sum_i J[i][j] * u[i]]. *)
Definition vjp (obs_dim F : nat) (J : list (list Qc)) (u : list Qc)
  : list Qc :=
  map (fun j => big_sum obs_dim (fun i => at2 J i j * get u i)) (seq 0 F).

Definition sq_norm (u : list Qc) : Qc :=
  big_sum (length u) (fun i => get u i * get u i).

(** The mean over the batch of the squared norms. *)
Definition mean_sq_norm (us : list (list Qc)) : Qc :=
  big_sum (length us) (fun b => sq_norm (default [] (us !! b)))
  / Qc_of_nat (length us).

(** The sampled features of [relaxed_distortion_measure], each mixed with
    its randomly paired sample: [alpha * z + (1 - alpha) * z_perm]. *)
Definition perturbed_features (feat : list (list Feat)) (eta : Qc)
    (draws : WorldModel.Draws) : list Feat :=
  let z := WorldModel.sample_batch draws (concat feat) 400 in
  let z_perm :=
    WorldModel.gather z (WorldModel.pair_shuffle draws (length z)) in
  let alpha :=
    WorldModel.alpha_uniform draws (length z) (1 - eta) (1 + eta) in
  zip_with (fun a zz => radd (rscale a zz.1) (rscale (1 - a) zz.2))
           alpha (zip z z_perm).

(** The random direction [v] of [relaxed_distortion_measure]. *)
Definition direction (feat : list (list Feat)) (draws : WorldModel.Draws)
  : list (list Qc) :=
  let z := WorldModel.sample_batch draws (concat feat) 400 in
  WorldModel.v_normal draws (length z) (length (hd [] z)).

(** The total loss that [WorldModel.loss] is meant to return when the
    distortion measure enters with coefficient [coef]: the scaled sum of
    the KL and head losses plus [coef] times the measure. *)
Definition expected_total (coef : Qc) (tf_tanh : Qc -> Qc)
    (self : WorldModel.t) (data : gmap string NDArray)
    (state : option (list Latent)) (draws : WorldModel.Draws) : result Qc :=
  data' ← WorldModel.preprocess tf_tanh self data;
  action ← getitem data' "action";
  is_first ← getitem data' "is_first";
  let kl := observed_kl self data' action is_first state in
  let feat := observed_feat self data' action is_first state in
  if decide (length (nd_shape kl) = 0%nat) then
    terms ← head_terms self data' feat (WorldModel.scalar kl);
    measure ← WorldModel.relaxed_distortion_measure
                (WorldModel.head_decoder (WorldModel.heads self))
                feat (Q2Qc (2 # 10)) draws;
    Ok (WorldModel.scaled_sum (loss_scales (WorldModel.config self))
                              (delete "iso" terms.2)
        + coef * measure)
  else Raise (AssertionError EmptyString).

(** The total loss of a call of [WorldModel.loss]. *)
Definition model_loss (tf_tanh : Qc -> Qc) (self : WorldModel.t)
    (data : gmap string NDArray) (state : option (list Latent))
    (draws : WorldModel.Draws) : result Qc :=
  r ← WorldModel.loss tf_tanh self data state draws; Ok r.1.1.1.

(** The imagined states and actions after a batch of states [l], for [n]
    steps numbered from [a]: each action is sampled from the policy at the
    features of the current state, and [img_step] gives the next state. *)
Fixpoint rollout (self : WorldModel.t) (policy : Actor) (seeds : nat -> Seed)
    (n a : nat) (l : list Latent) : list (list Latent * list Action) :=
  match n with
  | O => []
  | S n' =>
      let action :=
        sp_sample (actor_step policy (map (get_feat (WorldModel.rssm self)) l))
                  (seeds a) in
      let state := img_step (WorldModel.rssm self) l action in
      (state, action) :: rollout self policy seeds n' (S a) state
  end.

(** [n] successive calls of [ActorCritic.update_slow_target]. *)
Fixpoint update_slow_target_n (n : nat) (self : ActorCritic.t)
  : result ActorCritic.t :=
  match n with
  | O => Ok self
  | S n' =>
      self' ← ActorCritic.update_slow_target self;
      update_slow_target_n n' self'
  end.

(** The keys that the heads of a world model read from the batch: those
    of the distributions the decoder returns, 'reward', and 'discount'
    when there is a discount head. *)
Definition head_key (self : WorldModel.t) (key : string) : Prop :=
  (exists inp dist,
     (key, dist) ∈ decoder_call
                     (WorldModel.head_decoder (WorldModel.heads self)) inp) \/
  key = "reward" \/
  (key = "discount" /\
   is_Some (WorldModel.head_discount (WorldModel.heads self))).

(** An actor-critic that differs only in [config.actor_grad]. *)
Definition with_actor_grad (self : ActorCritic.t) (grad : string)
  : ActorCritic.t :=
  let c := ActorCritic.config self in
  {| ActorCritic.config :=
       {| discount := discount c;
          pred_discount := pred_discount c;
          grad_heads := grad_heads c;
          clip_rewards := clip_rewards c;
          loss_scales := loss_scales c;
          compute_dtype := compute_dtype c;
          actor_grad := grad;
          actor_grad_mix := actor_grad_mix c;
          actor_ent := actor_ent c;
          discount_lambda := discount_lambda c;
          imag_horizon := imag_horizon c;
          slow_target := slow_target c;
          slow_target_update := slow_target_update c;
          slow_target_fraction := slow_target_fraction c |};
     ActorCritic.actor := ActorCritic.actor self;
     ActorCritic.critic_net := ActorCritic.critic_net self;
     ActorCritic.critic_variables := ActorCritic.critic_variables self;
     ActorCritic.target_variables := ActorCritic.target_variables self;
     ActorCritic._updates := ActorCritic._updates self;
     ActorCritic.rewnorm_state := ActorCritic.rewnorm_state self;
     ActorCritic.rewnorm_call := ActorCritic.rewnorm_call self;
     ActorCritic.actor_opt := ActorCritic.actor_opt self;
     ActorCritic.critic_opt := ActorCritic.critic_opt self |}.

(** Every likelihood recorded so far has its negative mean as loss. *)
Definition likes_losses (terms : gmap string Seq2 * gmap string Qc) : Prop :=
  forall key like,
    terms.1 !! key = Some like -> terms.2 !! key = Some (- mean2 like).

(** The significand bits of a float type, and the integers that a cast
    to it represents exactly. *)
Definition significand (d : FloatDType) : Z :=
  match d with
  | float16 => 11%Z
  | float32 => 24%Z
  | float64 => 53%Z
  end.

Definition exact_int (d : FloatDType) (x : Qc) : Prop :=
  exists n : Z, x = Qc_of_Z n /\ (Z.abs n <= 2 ^ significand d)%Z.

(** * Properties *)

(** ** Rows and tensors *)

(** Closed equations between rationals and lists of them, by evaluation
    of the underlying fractions. *)
Ltac qc_compute :=
  repeat match goal with
         | |- Some _ = Some _ => f_equal
         | |- _ :: _ = _ :: _ => f_equal
         | |- @eq Qc _ _ => apply Qc_is_canon; reflexivity
         end.

Lemma at2_lookup (x : Seq2) (t b : nat) (r : Row) (q : Qc) :
  x !! t = Some r -> r !! b = Some q -> at2 x t b = q.
Proof. intros Ht Hb. unfold at2. rewrite Ht. simpl. rewrite Hb. done. Qed.

Lemma lookup_lt_length_Some {A} (l : list A) (i : nat) :
  (i < length l)%nat -> exists x, l !! i = Some x.
Proof. intros H. apply lookup_lt_is_Some_2 in H. destruct H as [x Hx]. eauto. Qed.

Lemma rmul_length (B : nat) (x y : Row) :
  length x = B -> length y = B -> length (rmul x y) = B.
Proof.
  intros Hx Hy. unfold rmul. rewrite length_zip_with. lia.
Qed.

Lemma radd_length (B : nat) (x y : Row) :
  length x = B -> length y = B -> length (radd x y) = B.
Proof.
  intros Hx Hy. unfold radd. rewrite length_zip_with. lia.
Qed.

Lemma rscale_length (c : Qc) (x : Row) : length (rscale c x) = length x.
Proof. unfold rscale. apply length_map. Qed.

Lemma rmul_lookup (x y : Row) (b : nat) (p q : Qc) :
  x !! b = Some p -> y !! b = Some q -> rmul x y !! b = Some (p * q).
Proof.
  intros Hx Hy. unfold rmul. rewrite lookup_zip_with, Hx. simpl.
  rewrite Hy. done.
Qed.

Lemma radd_lookup (x y : Row) (b : nat) (p q : Qc) :
  x !! b = Some p -> y !! b = Some q -> radd x y !! b = Some (p + q).
Proof.
  intros Hx Hy. unfold radd. rewrite lookup_zip_with, Hx. simpl.
  rewrite Hy. done.
Qed.

Lemma rscale_lookup (c : Qc) (x : Row) (b : nat) (p : Qc) :
  x !! b = Some p -> rscale c x !! b = Some (c * p).
Proof.
  intros Hx. unfold rscale. change (map (Qcmult c) x) with (Qcmult c <$> x).
  rewrite list_lookup_fmap, Hx. done.
Qed.

(** ** The cumulative product of [imagine] *)

Lemma cumprod_length (o : Row) (xs : Seq2) :
  length (cumprod (o :: xs)) = S (length xs).
Proof.
  simpl. f_equal. revert o. induction xs as [|x xs IH]; intros o; simpl.
  - reflexivity.
  - f_equal. apply IH.
Qed.

Lemma cumprod_step (xs : Seq2) (o : Row) (t : nat) :
  (t < length xs)%nat ->
  exists w d, cumprod (o :: xs) !! t = Some w /\ xs !! t = Some d /\
              cumprod (o :: xs) !! S t = Some (rmul w d).
Proof.
  revert o t. induction xs as [|x xs IH]; intros o t Ht; simpl in Ht.
  - lia.
  - destruct t as [|t].
    + exists o, x. simpl. auto.
    + destruct (IH (rmul o x) t) as (w & d & Hw & Hd & Hs); [lia|].
      exists w, d. simpl in *. auto.
Qed.

Lemma cumprod_shape (B : nat) (xs : Seq2) (o : Row) :
  length o = B -> Forall (fun r => length r = B) xs ->
  Forall (fun r => length r = B) (cumprod (o :: xs)).
Proof.
  revert o. induction xs as [|x xs IH]; intros o Ho Hxs; simpl.
  - constructor; auto.
  - inversion Hxs as [|? ? Hx Hxs']; subst. constructor; [done|].
    apply (IH (rmul o x)); [|done]. apply rmul_length; auto.
Qed.

(** The weights of [imagine], as a function of its discounts. *)
Lemma imagine_weight_eq self policy start is_terminal horizon seeds :
  WorldModel.seq_weight
    (WorldModel.imagine self policy start is_terminal horizon seeds) =
  let disc := WorldModel.seq_discount
    (WorldModel.imagine self policy start is_terminal horizon seeds) in
  cumprod (ones_like (take 1 disc) ++ drop_last 1 disc).
Proof.
  unfold WorldModel.imagine.
  destruct (fold_left _ _ _) as [[latents feats] actions]. reflexivity.
Qed.

(** C3. The weights returned by [WorldModel.imagine] are the cumulative
    product of its discounts shifted by one step: for discounts of shape
    (T, B), [weight] has T rows, [weight[0][b] = 1], and
    [weight[t+1][b] = weight[t][b] * discount[t][b]] whenever [t+1 < T]. *)
Theorem imagine_weight_recurrence
    (self : WorldModel.t) (policy : Actor) (start : list (list Latent))
    (is_terminal : option NDArray) (horizon : nat) (seeds : nat -> Seed)
    (B : nat) :
  let s := WorldModel.imagine self policy start is_terminal horizon seeds in
  let disc := WorldModel.seq_discount s in
  let weight := WorldModel.seq_weight s in
  Forall (fun r => length r = B) disc ->
  length weight = length disc /\
  (forall b, (0 < length disc)%nat -> (b < B)%nat -> at2 weight 0 b = 1) /\
  (forall t b, (S t < length disc)%nat -> (b < B)%nat ->
     at2 weight (S t) b = at2 weight t b * at2 disc t b).
Proof.
  intros s disc weight Hshape.
  assert (Hw : weight = cumprod (ones_like (take 1 disc) ++ drop_last 1 disc))
    by apply imagine_weight_eq.
  clearbody weight disc. clear s. subst weight.
  destruct disc as [|d0 rest].
  { simpl. repeat split; intros; simpl in *; lia. }
  assert (Heq : ones_like (take 1 (d0 :: rest)) ++ drop_last 1 (d0 :: rest)
                = map (fun _ : Qc => 1) d0 :: take (length rest) (d0 :: rest)).
  { unfold drop_last. simpl. rewrite Nat.sub_0_r. reflexivity. }
  rewrite Heq. clear Heq.
  set (o := map (fun _ : Qc => 1) d0).
  set (xs := take (length rest) (d0 :: rest)).
  assert (Hlen : length xs = length rest).
  { subst xs. rewrite length_take. simpl. lia. }
  assert (Hd0 : length d0 = B) by (inversion Hshape; done).
  assert (Ho : length o = B) by (subst o; rewrite length_map; done).
  assert (Hxs : Forall (fun r => length r = B) xs).
  { subst xs. apply Forall_take. done. }
  pose proof (cumprod_shape B xs o Ho Hxs) as Hws.
  split; [|split].
  - rewrite cumprod_length, Hlen. reflexivity.
  - intros b _ Hb. apply (at2_lookup _ 0 b o); [reflexivity|].
    subst o. change (map (fun _ : Qc => 1) d0) with ((fun _ : Qc => 1) <$> d0).
    rewrite list_lookup_fmap.
    destruct (lookup_lt_length_Some d0 b) as [q Hq]; [lia|].
    rewrite Hq. done.
  - intros t b Ht Hb. simpl in Ht.
    destruct (cumprod_step xs o t) as (w & d & Hw & Hd & Hs); [lia|].
    assert (Hdisc : (d0 :: rest) !! t = Some d).
    { subst xs. apply lookup_take_Some in Hd. tauto. }
    assert (Hwl : length w = B).
    { rewrite Forall_lookup in Hws. apply (Hws t). done. }
    assert (Hdl : length d = B).
    { rewrite Forall_lookup in Hshape. apply (Hshape t). done. }
    destruct (lookup_lt_length_Some w b) as [p Hp]; [lia|].
    destruct (lookup_lt_length_Some d b) as [q Hq]; [lia|].
    rewrite (at2_lookup _ (S t) b (rmul w d) (p * q) Hs (rmul_lookup _ _ _ _ _ Hp Hq)).
    rewrite (at2_lookup _ t b w p Hw Hp).
    rewrite (at2_lookup _ t b d q Hdisc Hq). done.
Qed.

Lemma imagine_weight_recurrence_witness :
  let s := WorldModel.imagine (Demo.wm true) Demo.actor Demo.start
             (Some Demo.is_terminal) 3 Demo.seeds in
  Forall (fun r => length r = 2%nat) (WorldModel.seq_discount s) /\
  at2 (WorldModel.seq_weight s) 2 1 =
    at2 (WorldModel.seq_weight s) 1 1 * at2 (WorldModel.seq_discount s) 1 1.
Proof.
  assert (H : Forall (fun r : list Qc => length r = 2%nat)
                (WorldModel.seq_discount
                   (WorldModel.imagine (Demo.wm true) Demo.actor
                      Demo.start (Some Demo.is_terminal) 3
                      Demo.seeds))).
  { vm_compute. repeat constructor. }
  split; [exact H|].
  apply (imagine_weight_recurrence (Demo.wm true) Demo.actor
           Demo.start (Some Demo.is_terminal) 3 Demo.seeds 2 H);
    vm_compute; lia.
Defined.

(** ** The discounts of [imagine] *)

Lemma rollout_feats_length self policy seeds (l : list nat)
    (acc : list (list Latent) * list (list Feat) * list (list Action)) :
  length (fold_left (WorldModel.imagine_step self policy seeds) l acc).1.2 =
  (length acc.1.2 + length l)%nat.
Proof.
  revert acc. induction l as [|i l IH]; intros [[latents feats] actions].
  - simpl. lia.
  - simpl fold_left. rewrite IH. simpl. rewrite length_app. simpl. lia.
Qed.

Lemma imagine_feat_length self policy start is_terminal horizon seeds :
  length (WorldModel.seq_feat
            (WorldModel.imagine self policy start is_terminal horizon seeds))
  = S horizon.
Proof.
  unfold WorldModel.imagine.
  pose proof (rollout_feats_length self policy seeds (seq 0 horizon)
    ([concat start],
     [map (get_feat (WorldModel.rssm self)) (concat start)],
     [zeros_like (sp_mode (actor_step policy
        (map (get_feat (WorldModel.rssm self)) (concat start))))])) as H.
  destruct (fold_left _ _ _) as [[latents feats] actions].
  simpl in *. rewrite H, length_seq. reflexivity.
Qed.

Lemma tscale_ones_like {A} (c : Qc) (x : list (list A)) :
  tscale c (ones_like x) = map (map (fun _ => c)) x.
Proof.
  unfold tscale, ones_like, rscale. rewrite map_map.
  apply map_ext. intros r. rewrite map_map. apply map_ext.
  intros _. ring.
Qed.

Lemma lookup_map {A B} (f : A -> B) (l : list A) (i : nat) :
  map f l !! i = f <$> (l !! i).
Proof. apply (list_lookup_fmap f l i). Qed.

(** C2. With a discount head and [is_terminal] given, the first row of
    the discounts of [WorldModel.imagine] is [(1 - is_terminal) *
    config.discount] and every later row is the head's prediction; without
    a discount head every entry is [config.discount], for the [horizon + 1]
    steps. In the scenario [is_terminal = [1, 0]], discount 0.9, head
    predicting 0.5: the first row is [[0, 0.9]] and the later rows hold
    0.5. *)
Theorem imagine_discount_sequence
    (self : WorldModel.t) (policy : Actor) (start : list (list Latent))
    (it : NDArray) (horizon : nat) (seeds : nat -> Seed) :
  let s := WorldModel.imagine self policy start (Some it) horizon seeds in
  (match WorldModel.head_discount (WorldModel.heads self) with
   | Some head =>
       WorldModel.seq_discount s !! 0%nat =
         Some (map (fun x => (1 - x) * discount (WorldModel.config self))
                   (nd_data it)) /\
       forall t, WorldModel.seq_discount s !! S t =
                 d_mean (head (WorldModel.seq_feat s)) !! S t
   | None =>
       forall is_terminal,
         let s' :=
           WorldModel.imagine self policy start is_terminal horizon seeds in
         length (WorldModel.seq_discount s') = S horizon /\
         forall t, WorldModel.seq_discount s' !! t =
                   map (fun _ => discount (WorldModel.config self)) <$>
                     (WorldModel.seq_feat s' !! t)
   end) /\
  (forall dt sh,
     let s2 :=
       WorldModel.imagine (Demo.scenario self) policy start
         (Some {| nd_dtype := dt; nd_shape := sh; nd_data := [1; 0] |})
         horizon seeds in
     length (WorldModel.seq_discount s2) = S horizon /\
     WorldModel.seq_discount s2 !! 0%nat = Some [0; Q2Qc (9 # 10)] /\
     forall t, WorldModel.seq_discount s2 !! S t =
               map (fun _ => Q2Qc (1 # 2)) <$>
                 (WorldModel.seq_feat s2 !! S t)).
Proof.
  intros s. split.
  - destruct (WorldModel.head_discount (WorldModel.heads self))
      as [head|] eqn:Hhead.
    + subst s. unfold WorldModel.imagine.
      destruct (fold_left _ _ _) as [[latents feats] actions].
      rewrite Hhead. simpl. split; [reflexivity|].
      intros t. rewrite lookup_drop. reflexivity.
    + intros is_terminal s'.
      pose proof (imagine_feat_length self policy start is_terminal
                    horizon seeds) as Hlen.
      subst s'. revert Hlen. unfold WorldModel.imagine.
      destruct (fold_left _ _ _) as [[latents feats] actions].
      rewrite Hhead. simpl. intros Hlen. rewrite tscale_ones_like. split.
      * rewrite length_map. exact Hlen.
      * intros t. apply lookup_map.
  - intros dt sh s2.
    pose proof (imagine_feat_length (Demo.scenario self) policy start
      (Some {| nd_dtype := dt; nd_shape := sh; nd_data := [1; 0] |})
      horizon seeds) as Hlen.
    subst s2. revert Hlen. unfold WorldModel.imagine.
    destruct (fold_left _ _ _) as [[latents feats] actions].
    simpl. intros Hlen. split; [|split].
    + rewrite length_drop, length_map, Hlen. lia.
    + qc_compute.
    + intros t. rewrite lookup_drop. apply lookup_map.
Qed.

(** C9. With a discount head and [is_terminal = None], [imagine] does
    not override the first step: the discounts are the head's prediction
    on the imagined features, at every step. *)
Theorem imagine_discount_no_override
    (self : WorldModel.t) (policy : Actor) (start : list (list Latent))
    (horizon : nat) (seeds : nat -> Seed) (head : MLP) :
  let s := WorldModel.imagine self policy start None horizon seeds in
  WorldModel.head_discount (WorldModel.heads self) = Some head ->
  WorldModel.seq_discount s = d_mean (head (WorldModel.seq_feat s)) /\
  forall t, WorldModel.seq_discount s !! t =
            d_mean (head (WorldModel.seq_feat s)) !! t.
Proof.
  intros s Hhead.
  assert (H : WorldModel.seq_discount s =
              d_mean (head (WorldModel.seq_feat s))).
  { subst s. unfold WorldModel.imagine.
    destruct (fold_left _ _ _) as [[latents feats] actions].
    rewrite Hhead. reflexivity. }
  split; [exact H|]. intros t. rewrite H. reflexivity.
Qed.

Lemma imagine_discount_no_override_witness :
  let s := WorldModel.imagine (Demo.wm true) Demo.actor Demo.start
             None 3 Demo.seeds in
  WorldModel.head_discount (WorldModel.heads (Demo.wm true)) =
    Some (Demo.const_dist (Q2Qc (1 # 2))) /\
  WorldModel.seq_discount s !! 0%nat =
    d_mean (Demo.const_dist (Q2Qc (1 # 2)) (WorldModel.seq_feat s))
      !! 0%nat.
Proof.
  split; [reflexivity|].
  apply (imagine_discount_no_override (Demo.wm true) Demo.actor
           Demo.start 3 Demo.seeds
           (Demo.const_dist (Q2Qc (1 # 2))) eq_refl).
Defined.

(** ** [WorldModel.preprocess] *)

Lemma converted_lookup dtype (obs : gmap string NDArray) (key : string) :
  converted dtype obs !! key =
  (fun value => if String.prefix "log_" key then value
                else WorldModel.convert dtype value) <$> (obs !! key).
Proof.
  unfold converted. rewrite map_lookup_imap.
  destruct (obs !! key); reflexivity.
Qed.

Lemma preprocess_unfold tf_tanh (self : WorldModel.t)
    (obs : gmap string NDArray) :
  WorldModel.preprocess tf_tanh self obs =
  match WorldModel.clip_fn tf_tanh (clip_rewards (WorldModel.config self)) with
  | Raise e => Raise e
  | Ok clip =>
      match obs !! "reward" with
      | None => Raise (KeyError "reward")
      | Some reward =>
          match obs !! "is_terminal" with
          | None => Raise (KeyError "is_terminal")
          | Some it =>
              let dtype :=
                float_dtype (compute_dtype (WorldModel.config self)) in
              let it' := WorldModel.convert dtype it in
              Ok (<["discount" := discount_entry self it']>
                  (<["discount" :=
                       nd_map (fun x => 1 - x) (astype dtype it')]>
                  (<["reward" := clip (WorldModel.convert dtype reward)]>
                     (converted dtype obs))))
          end
      end
  end.
Proof.
  unfold WorldModel.preprocess.
  fold (converted (float_dtype (compute_dtype (WorldModel.config self))) obs).
  destruct (WorldModel.clip_fn _ _) as [clip|e]; [|reflexivity].
  unfold mbind, result_bind, getitem.
  rewrite converted_lookup.
  destruct (obs !! "reward") as [reward|]; [|reflexivity]. simpl.
  rewrite lookup_insert_ne by discriminate.
  rewrite converted_lookup.
  destruct (obs !! "is_terminal") as [it|]; [|reflexivity]. simpl.
  rewrite lookup_insert_eq. reflexivity.
Qed.

Lemma convert_not_uint8 (dtype : FloatDType) (value : NDArray) :
  nd_dtype value <> tf_uint8 ->
  nd_data (WorldModel.convert (float_dtype dtype) value) = nd_data value.
Proof.
  intros H. unfold WorldModel.convert.
  destruct (decide (nd_dtype value = tf_int32)) as [Hi|Hi].
  - destruct (decide (nd_dtype (astype (float_dtype dtype) value) = tf_uint8))
      as [He|He]; [|reflexivity].
    destruct dtype; discriminate He.
  - destruct (decide (nd_dtype value = tf_uint8)); [contradiction|].
    reflexivity.
Qed.

(** C10. In the mapping that [WorldModel.preprocess] returns, every entry
    whose key starts with ["log_"] is the input's, and the ["discount"]
    entry is [(1 - is_terminal) * config.discount] computed from the
    returned ["is_terminal"] entry (whose values are the input's unless its
    element type is uint8), whatever the input held under ["discount"]. *)
Theorem preprocess_frame
    (tf_tanh : Qc -> Qc) (self : WorldModel.t)
    (obs obs' : gmap string NDArray) :
  WorldModel.preprocess tf_tanh self obs = Ok obs' ->
  (forall key, String.prefix "log_" key = true -> obs' !! key = obs !! key) /\
  (exists it_in it disc,
     obs !! "is_terminal" = Some it_in /\
     obs' !! "is_terminal" = Some it /\
     obs' !! "discount" = Some disc /\
     nd_dtype disc = float_dtype (compute_dtype (WorldModel.config self)) /\
     nd_data disc =
       map (fun x => (1 - x) * discount (WorldModel.config self))
           (nd_data it) /\
     (nd_dtype it_in <> tf_uint8 -> nd_data it = nd_data it_in)) /\
  (forall d, exists obs'',
     WorldModel.preprocess tf_tanh self (<["discount" := d]> obs) = Ok obs'' /\
     obs'' !! "discount" = obs' !! "discount").
Proof.
  intros H. rewrite preprocess_unfold in H.
  destruct (WorldModel.clip_fn _ _) as [clip|e] eqn:Hclip; [|discriminate].
  destruct (obs !! "reward") as [reward|] eqn:Hreward; [|discriminate].
  destruct (obs !! "is_terminal") as [it|] eqn:Hit; [|discriminate].
  simpl in H. injection H as <-.
  split; [|split].
  - intros key Hkey.
    assert (key <> "discount") by (intros ->; discriminate).
    assert (key <> "reward") by (intros ->; discriminate).
    rewrite !lookup_insert_ne by done.
    rewrite converted_lookup, Hkey. destruct (obs !! key); reflexivity.
  - exists it,
      (WorldModel.convert
         (float_dtype (compute_dtype (WorldModel.config self))) it),
      (discount_entry self
         (WorldModel.convert
            (float_dtype (compute_dtype (WorldModel.config self))) it)).
    split; [reflexivity|]. split; [|split; [|split; [|split]]].
    + rewrite !lookup_insert_ne by discriminate.
      rewrite converted_lookup, Hit. reflexivity.
    + apply lookup_insert_eq.
    + reflexivity.
    + unfold discount_entry. simpl. rewrite map_map. reflexivity.
    + apply convert_not_uint8.
  - intros d. rewrite preprocess_unfold, Hclip.
    rewrite !lookup_insert_ne by discriminate. rewrite Hreward, Hit.
    eexists. split; [reflexivity|].
    rewrite !lookup_insert_eq. reflexivity.
Qed.

Lemma preprocess_frame_witness :
  exists obs',
    WorldModel.preprocess id (Demo.wm true) Demo.obs = Ok obs' /\
    obs' !! "log_step" = Demo.obs !! "log_step".
Proof.
  pose proof (preprocess_unfold id (Demo.wm true) Demo.obs) as E.
  simpl in E.
  eexists. split; [exact E|].
  apply (preprocess_frame id (Demo.wm true) Demo.obs _ E).
  reflexivity.
Defined.

(** ** [ActorCritic.target] and the lambda-return *)

(** The scenario of the documentation: horizon 3, batch 2, reward 1,
    discount 0.9, lambda 0.95 and value 10 give the return 10 at every
    step. *)
Example target_scenario :
  (ActorCritic.target (Demo.ac (Q2Qc (95 # 100)) "dynamics" 0)
                      Demo.imagined_seq) ≫= (fun r => Ok r.1)
  = Ok [[Qc_of_Z 10; Qc_of_Z 10]; [Qc_of_Z 10; Qc_of_Z 10];
        [Qc_of_Z 10; Qc_of_Z 10]].
Proof. vm_compute. f_equal. qc_compute. Qed.

Lemma at2_column (x : Seq2) (t b : nat) : at2 x t b = get (column x b) t.
Proof.
  unfold at2, get, column. rewrite lookup_map.
  destruct (x !! t) as [r|]; reflexivity.
Qed.

Lemma column_take (x : Seq2) (n b : nat) :
  column (take n x) b = take n (column x b).
Proof. unfold column. symmetry. apply firstn_map. Qed.

Lemma column_app (x y : Seq2) (b : nat) :
  column (x ++ y) b = column x b ++ column y b.
Proof. unfold column. apply map_app. Qed.

Lemma get_take (l : list Qc) (n i : nat) :
  (i < n)%nat -> get (take n l) i = get l i.
Proof. intros H. unfold get. rewrite lookup_take_lt by done. reflexivity. Qed.

Lemma get_map_seq (f : nat -> Qc) (n t : nat) :
  (t < n)%nat -> get (map f (seq 0 n)) t = f t.
Proof.
  intros H. unfold get. rewrite lookup_map, lookup_seq_lt by done.
  reflexivity.
Qed.

Lemma get_radd (x y : list Qc) (b : nat) :
  length x = length y -> get (radd x y) b = get x b + get y b.
Proof.
  intros H. unfold get, radd. rewrite lookup_zip_with.
  destruct (x !! b) as [p|] eqn:Hx; simpl.
  - destruct (lookup_lt_length_Some y b) as [q Hq].
    { rewrite <- H. apply lookup_lt_is_Some_1. eauto. }
    rewrite Hq. reflexivity.
  - apply lookup_ge_None_1 in Hx. rewrite H in Hx.
    apply lookup_ge_None_2 in Hx. rewrite Hx. simpl. ring.
Qed.

Lemma get_rmul (x y : list Qc) (b : nat) :
  length x = length y -> get (rmul x y) b = get x b * get y b.
Proof.
  intros H. unfold get, rmul. rewrite lookup_zip_with.
  destruct (x !! b) as [p|] eqn:Hx; simpl.
  - destruct (lookup_lt_length_Some y b) as [q Hq].
    { rewrite <- H. apply lookup_lt_is_Some_1. eauto. }
    rewrite Hq. reflexivity.
  - ring.
Qed.

Lemma get_rscale (c : Qc) (x : list Qc) (b : nat) :
  get (rscale c x) b = c * get x b.
Proof.
  unfold get, rscale. rewrite lookup_map.
  destruct (x !! b); simpl; [reflexivity|ring].
Qed.

Lemma hd_length (B : nat) (d : list Qc) (x : Seq2) :
  length d = B -> Forall (fun r => length r = B) x -> length (hd d x) = B.
Proof. intros Hd Hx. destruct Hx; simpl; assumption. Qed.

Lemma hd_column (d : list Qc) (x : Seq2) (b : nat) :
  get (hd d x) b = hd (get d b) (column x b).
Proof. destruct x; reflexivity. Qed.

(** [common.lambda_return] acts on every batch item by the scalar
    recurrence. *)
Lemma lambda_return_column (B b : nat) (lam : Qc) (boot : list Qc) :
  length boot = B ->
  forall R V D : Seq2,
    Forall (fun r => length r = B) R ->
    Forall (fun r => length r = B) V ->
    Forall (fun r => length r = B) D ->
    Forall (fun r => length r = B) (common.lambda_return R V D boot lam) /\
    column (common.lambda_return R V D boot lam) b =
    lambda_return1 (column R b) (column V b) (column D b) (get boot b) lam.
Proof.
  intros Hboot. induction R as [|r R IH]; intros V D HR HV HD.
  - simpl. split; [constructor|reflexivity].
  - destruct V as [|v V]; [simpl; split; [constructor|reflexivity]|].
    destruct D as [|d D]; [simpl; split; [constructor|reflexivity]|].
    pose proof (Forall_inv HR) as Hr. pose proof (Forall_inv_tail HR) as HR'.
    pose proof (Forall_inv HV) as Hv. pose proof (Forall_inv_tail HV) as HV'.
    pose proof (Forall_inv HD) as Hd. pose proof (Forall_inv_tail HD) as HD'.
    simpl in Hr, Hv, Hd.
    destruct (IH V D HR' HV' HD') as [IHshape IHcol].
    pose proof (hd_length _ boot V Hboot HV') as Hnv.
    pose proof (hd_length _ boot _ Hboot IHshape) as Hnr.
    cbn [common.lambda_return lambda_return1 column map].
    fold (column R b) (column V b) (column D b).
    fold (column (common.lambda_return R V D boot lam) b).
    set (nv := hd boot V) in *.
    set (nr := hd boot (common.lambda_return R V D boot lam)) in *.
    assert (Hin : length (radd (rscale (1 - lam) nv) (rscale lam nr))
                  = length r).
    { apply radd_length; rewrite rscale_length; congruence. }
    split.
    + constructor; [|exact IHshape].
      apply radd_length; [done|]. apply rmul_length; [done|]. congruence.
    + f_equal; [|exact IHcol].
      rewrite get_radd, get_rmul, get_radd, !get_rscale.
      * subst nv nr. rewrite !hd_column, IHcol. reflexivity.
      * rewrite !rscale_length. congruence.
      * congruence.
      * unfold rmul. rewrite length_zip_with. lia.
Qed.

Lemma reduce_sum_scale (c : Qc) (f : nat -> Qc) (l : list nat) :
  reduce_sum (map (fun k => c * f k) l) = c * reduce_sum (map f l).
Proof.
  induction l as [|k l IH]; simpl.
  - ring.
  - rewrite IH. ring.
Qed.

Lemma map_seq_S {A} (f : nat -> A) (n : nat) :
  map f (seq 1 n) = map (fun k => f (S k)) (seq 0 n).
Proof. rewrite <- seq_shift, map_map. reflexivity. Qed.

Lemma monte_carlo_return_nil (ds : list Qc) (tail : Qc) :
  monte_carlo_return [] ds tail = tail.
Proof. unfold monte_carlo_return. simpl. ring. Qed.

Lemma monte_carlo_return_cons (r d : Qc) (rs ds : list Qc) (tail : Qc) :
  monte_carlo_return (r :: rs) (d :: ds) tail =
  r + d * monte_carlo_return rs ds tail.
Proof.
  unfold monte_carlo_return. cbn [length seq map].
  rewrite map_seq_S.
  rewrite (map_ext _ (fun k => d * (reduce_prod (take k ds) * get rs k))).
  2:{ intros k. unfold get. simpl. ring. }
  change (reduce_sum (?a :: ?l)) with (a + reduce_sum l).
  rewrite (reduce_sum_scale d (fun k => reduce_prod (take k ds) * get rs k)).
  change (take (S ?n) (d :: ds)) with (d :: take n ds).
  change (reduce_prod (d :: ?l)) with (d * reduce_prod l).
  change (reduce_prod (take 0 (d :: ds))) with 1.
  change (get (r :: rs) 0) with r.
  ring.
Qed.

(** With [lambda_ = 0] the recurrence is the one-step target. *)
Lemma lambda_return1_zero (boot : Qc) (rs : list Qc) :
  forall vs ds : list Qc,
    length vs = length rs -> length ds = length rs ->
    lambda_return1 rs vs ds boot 0 =
    map (fun t => get rs t + get ds t * get (vs ++ [boot]) (S t))
        (seq 0 (length rs)).
Proof.
  induction rs as [|r rs IH]; intros vs ds Hv Hd.
  - reflexivity.
  - destruct vs as [|v vs]; [discriminate|].
    destruct ds as [|d ds]; [discriminate|].
    cbn [lambda_return1 length seq map]. f_equal.
    + unfold get. simpl. destruct vs; simpl; ring.
    + rewrite IH by (simpl in *; lia). rewrite map_seq_S. reflexivity.
Qed.

(** With [lambda_ = 1] it is the discounted return with the bootstrap as
    tail. *)
Lemma lambda_return1_one (boot : Qc) (rs : list Qc) :
  forall vs ds : list Qc,
    length vs = length rs -> length ds = length rs ->
    lambda_return1 rs vs ds boot 1 =
    map (fun t => monte_carlo_return (drop t rs) (drop t ds) boot)
        (seq 0 (length rs)).
Proof.
  induction rs as [|r rs IH]; intros vs ds Hv Hd.
  - reflexivity.
  - destruct vs as [|v vs]; [discriminate|].
    destruct ds as [|d ds]; [discriminate|].
    cbn [lambda_return1 length seq map]. f_equal.
    + cbn [drop]. rewrite monte_carlo_return_cons.
      rewrite IH by (simpl in *; lia).
      destruct rs as [|r' rs].
      * cbn [length seq map hd]. rewrite monte_carlo_return_nil. ring.
      * cbn [length seq map hd]. rewrite !drop_0. ring.
    + rewrite IH by (simpl in *; lia). rewrite map_seq_S. reflexivity.
Qed.

Lemma lambda_return1_length (boot lam : Qc) (rs : list Qc) :
  forall vs ds : list Qc,
    length vs = length rs -> length ds = length rs ->
    length (lambda_return1 rs vs ds boot lam) = length rs.
Proof.
  induction rs as [|r rs IH]; intros vs ds Hv Hd.
  - reflexivity.
  - destruct vs as [|v vs]; [discriminate|].
    destruct ds as [|d ds]; [discriminate|].
    simpl. f_equal. apply IH; simpl in *; lia.
Qed.

Lemma take_snoc_last {A} (d : A) (l : list A) (n : nat) :
  length l = S n -> l = take n l ++ [List.last l d].
Proof.
  intros H. assert (l <> []) by (intros ->; discriminate).
  rewrite (app_removelast_last d) at 1 by assumption.
  rewrite removelast_firstn_len, H. reflexivity.
Qed.

Lemma get_snoc (l : list Qc) (x : Qc) (n : nat) :
  length l = n -> get (l ++ [x]) n = x.
Proof.
  intros <-. unfold get. rewrite lookup_app_r by lia. rewrite Nat.sub_diag.
  reflexivity.
Qed.

Lemma drop_last_1 {A} (x : list A) (n : nat) :
  length x = S n -> drop_last 1 x = take n x.
Proof.
  intros H. unfold drop_last. rewrite H. f_equal. lia.
Qed.

Lemma target_unfold (self : ActorCritic.t) (seq : WorldModel.Seq)
    (reward : Seq2) :
  let disc := WorldModel.seq_discount seq in
  let value :=
    d_mode (ActorCritic._target_critic self (WorldModel.seq_feat seq)) in
  WorldModel.seq_reward seq = Some reward ->
  value <> [] ->
  exists metrics,
    ActorCritic.target self seq =
    Ok (common.lambda_return (drop_last 1 reward) (drop_last 1 value)
          (drop_last 1 disc) (List.last value [])
          (discount_lambda (ActorCritic.config self)),
        metrics).
Proof.
  intros disc value Hrew Hne. unfold ActorCritic.target. rewrite Hrew.
  fold value. destruct value as [|v0 value'] eqn:Hv; [contradiction|].
  eexists. reflexivity.
Qed.

(** C1. [ActorCritic.target] on rewards, values and discounts of shape
    (H + 1, B) returns H rows. With [discount_lambda = 0] they are the
    one-step targets [reward[t] + discount[t] * value[t+1]]; with
    [discount_lambda = 1] they are the discounted Monte-Carlo returns of
    the rewards from [t] to [H - 1] with the bootstrap [value[H]] as tail. *)
Theorem target_lambda_return
    (self : ActorCritic.t) (seq : WorldModel.Seq) (reward : Seq2)
    (H B : nat) :
  let disc := WorldModel.seq_discount seq in
  let value :=
    d_mode (ActorCritic._target_critic self (WorldModel.seq_feat seq)) in
  WorldModel.seq_reward seq = Some reward ->
  has_shape (S H) B reward ->
  has_shape (S H) B value ->
  has_shape (S H) B disc ->
  exists target metrics,
    ActorCritic.target self seq = Ok (target, metrics) /\
    has_shape H B target /\
    (discount_lambda (ActorCritic.config self) = 0 ->
     forall t b, (t < H)%nat -> (b < B)%nat ->
       at2 target t b =
       at2 reward t b + at2 disc t b * at2 value (S t) b) /\
    (discount_lambda (ActorCritic.config self) = 1 ->
     forall t b, (t < H)%nat -> (b < B)%nat ->
       at2 target t b =
       monte_carlo_return (drop t (take H (column reward b)))
                          (drop t (take H (column disc b)))
                          (at2 value H b)).
Proof.
  intros disc value Hrew [HRl HRs] [HVl HVs] [HDl HDs].
  assert (Hne : value <> []) by (intros E; rewrite E in HVl; discriminate).
  destruct (target_unfold self seq reward Hrew Hne) as [metrics Htarget].
  fold disc value in Htarget.
  rewrite (drop_last_1 reward H HRl), (drop_last_1 value H HVl),
    (drop_last_1 disc H HDl) in Htarget.
  set (boot := List.last value []) in *.
  set (lam := discount_lambda (ActorCritic.config self)) in *.
  assert (Hval : value = take H value ++ [boot])
    by (apply take_snoc_last; exact HVl).
  assert (Hboot : length boot = B).
  { pose proof HVs as HVs'. rewrite Hval in HVs'.
    apply Forall_app in HVs' as [_ Hb]. exact (Forall_inv Hb). }
  assert (Hcolv : forall b, column (take H value) b ++ [get boot b]
                            = column value b).
  { intros b. transitivity (column (take H value ++ [boot]) b).
    - rewrite column_app. reflexivity.
    - rewrite <- Hval. reflexivity. }
  assert (Hcol : forall b,
    Forall (fun r => length r = B)
      (common.lambda_return (take H reward) (take H value) (take H disc)
                            boot lam) /\
    column (common.lambda_return (take H reward) (take H value)
              (take H disc) boot lam) b =
    lambda_return1 (take H (column reward b)) (take H (column value b))
                   (take H (column disc b)) (get boot b) lam).
  { intros b. rewrite <- !column_take.
    apply lambda_return_column; [exact Hboot| | |]; apply Forall_take;
      assumption. }
  assert (Hlen : forall (x : Seq2) b, length x = S H ->
                   length (take H (column x b)) = H).
  { intros x b Hx. rewrite length_take. unfold column.
    rewrite length_map, Hx. lia. }
  exists (common.lambda_return (take H reward) (take H value) (take H disc)
            boot lam), metrics.
  split; [exact Htarget|]. split; [|split].
  - split; [|apply (Hcol 0%nat)].
    destruct (Hcol 0%nat) as [_ Hc].
    apply (f_equal length) in Hc. unfold column at 1 in Hc.
    rewrite length_map in Hc. rewrite Hc.
    rewrite lambda_return1_length; rewrite ?Hlen; auto.
  - intros Hlam t b Ht Hb. destruct (Hcol b) as [_ Hc].
    rewrite at2_column, Hc, Hlam.
    rewrite lambda_return1_zero by (rewrite !Hlen; auto).
    rewrite Hlen by exact HRl. rewrite get_map_seq by exact Ht.
    rewrite !get_take by exact Ht.
    rewrite <- (column_take value), (Hcolv b), <- !at2_column.
    reflexivity.
  - intros Hlam t b Ht Hb. destruct (Hcol b) as [_ Hc].
    rewrite at2_column, Hc, Hlam.
    rewrite lambda_return1_one by (rewrite !Hlen; auto).
    rewrite Hlen by exact HRl. rewrite get_map_seq by exact Ht.
    f_equal. rewrite at2_column, <- (Hcolv b). symmetry.
    apply get_snoc. rewrite column_take. apply Hlen. exact HVl.
Qed.

Lemma target_lambda_return_witness :
  exists target metrics,
    ActorCritic.target (Demo.ac 0 "dynamics" 0) Demo.imagined_seq
      = Ok (target, metrics) /\
    at2 target 1 0 =
      at2 (map (map (fun _ => 1))
             (WorldModel.seq_feat Demo.imagined_seq)) 1 0
      + at2 (WorldModel.seq_discount Demo.imagined_seq) 1 0
        * at2 (d_mode (ActorCritic._target_critic
                         (Demo.ac 0 "dynamics" 0)
                         (WorldModel.seq_feat Demo.imagined_seq))) 2 0.
Proof.
  assert (Hshape : forall x : Seq2,
            x = map (map (fun _ => 1))
                    (WorldModel.seq_feat Demo.imagined_seq) \/
            x = WorldModel.seq_discount Demo.imagined_seq \/
            x = d_mode (ActorCritic._target_critic
                          (Demo.ac 0 "dynamics" 0)
                          (WorldModel.seq_feat Demo.imagined_seq)) ->
            has_shape 4 2 x).
  { intros x [-> | [-> | ->]]; (split; [reflexivity|vm_compute; repeat constructor]). }
  destruct (target_lambda_return (Demo.ac 0 "dynamics" 0)
              Demo.imagined_seq
              (map (map (fun _ => 1))
                   (WorldModel.seq_feat Demo.imagined_seq))
              3 2 eq_refl
              (Hshape _ (or_introl eq_refl))
              (Hshape _ (or_intror (or_intror eq_refl)))
              (Hshape _ (or_intror (or_introl eq_refl))))
    as (target & metrics & Ht & _ & H0 & _).
  exists target, metrics. split; [exact Ht|].
  apply H0; [reflexivity|lia|lia].
Defined.

(** ** [ActorCritic.update_slow_target] *)

Lemma ema_one (s d : list Qc) :
  length s = length d -> ActorCritic.ema 1 s d = s.
Proof.
  revert d. induction s as [|x s IH]; intros [|y d] Hlen;
    try discriminate; [reflexivity|].
  unfold ActorCritic.ema, radd, rscale in *. simpl. f_equal.
  - ring.
  - apply IH. simpl in Hlen. lia.
Qed.

Lemma get_ema (mix : Qc) (s d : list Qc) (j : nat) :
  length s = length d ->
  get (ActorCritic.ema mix s d) j = mix * get s j + (1 - mix) * get d j.
Proof.
  intros Hlen. unfold ActorCritic.ema.
  rewrite get_radd by (rewrite !rscale_length; exact Hlen).
  rewrite !get_rscale. reflexivity.
Qed.

Lemma at2_get (x : Seq2) (i j : nat) : at2 x i j = get (default [] (x !! i)) j.
Proof. unfold at2, get. destruct (x !! i); reflexivity. Qed.

Lemma assign_zip_one (ss ds : list (list Qc)) :
  Forall2 (fun s d => length s = length d) ss ds ->
  ActorCritic.assign_zip 1 ss ds = ss.
Proof.
  induction 1 as [|s d ss ds Hsd _ IH]; simpl.
  - reflexivity.
  - rewrite ema_one by exact Hsd. rewrite IH. reflexivity.
Qed.

Lemma assign_zip_at2 (mix : Qc) (ss ds : list (list Qc)) :
  Forall2 (fun s d => length s = length d) ss ds ->
  forall i j,
    at2 (ActorCritic.assign_zip mix ss ds) i j =
    mix * at2 ss i j + (1 - mix) * at2 ds i j.
Proof.
  induction 1 as [|s d ss ds Hsd _ IH]; intros i j.
  - rewrite !at2_get. simpl. unfold get. simpl. ring.
  - destruct i as [|i].
    + rewrite !at2_get. simpl. apply get_ema. exact Hsd.
    + specialize (IH i j). rewrite !at2_get in *. simpl. exact IH.
Qed.

Lemma int32_wrap_id (z : Z) :
  (- 2 ^ 31 <= z < 2 ^ 31)%Z -> ActorCritic.int32_wrap z = z.
Proof.
  intros Hz. unfold ActorCritic.int32_wrap.
  rewrite Z.mod_small by lia. lia.
Qed.

(** C4. With [slow_target] enabled and a non-zero cadence, a call of
    [update_slow_target] whose counter is divisible by
    [slow_target_update] assigns [mix * critic + (1 - mix) * target] to
    every entry of the target variables, with [mix = 1] when the counter is
    0 (the target becomes the critic) and [mix = slow_target_fraction]
    otherwise; any other call leaves the target as it is. Every call leaves
    the critic alone and adds 1 to the counter, which is a 32-bit integer:
    the sum is exact below [2^31 - 1], and the call at [2^31 - 1] wraps the
    counter to [- 2^31]. *)
Theorem update_slow_target_ema (self : ActorCritic.t) :
  let cfg := ActorCritic.config self in
  let u := ActorCritic._updates self in
  let critic := ActorCritic.critic_variables self in
  let target := ActorCritic.target_variables self in
  let mix := if decide (u = 0%Z) then 1 else slow_target_fraction cfg in
  slow_target cfg = true ->
  slow_target_update cfg <> 0%Z ->
  Forall2 (fun s d => length s = length d) critic target ->
  exists self',
    ActorCritic.update_slow_target self = Ok self' /\
    ActorCritic._updates self' = ActorCritic.int32_wrap (u + 1) /\
    ((- 2 ^ 31 <= u < 2 ^ 31 - 1)%Z ->
     ActorCritic._updates self' = (u + 1)%Z) /\
    ActorCritic.critic_variables self' = critic /\
    ((u mod slow_target_update cfg = 0)%Z ->
     forall i j,
       at2 (ActorCritic.target_variables self') i j =
       mix * at2 critic i j + (1 - mix) * at2 target i j) /\
    (u = 0%Z -> ActorCritic.target_variables self' = critic) /\
    ((u mod slow_target_update cfg <> 0)%Z ->
     ActorCritic.target_variables self' = target) /\
    (u = (2 ^ 31 - 1)%Z -> ActorCritic._updates self' = (- 2 ^ 31)%Z).
Proof.
  intros cfg u critic target mix Hslow Hk Hshape.
  unfold ActorCritic.update_slow_target. fold cfg u critic target.
  rewrite Hslow. unfold ActorCritic.floormod.
  destruct (decide (slow_target_update cfg = 0%Z)) as [E|_]; [contradiction|].
  simpl. eexists. split; [reflexivity|]. simpl.
  split; [reflexivity|]. split; [|split; [reflexivity|]].
  { intros Hu. apply int32_wrap_id. lia. }
  fold mix.
  assert (Hwrap : u = (2 ^ 31 - 1)%Z ->
                  ActorCritic.int32_wrap (u + 1) = (- 2 ^ 31)%Z)
    by (intros ->; reflexivity).
  destruct (decide ((u mod slow_target_update cfg)%Z = 0%Z)) as [Hdiv|Hdiv].
  - split; [|split; [|split]].
    + intros _ i j. apply assign_zip_at2. exact Hshape.
    + intros Hu. subst mix. rewrite decide_True by exact Hu.
      apply assign_zip_one. exact Hshape.
    + intros Hn. contradiction.
    + exact Hwrap.
  - split; [|split; [|split]].
    + intros Hd. contradiction.
    + intros Hu. exfalso. apply Hdiv. rewrite Hu. apply Zmod_0_l.
    + intros _. reflexivity.
    + exact Hwrap.
Qed.

Lemma update_slow_target_ema_witness :
  exists self',
    ActorCritic.update_slow_target (Demo.ac 0 "dynamics" 0) = Ok self' /\
    ActorCritic.target_variables self' =
      ActorCritic.critic_variables (Demo.ac 0 "dynamics" 0).
Proof.
  assert (Hk : slow_target_update
                 (ActorCritic.config (Demo.ac 0 "dynamics" 0)) <> 0%Z)
    by discriminate.
  assert (Hshape : Forall2 (fun s d : list Qc => length s = length d)
            (ActorCritic.critic_variables (Demo.ac 0 "dynamics" 0))
            (ActorCritic.target_variables (Demo.ac 0 "dynamics" 0)))
    by (repeat constructor).
  destruct (update_slow_target_ema (Demo.ac 0 "dynamics" 0)
              eq_refl Hk Hshape)
    as (self' & Hrun & _ & _ & _ & _ & Hcopy & _).
  exists self'. split; [exact Hrun|]. apply Hcopy. reflexivity.
Defined.

(** A later update at the cadence: counter 100, fraction 1/2. *)
Example update_slow_target_soft :
  (ActorCritic.update_slow_target (Demo.ac 0 "dynamics" 100))
    ≫= (fun s => Ok (ActorCritic.target_variables s, ActorCritic._updates s))
  = Ok ([[Qc_of_Z 7; Qc_of_Z 3]; [Qc_of_Z 2]], 101%Z).
Proof. vm_compute. do 2 f_equal. qc_compute. Qed.

(** ** Errors of [ActorCritic.actor_loss] *)

Lemma actor_objective_error (self : ActorCritic.t) (seq : WorldModel.Seq)
    (target : Seq2) (policy : SeqPolicy) (tfstep : nat) :
  let grad := actor_grad (ActorCritic.config self) in
  (grad <> "dynamics" /\ grad <> "reinforce" /\ grad <> "both" ->
   ActorCritic.actor_objective self seq target policy tfstep =
   Raise (NotImplementedError grad)) /\
  (grad = "dynamics" \/ grad = "reinforce" \/ grad = "both" ->
   exists om,
     ActorCritic.actor_objective self seq target policy tfstep = Ok om).
Proof.
  intros grad. unfold ActorCritic.actor_objective. fold grad.
  destruct (decide (grad = "dynamics")) as [E1|N1];
    [split; [tauto|eauto]|].
  destruct (decide (grad = "reinforce")) as [E2|N2];
    [split; [tauto|eauto]|].
  destruct (decide (grad = "both")) as [E3|N3];
    [split; [tauto|eauto]|].
  split; [reflexivity|]. intros [?|[?|?]]; contradiction.
Qed.

(** C6. [actor_loss] raises [NotImplementedError(config.actor_grad)]
    exactly when [config.actor_grad] is none of ["dynamics"],
    ["reinforce"], ["both"]; it raises nothing else, and
    [ActorCritic.train] passes the error on. *)
Theorem actor_loss_not_implemented
    (self : ActorCritic.t) (seq : WorldModel.Seq) (target : Seq2)
    (tfstep : nat) :
  let grad := actor_grad (ActorCritic.config self) in
  ((exists e, ActorCritic.actor_loss self seq target tfstep = Raise e) <->
   grad <> "dynamics" /\ grad <> "reinforce" /\ grad <> "both") /\
  (forall e, ActorCritic.actor_loss self seq target tfstep = Raise e ->
             e = NotImplementedError grad) /\
  (forall world_model start is_terminal reward_fn seeds e,
     ActorCritic.imagined self world_model start is_terminal reward_fn
       seeds tfstep (ActorCritic.actor self) = Raise e ->
     ActorCritic.train self world_model start is_terminal reward_fn
       seeds tfstep = Raise e) /\
  (forall world_model start is_terminal reward_fn seeds,
     grad <> "dynamics" /\ grad <> "reinforce" /\ grad <> "both" ->
     forall e,
       ActorCritic.train self world_model start is_terminal reward_fn
         seeds tfstep = Raise e ->
       e = NotImplementedError grad \/ e = IndexError EmptyString).
Proof.
  intros grad.
  set (policy := actor_seq (ActorCritic.actor self)
         (stop_gradient (drop_last 2 (WorldModel.seq_feat seq)))).
  destruct (actor_objective_error self seq target policy tfstep)
    as [Hbad Hgood]. fold grad in Hbad, Hgood.
  assert (Hcases : (grad <> "dynamics" /\ grad <> "reinforce" /\
                    grad <> "both") \/
                   (grad = "dynamics" \/ grad = "reinforce" \/ grad = "both")).
  { destruct (decide (grad = "dynamics")); [tauto|].
    destruct (decide (grad = "reinforce")); [tauto|].
    destruct (decide (grad = "both")); tauto. }
  assert (Hloss_bad : grad <> "dynamics" /\ grad <> "reinforce" /\
                      grad <> "both" ->
            forall s t, ActorCritic.actor_loss self s t tfstep
                        = Raise (NotImplementedError grad)).
  { intros Hb s t. unfold ActorCritic.actor_loss.
    destruct (actor_objective_error self s t
                (actor_seq (ActorCritic.actor self)
                   (stop_gradient (drop_last 2 (WorldModel.seq_feat s))))
                tfstep) as [Hb' _].
    fold grad in Hb'. rewrite (Hb' Hb). reflexivity. }
  assert (Hloss_good : grad = "dynamics" \/ grad = "reinforce" \/
                       grad = "both" ->
            exists r, ActorCritic.actor_loss self seq target tfstep = Ok r).
  { intros Hg. destruct (Hgood Hg) as [om Hom].
    unfold ActorCritic.actor_loss. fold policy. rewrite Hom.
    eexists. reflexivity. }
  split; [|split; [|split]].
  - split.
    + intros [e He]. destruct Hcases as [Hb|Hg]; [exact Hb|].
      destruct (Hloss_good Hg) as [r Hr]. congruence.
    + intros Hb. eexists. apply Hloss_bad. exact Hb.
  - intros e He. destruct Hcases as [Hb|Hg].
    + rewrite (Hloss_bad Hb) in He. congruence.
    + destruct (Hloss_good Hg) as [r Hr]. congruence.
  - intros world_model start is_terminal reward_fn seeds e He.
    unfold ActorCritic.train. rewrite He. reflexivity.
  - intros world_model start is_terminal reward_fn seeds Hb e.
    unfold ActorCritic.train, ActorCritic.imagined.
    destruct (ActorCritic.target _ _) as [tm|e'] eqn:Htarget.
    + cbn [mbind result_bind].
      unfold ActorCritic.actor_loss.
      match goal with
      | |- context [ActorCritic.actor_objective ?s ?q ?t ?p ?n] =>
          destruct (actor_objective_error s q t p n) as [Hb' _]
      end.
      cbn [ActorCritic.config ActorCritic.with_actor] in Hb'.
      fold grad in Hb'. rewrite (Hb' Hb). cbn [mbind result_bind].
      intros [= <-]. left. reflexivity.
    + cbn [mbind result_bind]. intros [= <-].
      revert Htarget. unfold ActorCritic.target, ActorCritic.with_reward.
      cbn [WorldModel.seq_reward mbind result_bind].
      unfold ActorCritic.last_item.
      destruct (d_mode _) as [|v0 vs]; cbn [mbind result_bind];
        [intros [= <-]; right; reflexivity | discriminate].
Qed.

(** ** Assertions of [WorldModel] *)

Lemma assert_grad_heads_ok (keys names : list string) :
  WorldModel.assert_grad_heads keys names = Ok tt <->
  forall name, name ∈ names -> name ∈ keys.
Proof.
  induction names as [|n names IH]; simpl.
  - split; [|reflexivity]. intros _ name Hin. inversion Hin.
  - destruct (decide (n ∈ keys)) as [Hn|Hn].
    + rewrite IH. split.
      * intros Hall name Hin. apply elem_of_cons in Hin as [->|Hin]; auto.
      * intros Hall name Hin. apply Hall. apply elem_of_cons. auto.
    + split; [discriminate|]. intros Hall. exfalso. apply Hn, Hall.
      apply elem_of_cons. auto.
Qed.

Lemma assert_grad_heads_raise (keys names : list string) (e : Error) :
  WorldModel.assert_grad_heads keys names = Raise e ->
  exists name, e = AssertionError name /\ name ∈ names /\ name ∉ keys.
Proof.
  induction names as [|n names IH]; simpl; [discriminate|].
  destruct (decide (n ∈ keys)) as [Hn|Hn].
  - intros He. destruct (IH He) as (name & -> & Hin & Hout).
    exists name. repeat split; [apply elem_of_cons; auto|exact Hout].
  - intros [= <-]. exists n. repeat split; [apply elem_of_cons; auto|exact Hn].
Qed.

Lemma init_cases (config : Config) (built : WorldModel.Built) (iso : Qc) :
  match WorldModel.assert_grad_heads (registered_heads config)
                                     (grad_heads config) with
  | Ok _ => exists wm, WorldModel.__init__ config built iso = Ok wm
  | Raise e => WorldModel.__init__ config built iso = Raise e
  end.
Proof.
  unfold WorldModel.__init__, registered_heads, WorldModel.heads_keys.
  cbn [WorldModel.head_discount].
  destruct (pred_discount config);
    destruct (WorldModel.assert_grad_heads _ _); cbn [mbind result_bind];
    eauto.
Qed.

Lemma preprocess_raise tf_tanh (self : WorldModel.t)
    (data : gmap string NDArray) (e : Error) :
  WorldModel.preprocess tf_tanh self data = Raise e ->
  exists key, e = KeyError key.
Proof.
  rewrite preprocess_unfold. unfold WorldModel.clip_fn.
  repeat case_decide; try discriminate;
    repeat (case_match; try discriminate);
    intros [= <-]; eauto.
Qed.

Lemma add_like_no_assert (data : gmap string NDArray)
    (dists : list (string * Dist))
    (acc : result (gmap string Seq2 * gmap string Qc)) :
  (forall msg, acc <> Raise (AssertionError msg)) ->
  forall msg,
    fold_left (WorldModel.add_like data) dists acc
    <> Raise (AssertionError msg).
Proof.
  revert acc. induction dists as [|kd dists IH]; intros acc Hacc msg.
  - apply Hacc.
  - simpl. apply IH. intros msg'. unfold WorldModel.add_like.
    destruct acc as [terms|e]; cbn [mbind result_bind].
    + unfold getitem. destruct (data !! kd.1); cbn [mbind result_bind];
        discriminate.
    + apply Hacc.
Qed.

Lemma head_terms_no_assert (self : WorldModel.t)
    (data : gmap string NDArray) (feat : list (list Feat)) (kl : Qc)
    (msg : string) :
  head_terms self data feat kl <> Raise (AssertionError msg).
Proof.
  unfold head_terms.
  generalize (WorldModel.heads_items (WorldModel.heads self)).
  assert (H0 : forall msg', @Ok (gmap string Seq2 * gmap string Qc)
                              (∅, {["kl" := kl]})
                            <> Raise (AssertionError msg'))
    by discriminate.
  revert H0. generalize (@Ok (gmap string Seq2 * gmap string Qc)
                           (∅, {["kl" := kl]})).
  intros acc Hacc items. revert acc Hacc msg.
  induction items as [|item items IH]; intros acc Hacc msg.
  - apply Hacc.
  - simpl. apply IH. intros msg'. unfold WorldModel.add_head.
    apply add_like_no_assert. exact Hacc.
Qed.

(** The cases of [loss]: the errors in the order in which they arise, and
    the total of the returned losses. *)
Lemma loss_cases tf_tanh (self : WorldModel.t) (data : gmap string NDArray)
    (state : option (list Latent)) (draws : WorldModel.Draws) :
  let r := WorldModel.loss tf_tanh self data state draws in
  match WorldModel.preprocess tf_tanh self data with
  | Raise e => r = Raise e
  | Ok data' =>
      match data' !! "action", data' !! "is_first" with
      | None, _ => r = Raise (KeyError "action")
      | Some _, None => r = Raise (KeyError "is_first")
      | Some action, Some is_first =>
          let kl := observed_kl self data' action is_first state in
          let feat := observed_feat self data' action is_first state in
          if decide (length (nd_shape kl) = 0%nat) then
            match head_terms self data' feat (WorldModel.scalar kl) with
            | Raise e => r = Raise e
            | Ok terms =>
                match WorldModel.relaxed_distortion_measure
                        (WorldModel.head_decoder (WorldModel.heads self))
                        feat (Q2Qc (2 # 10)) draws with
                | Raise e => r = Raise e
                | Ok measure =>
                    let iso := WorldModel.iso_reg self * measure in
                    exists last_state outs metrics,
                      r = Ok (WorldModel.scaled_sum
                                (loss_scales (WorldModel.config self))
                                (<["iso" := iso]> terms.2),
                              last_state, outs, metrics) /\
                      WorldModel.out_iso outs = iso /\
                      WorldModel.out_feat outs = feat
                end
            end
          else r = Raise (AssertionError EmptyString)
      end
  end.
Proof.
  intros r. subst r. unfold WorldModel.loss.
  destruct (WorldModel.preprocess tf_tanh self data) as [data'|e];
    [|reflexivity].
  cbn [mbind result_bind]. unfold getitem.
  destruct (data' !! "action") as [action|]; [|reflexivity].
  cbn [mbind result_bind].
  destruct (data' !! "is_first") as [is_first|]; [|reflexivity].
  cbn [mbind result_bind].
  fold (observed self data' action is_first state).
  fold (observed_kl self data' action is_first state).
  fold (observed_feat self data' action is_first state).
  cbv zeta.
  destruct (decide (length (nd_shape
              (observed_kl self data' action is_first state)) = 0%nat))
    as [Hrank|Hrank].
  - rewrite bool_decide_eq_true_2 by exact Hrank. cbn [negb].
    fold (head_terms self data'
            (observed_feat self data' action is_first state)
            (WorldModel.scalar
               (observed_kl self data' action is_first state))).
    destruct (head_terms _ _ _ _) as [terms|e]; [|reflexivity].
    cbn [mbind result_bind].
    destruct (WorldModel.relaxed_distortion_measure _ _ _ _)
      as [measure|e]; [|reflexivity].
    cbn [mbind result_bind]. do 3 eexists.
    split; [reflexivity|]. split; reflexivity.
  - rewrite bool_decide_eq_false_2 by exact Hrank. reflexivity.
Qed.

(** [relaxed_distortion_measure] fails only on an empty sample, with a
    [ZeroDivisionError]. *)
Lemma relaxed_distortion_measure_raise (func : Decoder)
    (feat : list (list Feat)) (eta : Qc) (draws : WorldModel.Draws)
    (e : Error) :
  WorldModel.relaxed_distortion_measure func feat eta draws = Raise e ->
  e = ZeroDivisionError "integer division or modulo by zero" /\
  WorldModel.sample_batch draws (concat feat) 400 = [].
Proof.
  unfold WorldModel.relaxed_distortion_measure. cbv zeta.
  destruct (decide _) as [E|N]; [|discriminate].
  intros [= <-]. split; [reflexivity|].
  apply length_zero_iff_nil. exact E.
Qed.

(** C7. [WorldModel.__init__] fails, with an [AssertionError] naming the
    head, exactly when some name of [config.grad_heads] is not a key of
    [self.heads]; [WorldModel.loss] fails with an [AssertionError] exactly
    when it gets as far as the KL loss and that is not of rank 0; and
    [WorldModel.train] passes every error of [loss] on. *)
Theorem world_model_assertions
    (config : Config) (built : WorldModel.Built) (iso : Qc)
    (tf_tanh : Qc -> Qc) (self : WorldModel.t) (data : gmap string NDArray)
    (state : option (list Latent)) (draws : WorldModel.Draws) :
  ((exists name,
      WorldModel.__init__ config built iso = Raise (AssertionError name)) <->
   (exists name, name ∈ grad_heads config /\
                 name ∉ registered_heads config)) /\
  (forall e, WorldModel.__init__ config built iso = Raise e ->
             exists name, e = AssertionError name /\
                          name ∈ grad_heads config /\
                          name ∉ registered_heads config) /\
  (forall msg,
     WorldModel.loss tf_tanh self data state draws
       = Raise (AssertionError msg) <->
     msg = EmptyString /\
     exists data' action is_first,
       WorldModel.preprocess tf_tanh self data = Ok data' /\
       data' !! "action" = Some action /\
       data' !! "is_first" = Some is_first /\
       length (nd_shape (observed_kl self data' action is_first state))
         <> 0%nat) /\
  (forall e, WorldModel.loss tf_tanh self data state draws = Raise e ->
             WorldModel.train tf_tanh self data state draws = Raise e).
Proof.
  assert (Hraise : forall e,
            WorldModel.__init__ config built iso = Raise e ->
            exists name, e = AssertionError name /\
                         name ∈ grad_heads config /\
                         name ∉ registered_heads config).
  { intros e He. pose proof (init_cases config built iso) as Hinit.
    destruct (WorldModel.assert_grad_heads _ _) as [[]|e'] eqn:Ha.
    - destruct Hinit as [wm Hwm]. congruence.
    - rewrite Hinit in He. injection He as <-.
      apply assert_grad_heads_raise in Ha. exact Ha. }
  split; [|split; [exact Hraise|split]].
  - split.
    + intros [name Hname]. destruct (Hraise _ Hname) as (n & _ & Hin & Hout).
      eauto.
    + intros (name & Hin & Hout).
      pose proof (init_cases config built iso) as Hinit.
      destruct (WorldModel.assert_grad_heads _ _) as [[]|e'] eqn:Ha.
      * exfalso. apply Hout.
        apply (proj1 (assert_grad_heads_ok _ _) Ha). exact Hin.
      * destruct (assert_grad_heads_raise _ _ _ Ha) as (n & -> & _).
        eauto.
  - intros msg. pose proof (loss_cases tf_tanh self data state draws) as Hl.
    cbv zeta in Hl. split.
    + intros Hmsg.
      destruct (WorldModel.preprocess tf_tanh self data) as [data'|e] eqn:Hpre.
      * destruct (data' !! "action") as [action|] eqn:Hact;
          [|congruence].
        destruct (data' !! "is_first") as [is_first|] eqn:Hfirst;
          [|congruence].
        destruct (decide _) as [Hrank|Hrank].
        -- destruct (head_terms _ _ _ _) as [terms|e] eqn:Hterms.
           ++ destruct (WorldModel.relaxed_distortion_measure _ _ _ _)
                as [measure|e] eqn:Hiso.
              ** destruct Hl as (? & ? & ? & Hl & _). congruence.
              ** exfalso. rewrite Hl in Hmsg. injection Hmsg as ->.
                 apply relaxed_distortion_measure_raise in Hiso as [Hiso _].
                 discriminate.
           ++ exfalso. rewrite Hl in Hmsg. injection Hmsg as ->.
              exact (head_terms_no_assert _ _ _ _ _ Hterms).
        -- rewrite Hl in Hmsg. injection Hmsg as <-.
           split; [reflexivity|]. exists data', action, is_first. auto.
      * rewrite Hl in Hmsg. injection Hmsg as ->.
        apply preprocess_raise in Hpre as [key Hkey]. discriminate.
    + intros (-> & data' & action & is_first & Hpre & Hact & Hfirst & Hrank).
      rewrite Hpre, Hact, Hfirst in Hl.
      destruct (decide _) as [Hrank'|_]; [contradiction|]. exact Hl.
  - intros e He. unfold WorldModel.train. rewrite He. reflexivity.
Qed.

(** ** Sums over indices *)

Lemma reduce_sum_map_lookup {A} (d : A) (f : A -> Qc) (l : list A) :
  reduce_sum (map f l) =
  big_sum (length l) (fun i => f (default d (l !! i))).
Proof.
  unfold big_sum. induction l as [|x l IH].
  - reflexivity.
  - cbn [length seq map]. rewrite map_seq_S.
    change (reduce_sum (?a :: ?r)) with (a + reduce_sum r).
    rewrite IH. reflexivity.
Qed.

Lemma reduce_sum_get (l : list Qc) :
  reduce_sum l = big_sum (length l) (get l).
Proof.
  rewrite <- (map_id l) at 1. apply (reduce_sum_map_lookup 0 id l).
Qed.

Lemma big_sum_ext (n : nat) (f g : nat -> Qc) :
  (forall i, (i < n)%nat -> f i = g i) -> big_sum n f = big_sum n g.
Proof.
  intros H. unfold big_sum. f_equal. apply map_ext_in.
  intros i Hi. apply in_seq in Hi. apply H. lia.
Qed.

Lemma map_seq_lookup {A B} (d : A) (g : A -> B) (l : list A) :
  map g l = map (fun i => g (default d (l !! i))) (seq 0 (length l)).
Proof.
  induction l as [|x l IH].
  - reflexivity.
  - cbn [length seq map]. rewrite map_seq_S. f_equal. exact IH.
Qed.

Lemma zip_with_ext_lookup {A B C} (f g : A -> B -> C)
    (l : list A) (k : list B) :
  (forall i x y, l !! i = Some x -> k !! i = Some y -> f x y = g x y) ->
  zip_with f l k = zip_with g l k.
Proof.
  revert k. induction l as [|x l IH]; intros [|y k] H; try reflexivity.
  simpl. f_equal.
  - apply (H 0%nat); reflexivity.
  - apply IH. intros i x' y' Hx Hy. apply (H (S i)); assumption.
Qed.

(** ** The relaxed distortion measure *)

Lemma dot_big_sum (F : nat) (row v : list Qc) :
  length row = F -> length v = F ->
  WorldModel.dot row v = big_sum F (fun j => get row j * get v j).
Proof.
  intros Hrow Hv. unfold WorldModel.dot.
  rewrite reduce_sum_get.
  rewrite length_zip_with, Hrow, Hv, Nat.min_id.
  apply big_sum_ext. intros j Hj.
  change (zip_with Qcmult row v) with (rmul row v).
  apply get_rmul. congruence.
Qed.

Lemma matvec_row (obs_dim F : nat) (J : list (list Qc)) (v : list Qc) :
  has_shape obs_dim F J -> length v = F ->
  map (fun row => WorldModel.dot row v) J = jvp obs_dim F J v.
Proof.
  intros [Hlen Hrows] Hv. unfold jvp.
  rewrite (map_seq_lookup [] (fun row => WorldModel.dot row v) J), Hlen.
  apply map_ext_in. intros i Hi. apply in_seq in Hi.
  destruct (lookup_lt_length_Some J i) as [row Hrow]; [lia|].
  rewrite Hrow. cbn [default from_option id].
  rewrite (dot_big_sum F); [|exact (proj1 (Forall_lookup _ _) Hrows i row Hrow)|exact Hv].
  apply big_sum_ext. intros j _. rewrite at2_get, Hrow. reflexivity.
Qed.

Lemma matvec_transposed_row (obs_dim F : nat) (J : list (list Qc))
    (u : list Qc) :
  has_shape obs_dim F J -> (1 <= obs_dim)%nat -> length u = obs_dim ->
  map (fun row => WorldModel.dot row u)
      (map (fun j => map (fun row => nth j row 0) J)
           (seq 0 (length (hd [] J))))
  = vjp obs_dim F J u.
Proof.
  intros [Hlen Hrows] Hpos Hu. unfold vjp.
  assert (HF : length (hd [] J) = F).
  { destruct J as [|r J]; [simpl in Hlen; lia|]. exact (Forall_inv Hrows). }
  rewrite HF, map_map. apply map_ext. intros j.
  rewrite (dot_big_sum obs_dim); [|rewrite length_map; exact Hlen|exact Hu].
  apply big_sum_ext. intros i _. f_equal.
  rewrite at2_get. unfold get at 1. rewrite lookup_map.
  destruct (J !! i) as [row|]; cbn [fmap option_fmap option_map default from_option id].
  - rewrite nth_lookup. reflexivity.
  - reflexivity.
Qed.

Lemma mean_sum_sq_norm (x : list (list Qc)) :
  WorldModel.mean_sum_sq x = mean_sq_norm x.
Proof.
  unfold WorldModel.mean_sum_sq, mean_sq_norm, reduce_mean.
  rewrite length_map. f_equal.
  rewrite (reduce_sum_map_lookup []). apply big_sum_ext. intros b _.
  unfold sq_norm. rewrite (reduce_sum_map_lookup 0).
  apply big_sum_ext. intros i _. unfold get. simpl. ring.
Qed.

Example relaxed_distortion_measure_example :
  WorldModel.relaxed_distortion_measure Demo.decoder_iso
    [replicate 400 [1; Qc_of_Z 2]] (Q2Qc (2 # 10)) Demo.draws
  = Ok (Qc_of_Z 9).
Proof. vm_compute. f_equal. apply Qc_is_canon. reflexivity. Qed.

(** Three feature rows: the sample is empty. *)
Example relaxed_distortion_measure_small :
  WorldModel.relaxed_distortion_measure Demo.decoder_iso
    [replicate 3 [1; Qc_of_Z 2]] (Q2Qc (2 # 10)) Demo.draws
  = Raise (ZeroDivisionError "integer division or modulo by zero").
Proof. reflexivity. Qed.

Example model_loss_example :
  model_loss id Demo.wm_iso Demo.batch None Demo.draws
  = Ok (Q2Qc (48 # 10)).
Proof. vm_compute. f_equal. apply Qc_is_canon. reflexivity. Qed.

Lemma scaled_sum_insert (scales losses : gmap string Qc) (k : string)
    (v : Qc) :
  WorldModel.scaled_sum scales (<[k := v]> losses) =
  default 1 (scales !! k) * v
  + WorldModel.scaled_sum scales (delete k losses).
Proof.
  unfold WorldModel.scaled_sum. rewrite <- insert_delete_eq.
  rewrite map_fold_insert_L.
  - reflexivity.
  - intros. ring.
  - apply lookup_delete_eq.
Qed.

(** The value of [relaxed_distortion_measure] through the index-wise
    products. *)
Lemma relaxed_distortion_measure_terms (func : Decoder)
    (feat : list (list Feat)) (eta : Qc) (draws : WorldModel.Draws)
    (obs_dim F : nat) :
  let J := estim_obs_jacobian func (perturbed_features feat eta draws) in
  let v := direction feat draws in
  WorldModel.sample_batch draws (concat feat) 400 <> [] ->
  Forall (has_shape obs_dim F) J ->
  Forall (fun vb => length vb = F) v ->
  (1 <= obs_dim)%nat ->
  let term1 := mean_sq_norm (zip_with (jvp obs_dim F) J v) in
  let term2 :=
    mean_sq_norm (zip_with (vjp obs_dim F) J
                           (zip_with (jvp obs_dim F) J v)) in
  WorldModel.relaxed_distortion_measure func feat eta draws =
  Ok (term2 - Qc_of_Z 2 * term1 + Qc_of_Z 2).
Proof.
  intros J v Hne HJ Hv Hpos term1 term2.
  assert (Hrdm :
    WorldModel.relaxed_distortion_measure func feat eta draws =
    Ok (WorldModel.mean_sum_sq
          (WorldModel.matvec (WorldModel.transpose021 J)
                             (WorldModel.matvec J v))
        - Qc_of_Z 2 * WorldModel.mean_sum_sq (WorldModel.matvec J v)
        + Qc_of_Z 2)).
  { unfold WorldModel.relaxed_distortion_measure. cbv zeta.
    destruct (decide _) as [E|_]; [|reflexivity].
    exfalso. apply Hne. apply length_zero_iff_nil. exact E. }
  assert (Hjv : WorldModel.matvec J v = zip_with (jvp obs_dim F) J v).
  { unfold WorldModel.matvec. apply zip_with_ext_lookup.
    intros b Jb vb HJb Hvb. apply matvec_row.
    - exact (proj1 (Forall_lookup _ _) HJ b Jb HJb).
    - exact (proj1 (Forall_lookup _ _) Hv b vb Hvb). }
  assert (Hjtjv :
    WorldModel.matvec (WorldModel.transpose021 J)
                      (zip_with (jvp obs_dim F) J v)
    = zip_with (vjp obs_dim F) J (zip_with (jvp obs_dim F) J v)).
  { unfold WorldModel.matvec, WorldModel.transpose021.
    change (map ?g J) with (g <$> J). rewrite zip_with_fmap_l.
    apply zip_with_ext_lookup. intros b Jb ub HJb Hub.
    apply matvec_transposed_row.
    - exact (proj1 (Forall_lookup _ _) HJ b Jb HJb).
    - exact Hpos.
    - apply lookup_zip_with_Some in Hub as (Jb' & vb & -> & _ & _).
      unfold jvp. rewrite length_map, length_seq. reflexivity. }
  rewrite Hrdm, Hjv, Hjtjv, !mean_sum_sq_norm. reflexivity.
Qed.

(** The total loss of [loss]: the distortion measure enters with the
    coefficient [loss_scales.get('iso', 1.0) * iso_reg]. *)
Lemma model_loss_total tf_tanh (self : WorldModel.t)
    (data : gmap string NDArray) (state : option (list Latent))
    (draws : WorldModel.Draws) :
  model_loss tf_tanh self data state draws =
  expected_total
    (default 1 (loss_scales (WorldModel.config self) !! "iso")
     * WorldModel.iso_reg self)
    tf_tanh self data state draws.
Proof.
  unfold model_loss, expected_total.
  pose proof (loss_cases tf_tanh self data state draws) as Hl.
  cbv zeta in Hl.
  destruct (WorldModel.preprocess tf_tanh self data) as [data'|e];
    [|rewrite Hl; reflexivity].
  cbn [mbind result_bind]. unfold getitem.
  destruct (data' !! "action") as [action|]; [|rewrite Hl; reflexivity].
  destruct (data' !! "is_first") as [is_first|]; [|rewrite Hl; reflexivity].
  cbn [mbind result_bind].
  destruct (decide _) as [Hrank|Hrank]; [|rewrite Hl; reflexivity].
  destruct (head_terms _ _ _ _) as [terms|e]; [|rewrite Hl; reflexivity].
  cbn [mbind result_bind].
  destruct (WorldModel.relaxed_distortion_measure _ _ _ _) as [measure|e];
    [|rewrite Hl; reflexivity].
  destruct Hl as (last_state & outs & metrics & Hl & _ & _).
  rewrite Hl. cbn [mbind result_bind fst]. f_equal.
  rewrite scaled_sum_insert. ring.
Qed.

(** C8, as amended. On a non-empty sample of the features
    [relaxed_distortion_measure] returns
    [term2 - 2*term1 + 2], where [term1] is the mean over the batch of
    [|J v|^2] and [term2] the mean of [|J^T (J v)|^2], for the batch
    Jacobian [J] of the decoder at the perturbed features; on an empty
    sample it raises [ZeroDivisionError]. [loss] adds the
    measure to the total with the coefficient
    [loss_scales.get('iso', 1.0) * iso_reg], which is [iso_reg] when
    [loss_scales] has no entry ['iso']. *)
Theorem loss_isometric_term
    (tf_tanh : Qc -> Qc) (self : WorldModel.t) (data : gmap string NDArray)
    (state : option (list Latent)) (draws : WorldModel.Draws)
    (feat : list (list Feat)) (obs_dim F : nat) :
  let func := WorldModel.head_decoder (WorldModel.heads self) in
  let eta := Q2Qc (2 # 10) in
  let J := estim_obs_jacobian func (perturbed_features feat eta draws) in
  let v := direction feat draws in
  WorldModel.sample_batch draws (concat feat) 400 <> [] ->
  Forall (has_shape obs_dim F) J ->
  Forall (fun vb => length vb = F) v ->
  (1 <= obs_dim)%nat ->
  let term1 := mean_sq_norm (zip_with (jvp obs_dim F) J v) in
  let term2 :=
    mean_sq_norm (zip_with (vjp obs_dim F) J
                           (zip_with (jvp obs_dim F) J v)) in
  WorldModel.relaxed_distortion_measure func feat eta draws =
    Ok (term2 - Qc_of_Z 2 * term1 + Qc_of_Z 2) /\
  (forall feat',
     WorldModel.sample_batch draws (concat feat') 400 = [] ->
     WorldModel.relaxed_distortion_measure func feat' eta draws =
     Raise (ZeroDivisionError "integer division or modulo by zero")) /\
  model_loss tf_tanh self data state draws =
    expected_total
      (default 1 (loss_scales (WorldModel.config self) !! "iso")
       * WorldModel.iso_reg self)
      tf_tanh self data state draws /\
  (loss_scales (WorldModel.config self) !! "iso" = None ->
   model_loss tf_tanh self data state draws =
   expected_total (WorldModel.iso_reg self) tf_tanh self data state draws).
Proof.
  intros func eta J v Hne HJ Hv Hpos term1 term2. split; [|split; [|split]].
  - apply relaxed_distortion_measure_terms; assumption.
  - intros feat' Hnil. unfold WorldModel.relaxed_distortion_measure.
    cbv zeta. rewrite Hnil. reflexivity.
  - apply model_loss_total.
  - intros Hnone. rewrite model_loss_total, Hnone. cbn [default from_option id].
    rewrite Qcmult_1_l. reflexivity.
Qed.

Lemma loss_isometric_term_witness :
  Forall (has_shape 2 2)
    (estim_obs_jacobian Demo.decoder_iso
       (perturbed_features [replicate 400 [1; Qc_of_Z 2]] (Q2Qc (2 # 10))
                           Demo.draws)) /\
  WorldModel.relaxed_distortion_measure Demo.decoder_iso
    [replicate 400 [1; Qc_of_Z 2]] (Q2Qc (2 # 10)) Demo.draws
  = Ok (mean_sq_norm
      (zip_with (vjp 2 2)
         (estim_obs_jacobian Demo.decoder_iso
            (perturbed_features [replicate 400 [1; Qc_of_Z 2]]
                                (Q2Qc (2 # 10)) Demo.draws))
         (zip_with (jvp 2 2)
            (estim_obs_jacobian Demo.decoder_iso
               (perturbed_features [replicate 400 [1; Qc_of_Z 2]]
                                   (Q2Qc (2 # 10)) Demo.draws))
            (direction [replicate 400 [1; Qc_of_Z 2]] Demo.draws)))
    - Qc_of_Z 2
      * mean_sq_norm
          (zip_with (jvp 2 2)
             (estim_obs_jacobian Demo.decoder_iso
                (perturbed_features [replicate 400 [1; Qc_of_Z 2]]
                                    (Q2Qc (2 # 10)) Demo.draws))
             (direction [replicate 400 [1; Qc_of_Z 2]] Demo.draws))
    + Qc_of_Z 2).
Proof.
  assert (Hne : WorldModel.sample_batch Demo.draws
                  (concat [replicate 400 [1; Qc_of_Z 2]]) 400 <> [])
    by (vm_compute; discriminate).
  assert (HJ : Forall (has_shape 2 2)
    (estim_obs_jacobian Demo.decoder_iso
       (perturbed_features [replicate 400 [1; Qc_of_Z 2]] (Q2Qc (2 # 10))
                           Demo.draws))).
  { vm_compute. repeat constructor. }
  assert (Hv : Forall (fun vb : list Qc => length vb = 2%nat)
                 (direction [replicate 400 [1; Qc_of_Z 2]] Demo.draws)).
  { vm_compute. repeat constructor. }
  split; [exact HJ|].
  apply (loss_isometric_term id Demo.wm_iso Demo.batch None
           Demo.draws [replicate 400 [1; Qc_of_Z 2]] 2 2 Hne HJ Hv).
  lia.
Defined.

(** C8, as stated, fails: with [loss_scales = {'iso': 2}] the total is
    4.8, and not the 3.9 that the coefficient [iso_reg] alone gives. *)
Lemma loss_iso_reg_only_counterexample :
  model_loss id Demo.wm_iso Demo.batch None Demo.draws
    = Ok (Q2Qc (48 # 10)) /\
  expected_total (WorldModel.iso_reg Demo.wm_iso) id Demo.wm_iso
                 Demo.batch None Demo.draws
    = Ok (Q2Qc (39 # 10)) /\
  model_loss id Demo.wm_iso Demo.batch None Demo.draws <>
  expected_total (WorldModel.iso_reg Demo.wm_iso) id Demo.wm_iso
                 Demo.batch None Demo.draws.
Proof.
  assert (H1 : model_loss id Demo.wm_iso Demo.batch None Demo.draws
               = Ok (Q2Qc (48 # 10)))
    by (vm_compute; f_equal; apply Qc_is_canon; reflexivity).
  assert (H2 : expected_total (WorldModel.iso_reg Demo.wm_iso) id
                 Demo.wm_iso Demo.batch None Demo.draws
               = Ok (Q2Qc (39 # 10)))
    by (vm_compute; f_equal; apply Qc_is_canon; reflexivity).
  split; [exact H1|]. split; [exact H2|].
  rewrite H1, H2. intros [= H].
Qed.

(** ** [ActorCritic.actor_loss] as a weighted mean *)

Lemma reduce_sum_app (x y : list Qc) :
  reduce_sum (x ++ y) = reduce_sum x + reduce_sum y.
Proof.
  unfold reduce_sum. induction x as [|a x IH]; simpl.
  - ring.
  - rewrite IH. ring.
Qed.

Lemma reduce_sum_concat (x : Seq2) :
  reduce_sum (concat x) = reduce_sum (map reduce_sum x).
Proof.
  induction x as [|r x IH]; [reflexivity|].
  cbn [concat map]. rewrite reduce_sum_app, IH. reflexivity.
Qed.

Lemma length_concat_shape (n B : nat) (x : Seq2) :
  has_shape n B x -> length (concat x) = (n * B)%nat.
Proof.
  intros [Hlen Hrows]. subst n.
  induction Hrows as [|r x Hr _ IH]; [reflexivity|].
  cbn [concat length]. rewrite length_app, IH, Hr. lia.
Qed.

Lemma mean2_big_sum (n B : nat) (x : Seq2) :
  has_shape n B x ->
  mean2 x = big_sum n (fun t => big_sum B (fun b => at2 x t b))
            / Qc_of_nat (n * B).
Proof.
  intros Hx. unfold mean2, reduce_mean.
  rewrite (length_concat_shape n B x Hx). f_equal.
  destruct Hx as [Hlen Hrows].
  rewrite reduce_sum_concat, (reduce_sum_map_lookup []), Hlen.
  apply big_sum_ext. intros t Ht.
  destruct (lookup_lt_length_Some x t) as [r Hr]; [lia|].
  rewrite Hr. cbn [default from_option id]. rewrite reduce_sum_get. unfold id.
  rewrite (proj1 (Forall_lookup _ _) Hrows t r Hr).
  apply big_sum_ext. intros b _. rewrite at2_get, Hr. reflexivity.
Qed.

Lemma shape_rows (n B : nat) (x y : Seq2) (t : nat) :
  has_shape n B x -> has_shape n B y ->
  length (default [] (x !! t)) = length (default [] (y !! t)).
Proof.
  intros [Hx Hxr] [Hy Hyr].
  destruct (x !! t) as [r|] eqn:Hr.
  - destruct (lookup_lt_length_Some y t) as [r' Hr'].
    { rewrite Hy, <- Hx. apply lookup_lt_is_Some_1. eauto. }
    rewrite Hr'. cbn [default from_option id].
    rewrite (proj1 (Forall_lookup _ _) Hxr t r Hr).
    rewrite (proj1 (Forall_lookup _ _) Hyr t r' Hr'). reflexivity.
  - apply lookup_ge_None_1 in Hr. rewrite Hx, <- Hy in Hr.
    apply lookup_ge_None_2 in Hr. rewrite Hr. reflexivity.
Qed.

Lemma zip_rows {A} (f : list A -> list A -> list A) (x y : list (list A))
    (t : nat) :
  length x = length y -> f [] [] = [] ->
  default [] (zip_with f x y !! t) =
  f (default [] (x !! t)) (default [] (y !! t)).
Proof.
  intros Hlen Hnil. rewrite lookup_zip_with.
  destruct (x !! t) as [r|] eqn:Hr; cbn [mbind option_bind default from_option id].
  - destruct (lookup_lt_length_Some y t) as [r' Hr'].
    { rewrite <- Hlen. apply lookup_lt_is_Some_1. eauto. }
    rewrite Hr'. reflexivity.
  - apply lookup_ge_None_1 in Hr. rewrite Hlen in Hr.
    apply lookup_ge_None_2 in Hr. rewrite Hr. symmetry. exact Hnil.
Qed.

Lemma at2_tmul (n B : nat) (x y : Seq2) (t b : nat) :
  has_shape n B x -> has_shape n B y ->
  at2 (tmul x y) t b = at2 x t b * at2 y t b.
Proof.
  intros Hx Hy. rewrite !at2_get. unfold tmul.
  rewrite zip_rows; [|destruct Hx, Hy; congruence|reflexivity].
  apply get_rmul. exact (shape_rows n B x y t Hx Hy).
Qed.

Lemma at2_tadd (n B : nat) (x y : Seq2) (t b : nat) :
  has_shape n B x -> has_shape n B y ->
  at2 (tadd x y) t b = at2 x t b + at2 y t b.
Proof.
  intros Hx Hy. rewrite !at2_get. unfold tadd.
  rewrite zip_rows; [|destruct Hx, Hy; congruence|reflexivity].
  apply get_radd. exact (shape_rows n B x y t Hx Hy).
Qed.

Lemma at2_tscale (c : Qc) (x : Seq2) (t b : nat) :
  at2 (tscale c x) t b = c * at2 x t b.
Proof.
  rewrite !at2_get. unfold tscale. rewrite lookup_map.
  destruct (x !! t) as [r|]; cbn [fmap option_fmap option_map default from_option id].
  - apply get_rscale.
  - unfold get. simpl. ring.
Qed.

Lemma at2_take (n : nat) (x : Seq2) (t b : nat) :
  (t < n)%nat -> at2 (take n x) t b = at2 x t b.
Proof. intros Ht. unfold at2. rewrite lookup_take_lt by exact Ht. reflexivity. Qed.

Lemma has_shape_take (m n B : nat) (x : Seq2) :
  (m <= n)%nat -> has_shape n B x -> has_shape m B (take m x).
Proof.
  intros Hm [Hlen Hrows]. split.
  - rewrite length_take. lia.
  - apply Forall_take. exact Hrows.
Qed.

Lemma has_shape_zip (f : Qc -> Qc -> Qc) (n B : nat) (x y : Seq2) :
  has_shape n B x -> has_shape n B y ->
  has_shape n B (zip_with (zip_with f) x y).
Proof.
  intros [Hx Hxr] [Hy Hyr]. split.
  - rewrite length_zip_with. lia.
  - apply Forall_lookup. intros t r Hr.
    apply lookup_zip_with_Some in Hr as (r1 & r2 & -> & H1 & H2).
    rewrite length_zip_with.
    rewrite (proj1 (Forall_lookup _ _) Hxr t r1 H1).
    rewrite (proj1 (Forall_lookup _ _) Hyr t r2 H2). lia.
Qed.

Lemma has_shape_tscale (c : Qc) (n B : nat) (x : Seq2) :
  has_shape n B x -> has_shape n B (tscale c x).
Proof.
  intros [Hx Hxr]. split.
  - unfold tscale. rewrite length_map. exact Hx.
  - unfold tscale. apply Forall_map.
    eapply Forall_impl; [|exact Hxr]. intros r Hr. simpl.
    rewrite rscale_length. exact Hr.
Qed.

(** C5. For a sequence of [1 + horizon] steps, [actor_loss] is the
    negative mean, over the first [horizon - 1] steps and the batch, of
    [weight * (objective + ent_scale * entropy)], with the weights of the
    sequence under [stop_gradient]. *)
Theorem actor_loss_weighted_mean
    (self : ActorCritic.t) (seq : WorldModel.Seq) (target : Seq2)
    (tfstep horizon B : nat) (objective : Seq2) (m0 : gmap string Qc) :
  let policy :=
    actor_seq (ActorCritic.actor self)
              (stop_gradient (drop_last 2 (WorldModel.seq_feat seq))) in
  let weight := stop_gradient (WorldModel.seq_weight seq) in
  let ent := entropy policy in
  let ent_scale := schedule (actor_ent (ActorCritic.config self)) tfstep in
  ActorCritic.actor_objective self seq target policy tfstep
    = Ok (objective, m0) ->
  has_shape (1 + horizon) B weight ->
  has_shape (horizon - 1) B objective ->
  has_shape (horizon - 1) B ent ->
  exists metrics,
    ActorCritic.actor_loss self seq target tfstep =
    Ok (- (big_sum (horizon - 1) (fun t =>
             big_sum B (fun b =>
               at2 weight t b
               * (at2 objective t b + ent_scale * at2 ent t b)))
           / Qc_of_nat ((horizon - 1) * B)),
        metrics).
Proof.
  intros policy weight ent ent_scale Hobj Hw Ho He.
  unfold ActorCritic.actor_loss. fold policy. rewrite Hobj.
  cbn [mbind result_bind fst snd]. fold ent ent_scale weight.
  eexists. f_equal. f_equal. f_equal.
  assert (Hdrop : drop_last 2 weight = take (horizon - 1) weight).
  { unfold drop_last. destruct Hw as [Hlen _]. rewrite Hlen. f_equal; lia. }
  rewrite Hdrop.
  assert (Hw' : has_shape (horizon - 1) B (take (horizon - 1) weight))
    by (apply (has_shape_take _ (1 + horizon)); [lia|exact Hw]).
  assert (Hoe : has_shape (horizon - 1) B
                  (tadd objective (tscale ent_scale ent))).
  { apply has_shape_zip; [exact Ho|]. apply has_shape_tscale. exact He. }
  rewrite (mean2_big_sum (horizon - 1) B).
  2:{ apply has_shape_zip; assumption. }
  f_equal. apply big_sum_ext. intros t Ht. apply big_sum_ext. intros b _.
  rewrite (at2_tmul (horizon - 1) B) by assumption.
  rewrite at2_take by exact Ht.
  rewrite (at2_tadd (horizon - 1) B);
    [|exact Ho|apply has_shape_tscale; exact He].
  rewrite at2_tscale. reflexivity.
Qed.

Lemma actor_loss_weighted_mean_witness :
  exists loss metrics,
    ActorCritic.actor_loss
      (Demo.ac (Q2Qc (95 # 100)) "dynamics" 0) Demo.imagined_seq
      [[Qc_of_Z 10; Qc_of_Z 10]; [Qc_of_Z 10; Qc_of_Z 10];
       [Qc_of_Z 10; Qc_of_Z 10]] 0
    = Ok (loss, metrics).
Proof.
  assert (Hw : has_shape (1 + 3) 2
            (stop_gradient (WorldModel.seq_weight Demo.imagined_seq))).
  { split; [vm_compute; reflexivity|vm_compute; repeat constructor]. }
  assert (Ho : has_shape (3 - 1) 2
            [[Qc_of_Z 10; Qc_of_Z 10]; [Qc_of_Z 10; Qc_of_Z 10]]).
  { split; [reflexivity|repeat constructor]. }
  assert (He : has_shape (3 - 1) 2
            (entropy (actor_seq
               (ActorCritic.actor (Demo.ac (Q2Qc (95 # 100)) "dynamics" 0))
               (stop_gradient
                  (drop_last 2 (WorldModel.seq_feat Demo.imagined_seq)))))).
  { split; [vm_compute; reflexivity|vm_compute; repeat constructor]. }
  destruct (actor_loss_weighted_mean
              (Demo.ac (Q2Qc (95 # 100)) "dynamics" 0)
              Demo.imagined_seq
              [[Qc_of_Z 10; Qc_of_Z 10]; [Qc_of_Z 10; Qc_of_Z 10];
               [Qc_of_Z 10; Qc_of_Z 10]] 0 3 2
              [[Qc_of_Z 10; Qc_of_Z 10]; [Qc_of_Z 10; Qc_of_Z 10]] ∅
              eq_refl Hw Ho He)
    as [metrics Hloss].
  eexists. exists metrics. exact Hloss.
Defined.

(** The loss of that call: weights 1 and 0.9, objective 10, entropy bonus
    0.5, so [-(2 * 10.5 + 2 * 0.9 * 10.5) / 4]. *)
Example actor_loss_example :
  (ActorCritic.actor_loss
     (Demo.ac (Q2Qc (95 # 100)) "dynamics" 0) Demo.imagined_seq
     [[Qc_of_Z 10; Qc_of_Z 10]; [Qc_of_Z 10; Qc_of_Z 10];
      [Qc_of_Z 10; Qc_of_Z 10]] 0) ≫= (fun r => Ok r.1)
  = Ok (Q2Qc (-1995 # 200)).
Proof. vm_compute. f_equal. apply Qc_is_canon. reflexivity. Qed.

(** ** Evaluations of the error paths *)

Example actor_loss_auto :
  ActorCritic.actor_loss (Demo.ac 0 "auto" 0) Demo.imagined_seq [] 0
  = Raise (NotImplementedError "auto").
Proof. reflexivity. Qed.

Example init_unknown_head :
  (WorldModel.__init__ (Demo.cfg_heads ["decoder"; "discount"; "value"])
                       Demo.built (Q2Qc (1 # 10)))
    ≫= (fun _ => Ok tt)
  = Raise (AssertionError "discount").
Proof. reflexivity. Qed.

Example loss_rank1 :
  model_loss id Demo.wm_rank1 Demo.batch None Demo.draws
  = Raise (AssertionError EmptyString).
Proof. vm_compute. reflexivity. Qed.

Example loss_missing_action :
  model_loss id Demo.wm_rank1 Demo.obs None Demo.draws
  = Raise (KeyError "action").
Proof. vm_compute. reflexivity. Qed.

(** * Further properties *)

(** ** The loop of [WorldModel.imagine] *)

Lemma rollout_length self policy seeds (n a : nat) (l : list Latent) :
  length (rollout self policy seeds n a l) = n.
Proof.
  revert a l. induction n as [|n IH]; intros a l; simpl; [reflexivity|].
  f_equal. apply IH.
Qed.

Lemma imagine_loop self policy seeds (n a : nat)
    (latents : list (list Latent)) (feats : list (list Feat))
    (actions : list (list Action)) (l : list Latent) (act : list Action) :
  fold_left (WorldModel.imagine_step self policy seeds) (seq a n)
    (latents ++ [l],
     feats ++ [map (get_feat (WorldModel.rssm self)) l],
     actions ++ [act]) =
  ((latents ++ [l]) ++ map fst (rollout self policy seeds n a l),
   (feats ++ [map (get_feat (WorldModel.rssm self)) l])
     ++ map (fun sa => map (get_feat (WorldModel.rssm self)) sa.1)
            (rollout self policy seeds n a l),
   (actions ++ [act]) ++ map snd (rollout self policy seeds n a l)).
Proof.
  revert a latents feats actions l act.
  induction n as [|n IH]; intros a latents feats actions l act.
  - simpl. rewrite !app_nil_r. reflexivity.
  - cbn [seq fold_left rollout map fst snd].
    unfold WorldModel.imagine_step at 2. unfold WorldModel.last_row.
    rewrite !last_last. unfold stop_gradient.
    rewrite IH. rewrite <- !app_assoc. reflexivity.
Qed.

(** X1. The trajectory of [imagine] has [horizon + 1] steps in its states,
    features and actions; step 0 is the flattened start with its features
    and an all-zero action shaped like the policy's mode; and at every
    step the features are [get_feat] of the state. *)
Theorem imagine_trajectory_shape
    (self : WorldModel.t) (policy : Actor) (start : list (list Latent))
    (is_terminal : option NDArray) (horizon : nat) (seeds : nat -> Seed) :
  let s := WorldModel.imagine self policy start is_terminal horizon seeds in
  let feat0 := map (get_feat (WorldModel.rssm self)) (concat start) in
  length (WorldModel.seq_latent s) = S horizon /\
  length (WorldModel.seq_feat s) = S horizon /\
  length (WorldModel.seq_action s) = S horizon /\
  WorldModel.seq_latent s !! 0%nat = Some (concat start) /\
  WorldModel.seq_action s !! 0%nat =
    Some (map (map (fun _ => 0)) (sp_mode (actor_step policy feat0))) /\
  WorldModel.seq_feat s =
    map (map (get_feat (WorldModel.rssm self))) (WorldModel.seq_latent s) /\
  WorldModel.seq_reward s = None.
Proof.
  intros s feat0. subst s feat0. unfold WorldModel.imagine. cbv zeta.
  pose proof (imagine_loop self policy seeds horizon 0 [] [] []
                (concat start)
                (zeros_like (sp_mode (actor_step policy
                   (map (get_feat (WorldModel.rssm self)) (concat start))))))
    as Hloop.
  cbn [app] in Hloop. rewrite Hloop.
  cbn [WorldModel.seq_latent WorldModel.seq_feat WorldModel.seq_action
       WorldModel.seq_reward].
  cbn [app length]. rewrite !length_map, rollout_length.
  repeat split; try reflexivity.
  cbn [map]. f_equal. rewrite map_map. reflexivity.
Qed.

Lemma rollout_step self policy seeds (n : nat) :
  forall (a : nat) (l : list Latent) (act0 : list Action) (t : nat),
    (t < n)%nat ->
    exists state action,
      (l :: map fst (rollout self policy seeds n a l)) !! t = Some state /\
      action =
        sp_sample (actor_step policy
                     (map (get_feat (WorldModel.rssm self)) state))
                  (seeds (a + t)%nat) /\
      (act0 :: map snd (rollout self policy seeds n a l)) !! S t
        = Some action /\
      (l :: map fst (rollout self policy seeds n a l)) !! S t
        = Some (img_step (WorldModel.rssm self) state action).
Proof.
  induction n as [|n IH]; intros a l act0 t Ht; [lia|].
  cbn [rollout map fst snd].
  destruct t as [|t].
  - eexists _, _. split; [reflexivity|]. rewrite Nat.add_0_r.
    split; [reflexivity|]. split; reflexivity.
  - destruct (IH (S a)
      (img_step (WorldModel.rssm self) l
         (sp_sample (actor_step policy
            (map (get_feat (WorldModel.rssm self)) l)) (seeds a)))
      (sp_sample (actor_step policy
         (map (get_feat (WorldModel.rssm self)) l)) (seeds a))
      t ltac:(lia)) as (state & action & H1 & H2 & H3 & H4).
    exists state, action.
    replace (a + S t)%nat with (S a + t)%nat by lia.
    repeat split; assumption.
Qed.

(** X2. The loop of [imagine] is the recursive rollout: state [t+1] is
    [img_step] of state [t] and of the action sampled, with the draw of
    iteration [t], from the policy at the features of state [t]; that
    action is entry [t+1] of the actions. *)
Theorem imagine_rollout
    (self : WorldModel.t) (policy : Actor) (start : list (list Latent))
    (is_terminal : option NDArray) (horizon : nat) (seeds : nat -> Seed) :
  let s := WorldModel.imagine self policy start is_terminal horizon seeds in
  forall t, (t < horizon)%nat ->
    exists state action,
      WorldModel.seq_latent s !! t = Some state /\
      action =
        sp_sample (actor_step policy
                     (map (get_feat (WorldModel.rssm self)) state))
                  (seeds t) /\
      WorldModel.seq_action s !! S t = Some action /\
      WorldModel.seq_latent s !! S t =
        Some (img_step (WorldModel.rssm self) state action).
Proof.
  intros s. subst s. unfold WorldModel.imagine. cbv zeta.
  pose proof (imagine_loop self policy seeds horizon 0 [] [] []
                (concat start)
                (zeros_like (sp_mode (actor_step policy
                   (map (get_feat (WorldModel.rssm self)) (concat start))))))
    as Hloop.
  cbn [app] in Hloop. rewrite Hloop.
  cbn [WorldModel.seq_latent WorldModel.seq_action app].
  intros t Ht.
  exact (rollout_step self policy seeds horizon 0 (concat start) _ t Ht).
Qed.

Lemma imagine_rollout_witness :
  let s := WorldModel.imagine (Demo.wm true) Demo.actor Demo.start None 3
             Demo.seeds in
  exists state action,
    WorldModel.seq_latent s !! 1%nat = Some state /\
    action =
      sp_sample (actor_step Demo.actor
                   (map (get_feat (WorldModel.rssm (Demo.wm true))) state))
                (Demo.seeds 1) /\
    WorldModel.seq_action s !! 2%nat = Some action /\
    WorldModel.seq_latent s !! 2%nat =
      Some (img_step (WorldModel.rssm (Demo.wm true)) state action).
Proof.
  apply (imagine_rollout (Demo.wm true) Demo.actor Demo.start None 3
           Demo.seeds 1).
  lia.
Defined.

(** ** The weights of [imagine] *)

(** The shifted cumulative product, entry by entry, for discounts of
    shape (T, B). *)
Lemma shifted_cumprod_entries (B : nat) (disc : Seq2) :
  Forall (fun r => length r = B) disc ->
  let weight := cumprod (ones_like (take 1 disc) ++ drop_last 1 disc) in
  (forall b, (0 < length disc)%nat -> (b < B)%nat -> at2 weight 0 b = 1) /\
  (forall t b, (S t < length disc)%nat -> (b < B)%nat ->
     at2 weight (S t) b = at2 weight t b * at2 disc t b).
Proof.
  intros Hshape weight. subst weight.
  destruct disc as [|d0 rest].
  { split; intros; simpl in *; lia. }
  assert (Heq : ones_like (take 1 (d0 :: rest)) ++ drop_last 1 (d0 :: rest)
                = map (fun _ : Qc => 1) d0 :: take (length rest) (d0 :: rest)).
  { unfold drop_last. simpl. rewrite Nat.sub_0_r. reflexivity. }
  rewrite Heq. clear Heq.
  set (o := map (fun _ : Qc => 1) d0).
  set (xs := take (length rest) (d0 :: rest)).
  assert (Hlen : length xs = length rest).
  { subst xs. rewrite length_take. simpl. lia. }
  assert (Hd0 : length d0 = B) by exact (Forall_inv Hshape).
  assert (Ho : length o = B) by (subst o; rewrite length_map; exact Hd0).
  assert (Hxs : Forall (fun r => length r = B) xs).
  { subst xs. apply Forall_take. exact Hshape. }
  pose proof (cumprod_shape B xs o Ho Hxs) as Hws.
  split.
  - intros b _ Hb. apply (at2_lookup _ 0 b o); [reflexivity|].
    subst o. rewrite lookup_map.
    destruct (lookup_lt_length_Some d0 b) as [q Hq]; [lia|].
    rewrite Hq. reflexivity.
  - intros t b Ht Hb. simpl in Ht.
    destruct (cumprod_step xs o t) as (w & d & Hw & Hd & Hs); [lia|].
    assert (Hdisc : (d0 :: rest) !! t = Some d).
    { subst xs. apply lookup_take_Some in Hd. tauto. }
    assert (Hwl : length w = B)
      by exact (proj1 (Forall_lookup _ _) Hws t w Hw).
    assert (Hdl : length d = B)
      by exact (proj1 (Forall_lookup _ _) Hshape t d Hdisc).
    destruct (lookup_lt_length_Some w b) as [p Hp]; [lia|].
    destruct (lookup_lt_length_Some d b) as [q Hq]; [lia|].
    rewrite (at2_lookup _ (S t) b (rmul w d) (p * q) Hs
               (rmul_lookup _ _ _ _ _ Hp Hq)).
    rewrite (at2_lookup _ t b w p Hw Hp).
    rewrite (at2_lookup _ t b d q Hdisc Hq). reflexivity.
Qed.

Lemma imagine_no_head_discount self policy start is_terminal horizon seeds :
  WorldModel.head_discount (WorldModel.heads self) = None ->
  WorldModel.seq_discount
    (WorldModel.imagine self policy start is_terminal horizon seeds) =
  map (map (fun _ => discount (WorldModel.config self)))
      (WorldModel.seq_feat
         (WorldModel.imagine self policy start is_terminal horizon seeds)).
Proof.
  intros Hhead. unfold WorldModel.imagine.
  destruct (fold_left _ _ _) as [[latents feats] actions].
  rewrite Hhead. simpl. apply tscale_ones_like.
Qed.

(** X3. Without a discount head the weight of step [t] is
    [config.discount ^ t], for every batch item. *)
Theorem imagine_weight_power
    (self : WorldModel.t) (policy : Actor) (start : list (list Latent))
    (is_terminal : option NDArray) (horizon : nat) (seeds : nat -> Seed)
    (B : nat) :
  let s := WorldModel.imagine self policy start is_terminal horizon seeds in
  WorldModel.head_discount (WorldModel.heads self) = None ->
  Forall (fun r => length r = B) (WorldModel.seq_feat s) ->
  forall t b, (t <= horizon)%nat -> (b < B)%nat ->
    at2 (WorldModel.seq_weight s) t b
    = discount (WorldModel.config self) ^ t.
Proof.
  intros s Hhead Hfeat.
  pose proof (imagine_no_head_discount self policy start is_terminal
                horizon seeds Hhead) as Hdisc.
  pose proof (imagine_feat_length self policy start is_terminal horizon
                seeds) as Hlen.
  pose proof (imagine_weight_eq self policy start is_terminal horizon seeds)
    as Hw.
  fold s in Hdisc, Hlen, Hw. cbv zeta in Hw.
  set (c := discount (WorldModel.config self)) in *.
  assert (Hshape : Forall (fun r => length r = B) (WorldModel.seq_discount s)).
  { rewrite Hdisc. apply Forall_map.
    eapply Forall_impl; [|exact Hfeat]. intros r Hr. simpl.
    rewrite length_map. exact Hr. }
  assert (Hdlen : length (WorldModel.seq_discount s) = S horizon)
    by (rewrite Hdisc, length_map; exact Hlen).
  assert (Hentry : forall t b, (t <= horizon)%nat -> (b < B)%nat ->
            at2 (WorldModel.seq_discount s) t b = c).
  { intros t b Ht Hb. rewrite Hdisc.
    destruct (lookup_lt_length_Some (WorldModel.seq_feat s) t) as [r Hr];
      [lia|].
    apply (at2_lookup _ t b (map (fun _ => c) r)).
    - rewrite lookup_map, Hr. reflexivity.
    - rewrite lookup_map.
      destruct (lookup_lt_length_Some r b) as [q Hq].
      { rewrite (proj1 (Forall_lookup _ _) Hfeat t r Hr). exact Hb. }
      rewrite Hq. reflexivity. }
  destruct (shifted_cumprod_entries B _ Hshape) as [H0 Hstep].
  rewrite <- Hw in H0, Hstep.
  intros t. induction t as [|t IH]; intros b Ht Hb.
  - rewrite H0 by lia. reflexivity.
  - rewrite Hstep by lia. rewrite IH by lia. rewrite Hentry by lia.
    simpl. ring.
Qed.

Lemma imagine_weight_power_witness :
  at2 (WorldModel.seq_weight
         (WorldModel.imagine (Demo.wm false) Demo.actor Demo.start None 3
                             Demo.seeds)) 2 1
  = discount (WorldModel.config (Demo.wm false)) ^ 2.
Proof.
  apply (imagine_weight_power (Demo.wm false) Demo.actor Demo.start None 3
           Demo.seeds 2 eq_refl).
  - vm_compute. repeat constructor.
  - lia.
  - lia.
Defined.

(** X4. When every discount of the trajectory lies in [0, 1], every weight
    lies in [0, 1] and the weights do not increase along the trajectory. *)
Theorem imagine_weight_bounds
    (self : WorldModel.t) (policy : Actor) (start : list (list Latent))
    (is_terminal : option NDArray) (horizon : nat) (seeds : nat -> Seed)
    (B : nat) :
  let s := WorldModel.imagine self policy start is_terminal horizon seeds in
  let disc := WorldModel.seq_discount s in
  let weight := WorldModel.seq_weight s in
  Forall (fun r => length r = B) disc ->
  Forall (Forall (fun d => 0 <= d /\ d <= 1)) disc ->
  forall t b, (t < length disc)%nat -> (b < B)%nat ->
    0 <= at2 weight t b /\ at2 weight t b <= 1 /\
    ((S t < length disc)%nat -> at2 weight (S t) b <= at2 weight t b).
Proof.
  intros s disc weight Hshape Hrange.
  pose proof (imagine_weight_eq self policy start is_terminal horizon seeds)
    as Hw.
  fold s in Hw. cbv zeta in Hw. fold disc weight in Hw.
  destruct (shifted_cumprod_entries B disc Hshape) as [H0 Hstep].
  rewrite <- Hw in H0, Hstep.
  assert (Hd : forall t b, (t < length disc)%nat -> (b < B)%nat ->
                 0 <= at2 disc t b /\ at2 disc t b <= 1).
  { intros t b Ht Hb.
    destruct (lookup_lt_length_Some disc t Ht) as [r Hr].
    destruct (lookup_lt_length_Some r b) as [q Hq].
    { rewrite (proj1 (Forall_lookup _ _) Hshape t r Hr). exact Hb. }
    rewrite (at2_lookup disc t b r q Hr Hq).
    exact (proj1 (Forall_lookup _ _)
             (proj1 (Forall_lookup _ _) Hrange t r Hr) b q Hq). }
  assert (Hbound : forall t b, (t < length disc)%nat -> (b < B)%nat ->
                     0 <= at2 weight t b /\ at2 weight t b <= 1).
  { intros t. induction t as [|t IH]; intros b Ht Hb.
    - rewrite H0 by lia. split; discriminate.
    - rewrite Hstep by lia.
      destruct (IH b ltac:(lia) Hb) as [Hw0 Hw1].
      destruct (Hd t b ltac:(lia) Hb) as [Hd0 Hd1].
      split.
      + replace 0 with (0 * at2 disc t b) by ring.
        apply Qcmult_le_compat_r; assumption.
      + apply Qcle_trans with (1 * at2 disc t b).
        * apply Qcmult_le_compat_r; assumption.
        * rewrite Qcmult_1_l. exact Hd1. }
  intros t b Ht Hb. destruct (Hbound t b Ht Hb) as [Hw0 Hw1].
  split; [exact Hw0|]. split; [exact Hw1|].
  intros HSt. rewrite Hstep by lia.
  destruct (Hd t b Ht Hb) as [Hd0 Hd1].
  rewrite <- (Qcmult_1_r (at2 weight t b)) at 2.
  rewrite (Qcmult_comm (at2 weight t b) (at2 disc t b)).
  rewrite (Qcmult_comm (at2 weight t b) 1).
  apply Qcmult_le_compat_r; assumption.
Qed.

Lemma imagine_weight_bounds_witness :
  let s := WorldModel.imagine (Demo.wm true) Demo.actor Demo.start
             (Some Demo.is_terminal) 3 Demo.seeds in
  0 <= at2 (WorldModel.seq_weight s) 2 0 /\
  at2 (WorldModel.seq_weight s) 2 0 <= 1 /\
  ((3 < length (WorldModel.seq_discount s))%nat ->
   at2 (WorldModel.seq_weight s) 3 0 <= at2 (WorldModel.seq_weight s) 2 0).
Proof.
  apply (imagine_weight_bounds (Demo.wm true) Demo.actor Demo.start
           (Some Demo.is_terminal) 3 Demo.seeds 2).
  - vm_compute. repeat constructor.
  - vm_compute. repeat constructor; discriminate.
  - vm_compute. lia.
  - lia.
Defined.

(** ** More on [WorldModel.preprocess] *)

(** X5. [preprocess] checks the reward clipping mode before it reads any
    key: it raises [KeyError(clip_rewards)] for a mode other than
    ["identity"], ["sign"], ["tanh"], else [KeyError('reward')] when the
    reward is missing, else [KeyError('is_terminal')], and returns
    otherwise. *)
Theorem preprocess_errors
    (tf_tanh : Qc -> Qc) (self : WorldModel.t) (obs : gmap string NDArray) :
  let mode := clip_rewards (WorldModel.config self) in
  let known := mode = "identity" \/ mode = "sign" \/ mode = "tanh" in
  (~ known -> WorldModel.preprocess tf_tanh self obs = Raise (KeyError mode)) /\
  (known -> obs !! "reward" = None ->
   WorldModel.preprocess tf_tanh self obs = Raise (KeyError "reward")) /\
  (known -> is_Some (obs !! "reward") -> obs !! "is_terminal" = None ->
   WorldModel.preprocess tf_tanh self obs = Raise (KeyError "is_terminal")) /\
  (known -> is_Some (obs !! "reward") -> is_Some (obs !! "is_terminal") ->
   exists obs', WorldModel.preprocess tf_tanh self obs = Ok obs').
Proof.
  intros mode known. subst known. rewrite preprocess_unfold. fold mode.
  unfold WorldModel.clip_fn.
  destruct (decide (mode = "identity")) as [E1|N1];
    [|destruct (decide (mode = "sign")) as [E2|N2];
      [|destruct (decide (mode = "tanh")) as [E3|N3]]].
  4:{ repeat split; try tauto. }
  all: repeat split; try tauto.
  all: try (intros _ Hr; rewrite Hr; reflexivity).
  all: try (intros _ [r Hr] Hit; rewrite Hr, Hit; reflexivity).
  all: intros _ [r Hr] [it Hit]; rewrite Hr, Hit; eauto.
Qed.

Lemma convert_float_dtype (dtype : FloatDType) (value : NDArray) :
  nd_dtype (WorldModel.convert (float_dtype dtype) value) <> tf_int32 /\
  nd_dtype (WorldModel.convert (float_dtype dtype) value) <> tf_uint8.
Proof.
  destruct value as [dt sh data].
  destruct dt, dtype; split; discriminate.
Qed.

Lemma convert_fixed (dtype : DType) (value : NDArray) :
  nd_dtype value <> tf_int32 -> nd_dtype value <> tf_uint8 ->
  WorldModel.convert dtype value = value.
Proof.
  intros Hi Hu. unfold WorldModel.convert.
  destruct (decide (nd_dtype value = tf_int32)); [contradiction|].
  destruct (decide (nd_dtype value = tf_uint8)); [contradiction|].
  reflexivity.
Qed.

Lemma convert_idem (dtype : FloatDType) (value : NDArray) :
  WorldModel.convert (float_dtype dtype)
    (WorldModel.convert (float_dtype dtype) value)
  = WorldModel.convert (float_dtype dtype) value.
Proof.
  destruct (convert_float_dtype dtype value) as [Hi Hu].
  apply convert_fixed; assumption.
Qed.

Lemma uint8_rescaled (x : Qc) :
  0 <= x -> x <= Qc_of_Z 255 ->
  - Q2Qc (1 # 2) <= x / Qc_of_Z 255 - Q2Qc (1 # 2) /\
  x / Qc_of_Z 255 - Q2Qc (1 # 2) <= Q2Qc (1 # 2).
Proof.
  intros H0 H255.
  assert (Hinv : 0 <= / Qc_of_Z 255) by discriminate.
  assert (Hlo : 0 <= x / Qc_of_Z 255).
  { replace 0 with (0 * / Qc_of_Z 255) by ring.
    apply Qcmult_le_compat_r; assumption. }
  assert (Hhi : x / Qc_of_Z 255 <= 1).
  { replace 1 with (Qc_of_Z 255 * / Qc_of_Z 255)
      by (apply Qc_is_canon; reflexivity).
    apply Qcmult_le_compat_r; assumption. }
  split.
  - replace (- Q2Qc (1 # 2)) with (0 + - Q2Qc (1 # 2)) by ring.
    apply Qcplus_le_compat; [exact Hlo|apply Qcle_refl].
  - replace (Q2Qc (1 # 2)) with (1 + - Q2Qc (1 # 2)) at 2
      by (apply Qc_is_canon; reflexivity).
    apply Qcplus_le_compat; [exact Hhi|apply Qcle_refl].
Qed.

(** X6. An entry of the observation whose key does not start with
    ["log_"] and is neither ["reward"] nor ["discount"] comes out of
    [preprocess] with its shape; a uint8 entry becomes [x / 255 - 0.5] in
    the compute type, within [-0.5, 0.5] for bytes [0..255]; an int32 entry
    is cast to the compute type, and keeps its values when they are
    integers of magnitude at most [2^p], for the [p] significand bits of
    that type (larger integers are rounded by the cast, and nothing is
    stated about them); any other entry is unchanged. *)
Theorem preprocess_casts
    (tf_tanh : Qc -> Qc) (self : WorldModel.t)
    (obs obs' : gmap string NDArray) (key : string) (value : NDArray) :
  let dtype := float_dtype (compute_dtype (WorldModel.config self)) in
  WorldModel.preprocess tf_tanh self obs = Ok obs' ->
  obs !! key = Some value ->
  String.prefix "log_" key = false ->
  key <> "reward" -> key <> "discount" ->
  exists value',
    obs' !! key = Some value' /\
    nd_shape value' = nd_shape value /\
    (nd_dtype value = tf_uint8 ->
     nd_dtype value' = dtype /\
     nd_data value' =
       map (fun x => x / Qc_of_Z 255 - Q2Qc (1 # 2)) (nd_data value) /\
     (Forall (fun x => 0 <= x /\ x <= Qc_of_Z 255) (nd_data value) ->
      Forall (fun y => - Q2Qc (1 # 2) <= y /\ y <= Q2Qc (1 # 2))
             (nd_data value'))) /\
    (nd_dtype value = tf_int32 ->
     nd_dtype value' = dtype /\
     (Forall (exact_int (compute_dtype (WorldModel.config self)))
             (nd_data value) ->
      nd_data value' = nd_data value)) /\
    (nd_dtype value <> tf_uint8 -> nd_dtype value <> tf_int32 ->
     value' = value).
Proof.
  intros dtype Hpre Hkey Hlog Hr Hd. rewrite preprocess_unfold in Hpre.
  destruct (WorldModel.clip_fn _ _) as [clip|e]; [|discriminate].
  destruct (obs !! "reward") as [reward|]; [|discriminate].
  destruct (obs !! "is_terminal") as [it|]; [|discriminate].
  simpl in Hpre. injection Hpre as <-.
  exists (WorldModel.convert dtype value).
  split; [|split; [|split; [|split]]].
  - rewrite !lookup_insert_ne by congruence.
    rewrite converted_lookup, Hkey, Hlog. reflexivity.
  - unfold WorldModel.convert. repeat case_decide; reflexivity.
  - intros Hu. unfold WorldModel.convert.
    destruct (decide (nd_dtype value = tf_int32)) as [Hi|_];
      [rewrite Hu in Hi; discriminate|].
    destruct (decide (nd_dtype value = tf_uint8)); [|contradiction].
    split; [reflexivity|]. split; [reflexivity|].
    intros Hrange. cbn [nd_map nd_data astype].
    apply Forall_map. eapply Forall_impl; [|exact Hrange].
    intros x [H0 H255]. apply uint8_rescaled; assumption.
  - intros Hi. unfold WorldModel.convert.
    destruct (decide (nd_dtype value = tf_int32)); [|contradiction].
    destruct (decide (nd_dtype (astype dtype value) = tf_uint8)) as [Hc|_].
    + exfalso. subst dtype. cbn [astype nd_dtype] in Hc.
      destruct (compute_dtype (WorldModel.config self)); discriminate.
    + split; [reflexivity|]. intros _. reflexivity.
  - intros Hu Hi. apply convert_fixed; assumption.
Qed.

Lemma preprocess_casts_witness :
  exists obs' value',
    WorldModel.preprocess id (Demo.wm true) Demo.obs = Ok obs' /\
    obs' !! "image" = Some value' /\
    nd_shape value' = [2%nat].
Proof.
  pose proof (preprocess_unfold id (Demo.wm true) Demo.obs) as E.
  simpl in E.
  destruct (preprocess_casts id (Demo.wm true) Demo.obs _ "image"
              {| nd_dtype := tf_uint8; nd_shape := [2%nat];
                 nd_data := [Qc_of_Z 255; 0] |}
              E eq_refl eq_refl ltac:(discriminate) ltac:(discriminate))
    as (value' & Hv & Hs & _).
  eexists. exists value'. split; [exact E|]. split; [exact Hv|exact Hs].
Defined.

Lemma tf_sign_values (x : Qc) :
  tf_sign x = - (1) \/ tf_sign x = 0 \/ tf_sign x = 1.
Proof.
  unfold tf_sign. destruct (decide (x = 0)); [tauto|].
  destruct (Qclt_le_dec 0 x); tauto.
Qed.

Lemma tf_sign_idem (x : Qc) : tf_sign (tf_sign x) = tf_sign x.
Proof.
  destruct (tf_sign_values x) as [E|[E|E]]; rewrite E; unfold tf_sign.
  - rewrite decide_False by discriminate.
    destruct (Qclt_le_dec 0 (- (1))) as [H|H]; [|reflexivity].
    exfalso. revert H. apply Qcle_not_lt. discriminate.
  - rewrite decide_True by reflexivity. reflexivity.
  - rewrite decide_False by discriminate.
    destruct (Qclt_le_dec 0 1) as [H|H]; [reflexivity|].
    exfalso. revert H. apply Qclt_not_le. reflexivity.
Qed.

(** X7. With [clip_rewards = 'sign'] every reward returned by
    [preprocess] is -1, 0 or 1; with ['identity'] the reward is the cast
    input. *)
Theorem preprocess_reward
    (tf_tanh : Qc -> Qc) (self : WorldModel.t)
    (obs obs' : gmap string NDArray) (reward : NDArray) :
  let dtype := float_dtype (compute_dtype (WorldModel.config self)) in
  WorldModel.preprocess tf_tanh self obs = Ok obs' ->
  obs !! "reward" = Some reward ->
  exists reward',
    obs' !! "reward" = Some reward' /\
    (clip_rewards (WorldModel.config self) = "sign" ->
     Forall (fun r => r = - (1) \/ r = 0 \/ r = 1) (nd_data reward')) /\
    (clip_rewards (WorldModel.config self) = "identity" ->
     reward' = WorldModel.convert dtype reward).
Proof.
  intros dtype Hpre Hreward. rewrite preprocess_unfold in Hpre.
  rewrite Hreward in Hpre.
  destruct (WorldModel.clip_fn _ _) as [clip|e] eqn:Hclip; [|discriminate].
  destruct (obs !! "is_terminal") as [it|]; [|discriminate].
  simpl in Hpre. injection Hpre as <-.
  exists (clip (WorldModel.convert dtype reward)).
  split; [|split].
  - rewrite !lookup_insert_ne by discriminate. apply lookup_insert_eq.
  - intros Hmode. rewrite Hmode in Hclip. injection Hclip as <-.
    cbn [nd_map nd_data]. apply Forall_map. apply Forall_forall.
    intros x _. apply tf_sign_values.
  - intros Hmode. rewrite Hmode in Hclip. injection Hclip as <-.
    reflexivity.
Qed.

Lemma preprocess_reward_witness :
  exists obs' reward',
    WorldModel.preprocess id (Demo.wm true) Demo.obs = Ok obs' /\
    obs' !! "reward" = Some reward'.
Proof.
  pose proof (preprocess_unfold id (Demo.wm true) Demo.obs) as E.
  simpl in E.
  destruct (preprocess_reward id (Demo.wm true) Demo.obs _
              {| nd_dtype := tf_float32; nd_shape := [2%nat];
                 nd_data := [1; Qc_of_Z 3] |} E eq_refl)
    as (reward' & Hr & _).
  eexists. exists reward'. split; [exact E|exact Hr].
Defined.

(** X8. For [clip_rewards] one of ['identity'] and ['sign'],
    [preprocess] is idempotent: on its own result it returns that result. *)
Theorem preprocess_idempotent
    (tf_tanh : Qc -> Qc) (self : WorldModel.t)
    (obs obs' : gmap string NDArray) :
  clip_rewards (WorldModel.config self) = "identity" \/
  clip_rewards (WorldModel.config self) = "sign" ->
  WorldModel.preprocess tf_tanh self obs = Ok obs' ->
  WorldModel.preprocess tf_tanh self obs' = Ok obs'.
Proof.
  intros Hmode Hpre. rewrite preprocess_unfold in Hpre.
  rewrite preprocess_unfold.
  set (dtype := compute_dtype (WorldModel.config self)) in *.
  destruct (WorldModel.clip_fn _ _) as [clip|e] eqn:Hclip; [|discriminate].
  assert (Hclip_idem : forall r,
            clip (WorldModel.convert (float_dtype dtype)
                    (clip (WorldModel.convert (float_dtype dtype) r)))
            = clip (WorldModel.convert (float_dtype dtype) r)).
  { intros r. destruct Hmode as [E|E]; rewrite E in Hclip;
      injection Hclip as <-.
    - unfold id. apply convert_idem.
    - destruct (convert_float_dtype dtype r) as [Hi Hu].
      rewrite convert_fixed by assumption.
      unfold nd_map. cbn [nd_dtype nd_shape nd_data]. f_equal.
      rewrite map_map. apply map_ext. intros x. apply tf_sign_idem. }
  destruct (obs !! "reward") as [reward|] eqn:Hreward; [|discriminate].
  destruct (obs !! "is_terminal") as [it|] eqn:Hit; [|discriminate].
  cbv zeta in Hpre. injection Hpre as <-.
  rewrite (lookup_insert_ne _ "discount" "reward") by discriminate.
  rewrite (lookup_insert_ne _ "discount" "reward") by discriminate.
  rewrite lookup_insert_eq.
  rewrite !(lookup_insert_ne _ _ "is_terminal") by discriminate.
  rewrite converted_lookup, Hit.
  change (String.prefix "log_" "is_terminal") with false.
  cbn [fmap option_fmap option_map]. cbv zeta.
  rewrite convert_idem, Hclip_idem. f_equal.
  apply map_eq. intros key.
  destruct (decide (key = "discount")) as [->|Hd].
  { rewrite !lookup_insert_eq. reflexivity. }
  rewrite !(lookup_insert_ne _ "discount" key) by congruence.
  destruct (decide (key = "reward")) as [->|Hr].
  { rewrite !lookup_insert_eq. reflexivity. }
  rewrite !(lookup_insert_ne _ "reward" key) by congruence.
  rewrite converted_lookup.
  rewrite !(lookup_insert_ne _ "discount" key) by congruence.
  rewrite !(lookup_insert_ne _ "reward" key) by congruence.
  rewrite converted_lookup.
  destruct (obs !! key) as [v|]; [|reflexivity].
  cbn [fmap option_fmap option_map].
  destruct (String.prefix "log_" key); [reflexivity|].
  rewrite convert_idem. reflexivity.
Qed.

Lemma preprocess_idempotent_witness :
  exists obs',
    WorldModel.preprocess id (Demo.wm true) Demo.obs = Ok obs' /\
    WorldModel.preprocess id (Demo.wm true) obs' = Ok obs'.
Proof.
  pose proof (preprocess_unfold id (Demo.wm true) Demo.obs) as E.
  simpl in E.
  eexists. split; [exact E|].
  apply (preprocess_idempotent id (Demo.wm true) Demo.obs _
           (or_introl eq_refl) E).
Defined.

(** X9. The first-step discounts that [imagine] substitutes for the
    head's prediction are the ["discount"] entry that [preprocess] computes
    from the same [is_terminal] (of an element type other than uint8). *)
Theorem imagine_first_discount_preprocessed
    (tf_tanh : Qc -> Qc) (self : WorldModel.t) (policy : Actor)
    (start : list (list Latent)) (horizon : nat) (seeds : nat -> Seed)
    (obs obs' : gmap string NDArray) (is_terminal : NDArray) (head : MLP) :
  WorldModel.head_discount (WorldModel.heads self) = Some head ->
  WorldModel.preprocess tf_tanh self obs = Ok obs' ->
  obs !! "is_terminal" = Some is_terminal ->
  nd_dtype is_terminal <> tf_uint8 ->
  WorldModel.seq_discount
    (WorldModel.imagine self policy start (Some is_terminal) horizon seeds)
    !! 0%nat
  = nd_data <$> (obs' !! "discount").
Proof.
  intros Hhead Hpre Hit Hu. rewrite preprocess_unfold in Hpre.
  rewrite Hit in Hpre.
  destruct (WorldModel.clip_fn _ _) as [clip|e]; [|discriminate].
  destruct (obs !! "reward") as [reward|]; [|discriminate].
  cbv zeta in Hpre. injection Hpre as <-.
  rewrite lookup_insert_eq. cbn [fmap option_fmap option_map].
  unfold WorldModel.imagine.
  destruct (fold_left _ _ _) as [[latents feats] actions].
  rewrite Hhead. cbn [WorldModel.seq_discount app lookup list_lookup].
  f_equal. unfold discount_entry. cbn [nd_map nd_data astype].
  rewrite (convert_not_uint8 _ _ Hu), map_map. reflexivity.
Qed.

Lemma imagine_first_discount_preprocessed_witness :
  exists obs',
    WorldModel.preprocess id (Demo.wm true) Demo.obs = Ok obs' /\
    WorldModel.seq_discount
      (WorldModel.imagine (Demo.wm true) Demo.actor Demo.start
         (Some {| nd_dtype := tf_bool; nd_shape := [2%nat];
                  nd_data := [1; 0] |}) 3 Demo.seeds) !! 0%nat
    = nd_data <$> (obs' !! "discount").
Proof.
  pose proof (preprocess_unfold id (Demo.wm true) Demo.obs) as E.
  simpl in E.
  eexists. split; [exact E|].
  apply (imagine_first_discount_preprocessed id (Demo.wm true) Demo.actor
           Demo.start 3 Demo.seeds Demo.obs _ _
           (Demo.const_dist (Q2Qc (1 # 2))) eq_refl E eq_refl).
  discriminate.
Defined.

(** ** [ActorCritic.critic_loss] *)

(** X10. For a sequence of [1 + horizon] steps, [critic_loss] is the
    negative mean, over the first [horizon] steps and the batch, of the
    critic's log-probability of the target times the weight; its metric
    is the mean of the critic's mode. *)
Theorem critic_loss_weighted_mean
    (self : ActorCritic.t) (seq : WorldModel.Seq) (target : Seq2)
    (horizon B : nat) :
  let dist :=
    ActorCritic.critic self (drop_last 1 (WorldModel.seq_feat seq)) in
  let logp := d_log_prob dist (ActorCritic.to_ndarray target) in
  let weight := WorldModel.seq_weight seq in
  has_shape (1 + horizon) B weight ->
  has_shape horizon B logp ->
  ActorCritic.critic_loss self seq target =
  (- (big_sum horizon (fun t =>
        big_sum B (fun b => at2 logp t b * at2 weight t b))
      / Qc_of_nat (horizon * B)),
   {["critic" := mean2 (d_mode dist)]}).
Proof.
  intros dist logp weight Hw Hl. unfold ActorCritic.critic_loss.
  unfold stop_gradient. fold dist logp weight. f_equal. f_equal.
  assert (Hdrop : drop_last 1 weight = take horizon weight).
  { unfold drop_last. destruct Hw as [Hlen _]. rewrite Hlen. f_equal; lia. }
  rewrite Hdrop.
  assert (Hw' : has_shape horizon B (take horizon weight))
    by (apply (has_shape_take _ (1 + horizon)); [lia|exact Hw]).
  rewrite (mean2_big_sum horizon B).
  2:{ apply has_shape_zip; assumption. }
  f_equal. apply big_sum_ext. intros t Ht. apply big_sum_ext. intros b _.
  rewrite (at2_tmul horizon B) by assumption.
  rewrite at2_take by exact Ht. reflexivity.
Qed.

Lemma critic_loss_weighted_mean_witness :
  ActorCritic.critic_loss (Demo.ac 0 "dynamics" 0) Demo.imagined_seq
    [[1; 1]; [1; 1]; [1; 1]]
  = (- (big_sum 3 (fun t =>
          big_sum 2 (fun b =>
            at2 (d_log_prob
                   (ActorCritic.critic (Demo.ac 0 "dynamics" 0)
                      (drop_last 1 (WorldModel.seq_feat Demo.imagined_seq)))
                   (ActorCritic.to_ndarray [[1; 1]; [1; 1]; [1; 1]])) t b
            * at2 (WorldModel.seq_weight Demo.imagined_seq) t b))
        / Qc_of_nat (3 * 2)),
     {["critic" :=
         mean2 (d_mode
                  (ActorCritic.critic (Demo.ac 0 "dynamics" 0)
                     (drop_last 1
                        (WorldModel.seq_feat Demo.imagined_seq))))]}).
Proof.
  apply (critic_loss_weighted_mean (Demo.ac 0 "dynamics" 0)
           Demo.imagined_seq [[1; 1]; [1; 1]; [1; 1]] 3 2).
  - split; [vm_compute; reflexivity|vm_compute; repeat constructor].
  - split; [vm_compute; reflexivity|vm_compute; repeat constructor].
Defined.

(** ** Repeated calls of [ActorCritic.update_slow_target] *)

Lemma update_slow_target_n_app (a b : nat) (self : ActorCritic.t) :
  update_slow_target_n (a + b) self =
  update_slow_target_n a self ≫= update_slow_target_n b.
Proof.
  revert self. induction a as [|a IH]; intros self; simpl.
  - reflexivity.
  - destruct (ActorCritic.update_slow_target self) as [self'|e]; simpl.
    + apply IH.
    + reflexivity.
Qed.

Lemma assign_zip_shape (mix : Qc) (ss ds : list (list Qc)) :
  Forall2 (fun s d => length s = length d) ss ds ->
  Forall2 (fun s d => length s = length d) ss
          (ActorCritic.assign_zip mix ss ds).
Proof.
  induction 1 as [|s d ss ds Hsd _ IH]; simpl; constructor.
  - unfold ActorCritic.ema. symmetry. apply radd_length.
    + apply rscale_length.
    + rewrite rscale_length. symmetry. exact Hsd.
  - exact IH.
Qed.

Lemma assign_zip_same (mix : Qc) (ss : list (list Qc)) :
  ActorCritic.assign_zip mix ss ss = ss.
Proof.
  induction ss as [|s ss IH]; simpl; [reflexivity|]. rewrite IH. f_equal.
  unfold ActorCritic.ema, radd, rscale.
  induction s as [|x s IHs]; simpl; [reflexivity|].
  rewrite IHs. f_equal. ring.
Qed.

Section SlowTarget.

Variable self : ActorCritic.t.

Let cfg := ActorCritic.config self.
Let k := slow_target_update cfg.

Hypothesis Hslow : slow_target cfg = true.
Hypothesis Hk : (0 < k)%Z.

(** A call whose counter is not a multiple of the cadence. *)
Lemma update_slow_target_skip (tv : ActorCritic.Variables) (u : Z) :
  (u mod k <> 0)%Z ->
  (- 2 ^ 31 <= u < 2 ^ 31 - 1)%Z ->
  ActorCritic.update_slow_target (ActorCritic.with_target self tv u) =
  Ok (ActorCritic.with_target self tv (u + 1)).
Proof.
  intros Hmod Hu. unfold ActorCritic.update_slow_target. simpl.
  fold cfg. rewrite Hslow. fold k. unfold ActorCritic.floormod.
  destruct (decide (k = 0%Z)) as [E|_]; [lia|]. simpl.
  rewrite decide_False by exact Hmod.
  rewrite int32_wrap_id by lia. reflexivity.
Qed.

(** A call whose counter is a positive multiple of the cadence. *)
Lemma update_slow_target_hit (tv : ActorCritic.Variables) (u : Z) :
  (u mod k = 0)%Z -> u <> 0%Z ->
  (- 2 ^ 31 <= u < 2 ^ 31 - 1)%Z ->
  ActorCritic.update_slow_target (ActorCritic.with_target self tv u) =
  Ok (ActorCritic.with_target self
        (ActorCritic.assign_zip (slow_target_fraction cfg)
           (ActorCritic.critic_variables self) tv)
        (u + 1)).
Proof.
  intros Hmod Hne Hu. unfold ActorCritic.update_slow_target. simpl.
  fold cfg. rewrite Hslow. fold k. unfold ActorCritic.floormod.
  destruct (decide (k = 0%Z)) as [E|_]; [lia|]. simpl.
  rewrite decide_True by exact Hmod.
  rewrite decide_False by exact Hne.
  rewrite int32_wrap_id by lia. reflexivity.
Qed.

Lemma update_slow_target_skips (tv : ActorCritic.Variables) (q : Z) :
  forall (j : nat) (r : Z),
    (0 < r)%Z -> (r + Z.of_nat j <= k)%Z ->
    (- 2 ^ 31 <= k * q + r)%Z -> (k * q + r + Z.of_nat j < 2 ^ 31)%Z ->
    update_slow_target_n j (ActorCritic.with_target self tv (k * q + r)) =
    Ok (ActorCritic.with_target self tv (k * q + r + Z.of_nat j)).
Proof.
  induction j as [|j IH]; intros r Hr Hrj Hlo Hhi.
  - simpl. rewrite Z.add_0_r. reflexivity.
  - cbn [update_slow_target_n]. rewrite update_slow_target_skip.
    + simpl. replace (k * q + r + 1)%Z with (k * q + (r + 1))%Z by lia.
      rewrite IH by lia. f_equal. f_equal. lia.
    + replace (k * q + r)%Z with (r + q * k)%Z by lia.
      rewrite Z_mod_plus_full. rewrite Z.mod_small by lia. lia.
    + lia.
Qed.

(** One period: [k] calls from a positive multiple of the cadence. *)
Lemma update_slow_target_period (tv : ActorCritic.Variables) (u : Z) :
  (u mod k = 0)%Z -> (0 < u)%Z -> (u + k < 2 ^ 31)%Z ->
  update_slow_target_n (Z.to_nat k) (ActorCritic.with_target self tv u) =
  Ok (ActorCritic.with_target self
        (ActorCritic.assign_zip (slow_target_fraction cfg)
           (ActorCritic.critic_variables self) tv)
        (u + k)).
Proof.
  intros Hmod Hu Hhi.
  replace (Z.to_nat k) with (S (Z.to_nat (k - 1))) by lia.
  cbn [update_slow_target_n]. rewrite update_slow_target_hit by lia.
  simpl.
  assert (Hq : u = (k * (u / k))%Z).
  { pose proof (Z_div_mod_eq_full u k) as E. lia. }
  set (tv' := ActorCritic.assign_zip _ _ _).
  pose proof (update_slow_target_skips tv' (u / k) (Z.to_nat (k - 1)) 1)
    as Hrun.
  rewrite <- Hq in Hrun. rewrite Hrun by lia. f_equal. f_equal. lia.
Qed.

Lemma update_slow_target_periods_run (m : nat) :
  forall (tv : ActorCritic.Variables) (u : Z),
    (u mod k = 0)%Z -> (0 < u)%Z -> (u + Z.of_nat m * k < 2 ^ 31)%Z ->
    Forall2 (fun s d => length s = length d)
            (ActorCritic.critic_variables self) tv ->
    exists tv',
      update_slow_target_n (m * Z.to_nat k)
        (ActorCritic.with_target self tv u) =
      Ok (ActorCritic.with_target self tv' (u + Z.of_nat m * k)) /\
      forall i j,
        at2 tv' i j - at2 (ActorCritic.critic_variables self) i j =
        (1 - slow_target_fraction cfg) ^ m *
        (at2 tv i j - at2 (ActorCritic.critic_variables self) i j).
Proof.
  induction m as [|m IH]; intros tv u Hmod Hu Hhi Hshape.
  - exists tv. split.
    + simpl. f_equal. f_equal. lia.
    + intros i j. simpl. ring.
  - change (S m * Z.to_nat k)%nat with (Z.to_nat k + m * Z.to_nat k)%nat.
    rewrite update_slow_target_n_app.
    rewrite update_slow_target_period by lia. simpl.
    destruct (IH (ActorCritic.assign_zip (slow_target_fraction cfg)
                    (ActorCritic.critic_variables self) tv) (u + k)%Z)
      as (tv' & Hrun & Hgap).
    + replace (u + k)%Z with (u + 1 * k)%Z by lia.
      rewrite Z_mod_plus_full. exact Hmod.
    + lia.
    + lia.
    + apply assign_zip_shape. exact Hshape.
    + exists tv'. split.
      * rewrite Hrun. f_equal. f_equal. lia.
      * intros i j. rewrite Hgap.
        rewrite (assign_zip_at2 _ _ _ Hshape). simpl. ring.
Qed.

End SlowTarget.

(** X11. With slow targets enabled, a cadence [k > 0] and an unchanged
    critic, [m * k] successive calls of [update_slow_target] that start
    at a counter that is a positive multiple of [k] (and stay below
    [2^31]) succeed, advance the counter by [m * k], and shrink the gap
    between every target entry and its critic entry by the factor
    [(1 - slow_target_fraction) ^ m]. *)
Theorem update_slow_target_geometric (self : ActorCritic.t) (m : nat) :
  let cfg := ActorCritic.config self in
  let k := slow_target_update cfg in
  let u := ActorCritic._updates self in
  let critic := ActorCritic.critic_variables self in
  let target := ActorCritic.target_variables self in
  slow_target cfg = true ->
  (0 < k)%Z ->
  (0 < u)%Z -> (u mod k = 0)%Z ->
  (u + Z.of_nat m * k < 2 ^ 31)%Z ->
  Forall2 (fun s d => length s = length d) critic target ->
  exists self',
    update_slow_target_n (m * Z.to_nat k) self = Ok self' /\
    ActorCritic._updates self' = (u + Z.of_nat m * k)%Z /\
    ActorCritic.critic_variables self' = critic /\
    forall i j,
      at2 (ActorCritic.target_variables self') i j - at2 critic i j =
      (1 - slow_target_fraction cfg) ^ m *
      (at2 target i j - at2 critic i j).
Proof.
  intros cfg k u critic target Hslow Hk Hu Hmod Hhi Hshape.
  destruct (update_slow_target_periods_run self Hslow Hk m target u
              Hmod Hu Hhi Hshape) as (tv' & Hrun & Hgap).
  assert (Heta : ActorCritic.with_target self target u = self)
    by (destruct self; reflexivity).
  rewrite Heta in Hrun.
  eexists. split; [exact Hrun|]. simpl.
  split; [reflexivity|]. split; [reflexivity|]. exact Hgap.
Qed.

Lemma update_slow_target_geometric_witness :
  exists self',
    update_slow_target_n (2 * Z.to_nat 100) (Demo.ac 0 "dynamics" 100)
      = Ok self' /\
    ActorCritic._updates self' = 300%Z /\
    at2 (ActorCritic.target_variables self') 0 0 - Qc_of_Z 4 =
    (1 - slow_target_fraction (Demo.ac_cfg 0 "dynamics")) ^ 2 *
    (Qc_of_Z 10 - Qc_of_Z 4).
Proof.
  assert (Hshape : Forall2 (fun s d : list Qc => length s = length d)
            (ActorCritic.critic_variables (Demo.ac 0 "dynamics" 100))
            (ActorCritic.target_variables (Demo.ac 0 "dynamics" 100)))
    by (repeat constructor).
  destruct (update_slow_target_geometric (Demo.ac 0 "dynamics" 100) 2
              eq_refl eq_refl eq_refl eq_refl eq_refl Hshape)
    as (self' & Hrun & Hcount & _ & Hgap).
  exists self'. split; [exact Hrun|]. split; [exact Hcount|].
  exact (Hgap 0%nat 0%nat).
Defined.

(** X12. A target equal to the critic is a fixed point: with a non-zero
    cadence, any number of calls of [update_slow_target] succeeds and
    leaves both the critic and the target as they are, whatever the
    counter and the fraction. *)
Theorem update_slow_target_fixed_point (n : nat) :
  forall self : ActorCritic.t,
    slow_target_update (ActorCritic.config self) <> 0%Z ->
    ActorCritic.target_variables self = ActorCritic.critic_variables self ->
    exists self',
      update_slow_target_n n self = Ok self' /\
      ActorCritic.critic_variables self' =
        ActorCritic.critic_variables self /\
      ActorCritic.target_variables self' =
        ActorCritic.critic_variables self.
Proof.
  induction n as [|n IH]; intros self Hk Heq.
  - exists self. split; [reflexivity|]. split; [reflexivity|exact Heq].
  - cbn [update_slow_target_n]. unfold ActorCritic.update_slow_target.
    destruct (slow_target (ActorCritic.config self)) eqn:Hslow.
    + unfold ActorCritic.floormod.
      destruct (decide (slow_target_update (ActorCritic.config self) = 0%Z))
        as [E|_]; [contradiction|].
      simpl.
      match goal with
      | |- context [update_slow_target_n n ?s] =>
          destruct (IH s) as (self' & Hrun & Hc & Ht)
      end.
      * exact Hk.
      * simpl. rewrite Heq.
        destruct (decide _); [apply assign_zip_same|reflexivity].
      * exists self'. split; [exact Hrun|]. split; [exact Hc|exact Ht].
    + simpl. destruct (IH self Hk Heq) as (self' & Hrun & Hc & Ht).
      exists self'. split; [exact Hrun|]. split; [exact Hc|exact Ht].
Qed.

Lemma update_slow_target_fixed_point_witness :
  exists self',
    update_slow_target_n 3
      (ActorCritic.with_target (Demo.ac 0 "dynamics" 0)
         [[Qc_of_Z 4; 1]; [Qc_of_Z 3]] 99) = Ok self' /\
    ActorCritic.critic_variables self' = [[Qc_of_Z 4; 1]; [Qc_of_Z 3]] /\
    ActorCritic.target_variables self' = [[Qc_of_Z 4; 1]; [Qc_of_Z 3]].
Proof.
  apply (update_slow_target_fixed_point 3
           (ActorCritic.with_target (Demo.ac 0 "dynamics" 0)
              [[Qc_of_Z 4; 1]; [Qc_of_Z 3]] 99)).
  - discriminate.
  - reflexivity.
Defined.

(** ** [ActorCritic.train] *)

(** The shape of a successful [train]: the forward pass succeeded, both
    optimizers were applied, and [update_slow_target] ran on the updated
    object. *)
Lemma train_inv (self : ActorCritic.t) (world_model : WorldModel.t)
    (start : list (list Latent)) (is_terminal : option NDArray)
    (reward_fn : WorldModel.Seq -> Seq2) (seeds : nat -> Seed)
    (tfstep : nat) (self' : ActorCritic.t) (metrics : gmap string Qc) :
  ActorCritic.train self world_model start is_terminal reward_fn seeds
    tfstep = Ok (self', metrics) ->
  exists fw atape ctape,
    ActorCritic.imagined self world_model start is_terminal reward_fn
      seeds tfstep (ActorCritic.actor self) = Ok fw /\
    let a := ActorCritic.actor_opt self atape (ActorCritic.actor self) in
    let c :=
      ActorCritic.critic_opt self ctape (ActorCritic.critic_variables self) in
    ActorCritic.update_slow_target
      (ActorCritic.with_critic
         (ActorCritic.with_actor (ActorCritic.with_rewnorm self fw.1.2) a.1)
         c.1) = Ok self' /\
    metrics =
      fw.2 ∪ (ActorCritic.critic_loss (ActorCritic.with_rewnorm self fw.1.2)
                fw.1.1.1.1 fw.1.1.1.2).2 ∪ (c.2 ∪ (a.2 ∪ ∅)).
Proof.
  unfold ActorCritic.train. intros H.
  destruct (ActorCritic.imagined _ _ _ _ _ _ _ _) as [fw|e] eqn:Hfw;
    [|discriminate].
  simpl in H.
  destruct (ActorCritic.update_slow_target _) as [s|e] eqn:Hup;
    [|discriminate].
  simpl in H. injection H as Hs Hm. subst s.
  eexists fw, _, _. split; [reflexivity|]. cbv zeta.
  split; [exact Hup|]. symmetry. exact Hm.
Qed.

(** X13. After a successful [ActorCritic.train], the critic is the one
    returned by the critic optimizer and the slow target has been updated
    against that new critic: when the counter was 0 the target equals the
    new critic, at any other multiple of the cadence each target entry is
    [fraction * new critic + (1 - fraction) * old target], and otherwise
    the target is unchanged; the counter grew by one.  With slow targets
    disabled the target critic is the new critic itself. *)
Theorem train_slow_target_uses_new_critic
    (self : ActorCritic.t) (world_model : WorldModel.t)
    (start : list (list Latent)) (is_terminal : option NDArray)
    (reward_fn : WorldModel.Seq -> Seq2) (seeds : nat -> Seed)
    (tfstep : nat) (self' : ActorCritic.t) (metrics : gmap string Qc) :
  let cfg := ActorCritic.config self in
  let k := slow_target_update cfg in
  let u := ActorCritic._updates self in
  let critic' := ActorCritic.critic_variables self' in
  let target := ActorCritic.target_variables self in
  ActorCritic.train self world_model start is_terminal reward_fn seeds
    tfstep = Ok (self', metrics) ->
  (exists tape,
     critic' = (ActorCritic.critic_opt self tape
                  (ActorCritic.critic_variables self)).1) /\
  (exists tape,
     ActorCritic.actor self' =
     (ActorCritic.actor_opt self tape (ActorCritic.actor self)).1) /\
  (slow_target cfg = false ->
   ActorCritic._target_critic self' = ActorCritic.critic self') /\
  (slow_target cfg = true ->
   ActorCritic._updates self' = ActorCritic.int32_wrap (u + 1) /\
   ((u mod k)%Z <> 0%Z -> ActorCritic.target_variables self' = target) /\
   (Forall2 (fun s d => length s = length d) critic' target ->
    (u = 0%Z -> ActorCritic.target_variables self' = critic') /\
    ((u mod k)%Z = 0%Z -> u <> 0%Z ->
     forall i j,
       at2 (ActorCritic.target_variables self') i j =
       slow_target_fraction cfg * at2 critic' i j +
       (1 - slow_target_fraction cfg) * at2 target i j))).
Proof.
  intros cfg k u critic' target H.
  destruct (train_inv _ _ _ _ _ _ _ _ _ H)
    as (fw & atape & ctape & _ & Hup & _).
  cbv zeta in Hup. unfold ActorCritic.update_slow_target in Hup.
  simpl in Hup. fold cfg u k in Hup.
  destruct (slow_target cfg) eqn:Hslow.
  - unfold ActorCritic.floormod in Hup.
    destruct (decide (k = 0%Z)) as [E|Hk]; [discriminate|].
    simpl in Hup. injection Hup as Hs. subst critic' target.
    rewrite <- Hs. simpl.
    split; [eexists; reflexivity|]. split; [eexists; reflexivity|].
    split; [discriminate|]. intros _.
    split; [reflexivity|]. split.
    + intros Hmod. rewrite decide_False by exact Hmod. reflexivity.
    + intros Hshape. split.
      * intros Hu. rewrite decide_True by (rewrite Hu; apply Zmod_0_l).
        rewrite decide_True by exact Hu.
        apply assign_zip_one. exact Hshape.
      * intros Hmod Hu i j. rewrite decide_True by exact Hmod.
        rewrite decide_False by exact Hu.
        apply assign_zip_at2. exact Hshape.
  - injection Hup as Hs. subst critic' target. rewrite <- Hs.
    split; [eexists; reflexivity|]. split; [eexists; reflexivity|].
    split; [|discriminate]. intros _.
    unfold ActorCritic._target_critic. simpl. fold cfg.
    rewrite Hslow. reflexivity.
Qed.

Lemma imagined_inv (self : ActorCritic.t) (world_model : WorldModel.t)
    (start : list (list Latent)) (is_terminal : option NDArray)
    (reward_fn : WorldModel.Seq -> Seq2) (seeds : nat -> Seed)
    (tfstep : nat) (a : Actor)
    (fw : WorldModel.Seq * Seq2 * Qc * list Qc * gmap string Qc) :
  let seq0 :=
    WorldModel.imagine world_model a start is_terminal
      (imag_horizon (ActorCritic.config self)) seeds in
  let normed :=
    ActorCritic.rewnorm_call self (ActorCritic.rewnorm_state self)
      (reward_fn seq0) in
  let seq := ActorCritic.with_reward seq0 normed.1.1 in
  ActorCritic.imagined self world_model start is_terminal reward_fn seeds
    tfstep a = Ok fw ->
  exists tm lm,
    ActorCritic.target self seq = Ok tm /\
    ActorCritic.actor_loss (ActorCritic.with_actor self a) seq tm.1 tfstep
      = Ok lm /\
    fw = (seq, tm.1, lm.1, normed.2,
          kmap (fun k => "reward_" +:+ k) normed.1.2 ∪ tm.2 ∪ lm.2).
Proof.
  intros seq0 normed seq. unfold ActorCritic.imagined. cbv zeta.
  fold seq0. fold normed. fold seq. intros H.
  destruct (ActorCritic.target self seq) as [tm|e] eqn:Ht; [|discriminate].
  cbn [mbind result_bind] in H.
  destruct (ActorCritic.actor_loss _ seq tm.1 tfstep) as [lm|e] eqn:Hl;
    [|discriminate].
  cbn [mbind result_bind] in H. injection H as H. exists tm, lm.
  split; [reflexivity|]. split; [exact Hl|]. symmetry. exact H.
Qed.

Lemma actor_objective_metrics (self : ActorCritic.t) (seq : WorldModel.Seq)
    (target : Seq2) (policy : SeqPolicy) (tfstep : nat)
    (om : Seq2 * gmap string Qc) :
  ActorCritic.actor_objective self seq target policy tfstep = Ok om ->
  forall key, key <> "actor_grad_mix" -> om.2 !! key = None.
Proof.
  unfold ActorCritic.actor_objective. intros H key Hkey.
  repeat destruct (decide _); try discriminate;
    injection H as H; subst om; simpl.
  - apply lookup_empty.
  - apply lookup_empty.
  - rewrite lookup_insert_ne by congruence. apply lookup_empty.
Qed.

Lemma reward_key_fresh (m : gmap string Qc) (key : string) :
  (forall k, key <> "reward_" +:+ k) ->
  (kmap (fun k => "reward_" +:+ k) m : gmap string Qc) !! key = None.
Proof.
  intros H. apply lookup_kmap_None; [apply _|].
  intros i Hi. exfalso. exact (H i Hi).
Qed.

(** [train] succeeds when the target critic returns one value per step,
    the gradient mode is known and the cadence is not zero. *)
Lemma train_ok (self : ActorCritic.t) (world_model : WorldModel.t)
    (start : list (list Latent)) (is_terminal : option NDArray)
    (reward_fn : WorldModel.Seq -> Seq2) (seeds : nat -> Seed)
    (tfstep : nat) :
  let cfg := ActorCritic.config self in
  let grad := actor_grad cfg in
  (forall feat,
     length (d_mode (ActorCritic._target_critic self feat)) = length feat) ->
  grad = "dynamics" \/ grad = "reinforce" \/ grad = "both" ->
  (slow_target cfg = true -> slow_target_update cfg <> 0%Z) ->
  exists self' metrics,
    ActorCritic.train self world_model start is_terminal reward_fn seeds
      tfstep = Ok (self', metrics).
Proof.
  intros cfg grad Hcritic Hgrad Hk.
  unfold ActorCritic.train, ActorCritic.imagined. cbv zeta.
  set (seq0 := WorldModel.imagine _ _ _ _ _ _).
  set (normed := ActorCritic.rewnorm_call _ _ _).
  set (seq := ActorCritic.with_reward seq0 normed.1.1).
  assert (Hne : d_mode (ActorCritic._target_critic self
                          (WorldModel.seq_feat seq)) <> []).
  { intros E. pose proof (Hcritic (WorldModel.seq_feat seq)) as Hl.
    rewrite E in Hl. simpl in Hl. unfold seq0 in Hl.
    rewrite imagine_feat_length in Hl. discriminate. }
  destruct (target_unfold self seq normed.1.1 eq_refl Hne) as [m Ht].
  rewrite Ht. simpl.
  unfold ActorCritic.actor_loss.
  match goal with
  | |- context [ActorCritic.actor_objective ?s ?q ?t ?p ?n] =>
      destruct (proj2 (actor_objective_error s q t p n) Hgrad) as [om Hom];
      rewrite Hom
  end.
  simpl. unfold ActorCritic.update_slow_target. simpl. fold cfg.
  destruct (slow_target cfg) eqn:Hslow.
  - unfold ActorCritic.floormod.
    destruct (decide (slow_target_update cfg = 0%Z)) as [E|_].
    + exfalso. exact (Hk eq_refl E).
    + simpl. eauto.
  - simpl. eauto.
Qed.


Lemma demo_critic_length (feat : list (list Feat)) :
  length (d_mode (ActorCritic._target_critic (Demo.ac 0 "dynamics" 0) feat))
  = length feat.
Proof. simpl. apply length_map. Qed.


Lemma train_slow_target_uses_new_critic_witness :
  exists self' metrics,
    ActorCritic.train (Demo.ac 0 "dynamics" 0) (Demo.wm false) Demo.start
      (Some Demo.is_terminal)
      (fun seq => map (map (fun _ => 1)) (WorldModel.seq_feat seq))
      Demo.seeds 0 = Ok (self', metrics) /\
    ActorCritic.target_variables self' = ActorCritic.critic_variables self'.
Proof.
  destruct (train_ok (Demo.ac 0 "dynamics" 0) (Demo.wm false) Demo.start
              (Some Demo.is_terminal)
              (fun seq => map (map (fun _ => 1)) (WorldModel.seq_feat seq))
              Demo.seeds 0 demo_critic_length (or_introl eq_refl)
              (fun _ => ltac:(discriminate)))
    as (self' & metrics & H).
  exists self', metrics. split; [exact H|].
  destruct (train_slow_target_uses_new_critic _ _ _ _ _ _ _ _ _ H)
    as ([tape Hc] & _ & _ & Hs).
  destruct (Hs eq_refl) as (_ & _ & Hsh).
  apply Hsh; [|reflexivity].
  rewrite Hc. simpl. repeat constructor.
Defined.

(** X15. The metrics of a successful [ActorCritic.train] report, under
    fixed names that the optimizers' metrics cannot override, values of
    the networks before the update: 'critic' is the mean of the critic's
    mode on all but the last imagined step, 'critic_slow' the mean of the
    target critic's mode on all steps, 'actor_ent' the mean policy entropy
    on all but the last two steps and 'actor_ent_scale' the scheduled
    entropy scale; every metric [k] of the reward normaliser appears as
    'reward_k'; and the normaliser's new state is stored. *)
Theorem train_metrics
    (self : ActorCritic.t) (world_model : WorldModel.t)
    (start : list (list Latent)) (is_terminal : option NDArray)
    (reward_fn : WorldModel.Seq -> Seq2) (seeds : nat -> Seed)
    (tfstep : nat) (self' : ActorCritic.t) (metrics : gmap string Qc) :
  let cfg := ActorCritic.config self in
  let seq :=
    WorldModel.imagine world_model (ActorCritic.actor self) start
      is_terminal (imag_horizon cfg) seeds in
  let feat := WorldModel.seq_feat seq in
  let normed :=
    ActorCritic.rewnorm_call self (ActorCritic.rewnorm_state self)
      (reward_fn seq) in
  ActorCritic.train self world_model start is_terminal reward_fn seeds
    tfstep = Ok (self', metrics) ->
  metrics !! "critic" =
    Some (mean2 (d_mode (ActorCritic.critic self (drop_last 1 feat)))) /\
  metrics !! "critic_slow" =
    Some (mean2 (d_mode (ActorCritic._target_critic self feat))) /\
  metrics !! "actor_ent" =
    Some (mean2 (entropy (actor_seq (ActorCritic.actor self)
                            (drop_last 2 feat)))) /\
  metrics !! "actor_ent_scale" = Some (schedule (actor_ent cfg) tfstep) /\
  (forall k v, normed.1.2 !! k = Some v ->
               metrics !! ("reward_" +:+ k) = Some v) /\
  ActorCritic.rewnorm_state self' = normed.2.
Proof.
  intros cfg seq feat normed H.
  destruct (train_inv _ _ _ _ _ _ _ _ _ H)
    as (fw & atape & ctape & Hfw & Hup & Hm).
  cbv zeta in Hup, Hm.
  destruct (imagined_inv _ _ _ _ _ _ _ _ _ Hfw) as (tm & lm & Ht & Hl & Efw).
  fold cfg in Efw. fold seq in Efw. fold normed in Efw.
  fold cfg in Ht, Hl. fold seq in Ht, Hl. fold normed in Ht, Hl.
  set (seq' := ActorCritic.with_reward seq normed.1.1) in *.
  (* the metrics of [target] *)
  unfold ActorCritic.target in Ht. cbn [seq' ActorCritic.with_reward
    WorldModel.seq_reward WorldModel.seq_feat mbind result_bind] in Ht.
  fold feat in Ht.
  destruct (ActorCritic.last_item _) as [boot|e]; [|discriminate].
  cbn [mbind result_bind] in Ht. injection Ht as Ht.
  (* the metrics of [actor_loss] *)
  unfold ActorCritic.actor_loss in Hl.
  destruct (ActorCritic.actor_objective _ _ _ _ _) as [om|e] eqn:Hom;
    [|discriminate].
  cbn [mbind result_bind] in Hl. injection Hl as Hl.
  pose proof (actor_objective_metrics _ _ _ _ _ _ Hom) as Hfresh.
  assert (Hrk : forall key (m : gmap string Qc),
             (forall k, key <> "reward_" +:+ k) ->
             (kmap (fun k => "reward_" +:+ k) m : gmap string Qc) !! key
             = None)
    by (intros; apply reward_key_fresh; assumption).
  assert (Hfw2 : fw.2 =
            kmap (fun k => "reward_" +:+ k) normed.1.2 ∪ tm.2 ∪ lm.2)
    by (rewrite Efw; reflexivity).
  assert (Hseq : fw.1.1.1.1 = seq') by (rewrite Efw; reflexivity).
  assert (Hst : fw.1.2 = normed.2) by (rewrite Efw; reflexivity).
  rewrite Hm, Hfw2, Hseq. rewrite <- Ht, <- Hl.
  cbn [fst snd ActorCritic.critic_loss].
  repeat split.
  - rewrite <- !(assoc_L (∪)).
    rewrite lookup_union_r by (apply Hrk; intros k; discriminate).
    rewrite lookup_union_r
      by (rewrite lookup_insert_ne by discriminate;
          apply lookup_singleton_ne; discriminate).
    rewrite lookup_union_r
      by (rewrite !lookup_insert_ne by discriminate;
          apply Hfresh; discriminate).
    apply lookup_union_Some_l. unfold ActorCritic.critic_loss. simpl.
    apply lookup_singleton_eq.
  - rewrite <- !(assoc_L (∪)).
    rewrite lookup_union_r by (apply Hrk; intros k; discriminate).
    apply lookup_union_Some_l.
    rewrite lookup_insert_ne by discriminate. apply lookup_singleton_eq.
  - rewrite <- !(assoc_L (∪)).
    rewrite lookup_union_r by (apply Hrk; intros k; discriminate).
    rewrite lookup_union_r
      by (rewrite lookup_insert_ne by discriminate;
          apply lookup_singleton_ne; discriminate).
    apply lookup_union_Some_l.
    rewrite lookup_insert_ne by discriminate. apply lookup_insert_eq.
  - rewrite <- !(assoc_L (∪)).
    rewrite lookup_union_r by (apply Hrk; intros k; discriminate).
    rewrite lookup_union_r
      by (rewrite lookup_insert_ne by discriminate;
          apply lookup_singleton_ne; discriminate).
    apply lookup_union_Some_l. apply lookup_insert_eq.
  - intros k v Hk. rewrite <- !(assoc_L (∪)).
    apply lookup_union_Some_l.
    rewrite (lookup_kmap (fun k => "reward_" +:+ k)). exact Hk.
  - unfold ActorCritic.update_slow_target in Hup.
    destruct (slow_target _); [|injection Hup as Hup; rewrite <- Hup; simpl; exact Hst].
    destruct (ActorCritic.floormod _ _); [|discriminate].
    cbn [mbind result_bind] in Hup. injection Hup as Hup.
    rewrite <- Hup. simpl. exact Hst.
Qed.

Lemma train_metrics_witness :
  exists self' metrics,
    ActorCritic.train (Demo.ac 0 "dynamics" 0) (Demo.wm false) Demo.start
      (Some Demo.is_terminal)
      (fun seq => map (map (fun _ => 1)) (WorldModel.seq_feat seq))
      Demo.seeds 0 = Ok (self', metrics) /\
    metrics !! "actor_ent_scale" = Some (Q2Qc (1 # 2)) /\
    ActorCritic.rewnorm_state self' = [].
Proof.
  destruct (train_ok (Demo.ac 0 "dynamics" 0) (Demo.wm false) Demo.start
              (Some Demo.is_terminal)
              (fun seq => map (map (fun _ => 1)) (WorldModel.seq_feat seq))
              Demo.seeds 0 demo_critic_length (or_introl eq_refl)
              (fun _ => ltac:(discriminate)))
    as (self' & metrics & H).
  exists self', metrics. split; [exact H|].
  destruct (train_metrics _ _ _ _ _ _ _ _ _ H)
    as (_ & _ & _ & Hscale & _ & Hstate).
  split; [exact Hscale|exact Hstate].
Defined.

(** ** The metrics and errors of [WorldModel.loss] *)

Lemma string_length_app (s1 s2 : string) :
  String.length (s1 +:+ s2) = (String.length s1 + String.length s2)%nat.
Proof. induction s1 as [|a s1 IH]; simpl; [reflexivity|]. rewrite IH. reflexivity. Qed.

Lemma string_app_suffix_inj (t s1 s2 : string) :
  s1 +:+ t = s2 +:+ t -> s1 = s2.
Proof.
  revert s2. induction s1 as [|a s1 IH]; intros [|b s2] H.
  - reflexivity.
  - apply (f_equal String.length) in H.
    rewrite !string_length_app in H. simpl in H. lia.
  - apply (f_equal String.length) in H.
    rewrite !string_length_app in H. simpl in H. lia.
  - simpl in H. injection H as -> H. f_equal. apply IH. exact H.
Qed.

#[local] Instance loss_name_inj : Inj (=) (=) (fun name => name +:+ "_loss").
Proof. intros s1 s2 H. exact (string_app_suffix_inj _ _ _ H). Qed.

(** No metric named [<name>_loss] is one of the three fixed names. *)
Lemma loss_name_fresh (name : string) :
  name +:+ "_loss" <> "model_kl" /\
  name +:+ "_loss" <> "prior_ent" /\
  name +:+ "_loss" <> "post_ent".
Proof.
  repeat split; intros H;
    pose proof (f_equal String.length H) as Hlen;
    rewrite string_length_app in Hlen; simpl in Hlen;
    repeat (destruct name as [|? name]; simpl in Hlen; try lia;
            try discriminate H).
Qed.

Lemma loss_inv tf_tanh (self : WorldModel.t) (data : gmap string NDArray)
    (state : option (list Latent)) (draws : WorldModel.Draws)
    (r : Qc * list Latent * WorldModel.Outs * gmap string Qc) :
  WorldModel.loss tf_tanh self data state draws = Ok r ->
  exists data' action is_first terms measure,
    WorldModel.preprocess tf_tanh self data = Ok data' /\
    data' !! "action" = Some action /\
    data' !! "is_first" = Some is_first /\
    let obs := observed self data' action is_first state in
    let kl := kl_loss (WorldModel.rssm self) obs.1 obs.2 in
    let feat := observed_feat self data' action is_first state in
    length (nd_shape kl.1) = 0%nat /\
    head_terms self data' feat (WorldModel.scalar kl.1) = Ok terms /\
    WorldModel.relaxed_distortion_measure
      (WorldModel.head_decoder (WorldModel.heads self)) feat
      (Q2Qc (2 # 10)) draws = Ok measure /\
    let iso := WorldModel.iso_reg self * measure in
    let losses := <["iso" := iso]> terms.2 in
    r = (WorldModel.scaled_sum (loss_scales (WorldModel.config self)) losses,
         map (fun v => List.last v ∅) obs.1,
         {| WorldModel.out_embed := WorldModel.encoder self data';
            WorldModel.out_feat := feat;
            WorldModel.out_post := obs.1;
            WorldModel.out_prior := obs.2;
            WorldModel.out_likes := terms.1;
            WorldModel.out_kl := kl.2;
            WorldModel.out_iso := iso |},
         <["post_ent" :=
             mean2 (dist_entropy (WorldModel.rssm self) obs.1)]>
           (<["prior_ent" :=
                mean2 (dist_entropy (WorldModel.rssm self) obs.2)]>
              (<["model_kl" := mean2 kl.2]>
                 (kmap (fun name => name +:+ "_loss") losses)))).
Proof.
  unfold WorldModel.loss. intros H.
  destruct (WorldModel.preprocess tf_tanh self data) as [data'|e];
    [|discriminate].
  cbn [mbind result_bind] in H. unfold getitem in H.
  destruct (data' !! "action") as [action|] eqn:Ha; [|discriminate].
  cbn [mbind result_bind] in H.
  destruct (data' !! "is_first") as [is_first|] eqn:Hf; [|discriminate].
  cbn [mbind result_bind] in H. cbv zeta in H.
  fold (observed self data' action is_first state) in H.
  fold (observed_feat self data' action is_first state) in H.
  destruct (bool_decide _) eqn:Hrank; [|discriminate].
  cbn [negb] in H. apply bool_decide_eq_true_1 in Hrank.
  fold (head_terms self data'
          (observed_feat self data' action is_first state)
          (WorldModel.scalar
             (kl_loss (WorldModel.rssm self)
                (observed self data' action is_first state).1
                (observed self data' action is_first state).2).1)) in H.
  destruct (head_terms _ _ _ _) as [terms|e] eqn:Ht; [|discriminate].
  cbn [mbind result_bind] in H.
  destruct (WorldModel.relaxed_distortion_measure _ _ _ _)
    as [measure|e] eqn:Hiso; [|discriminate].
  cbn [mbind result_bind] in H. injection H as H.
  exists data', action, is_first, terms, measure.
  split; [reflexivity|]. split; [exact Ha|]. split; [exact Hf|].
  cbv zeta. split; [exact Hrank|]. split; [exact Ht|].
  split; [exact Hiso|]. symmetry. exact H.
Qed.

(** X16. A successful [WorldModel.loss] reports every loss term unscaled:
    there is one dictionary of terms such that the total is the sum of the
    terms weighted by [loss_scales] (default 1) while the metric
    ['<name>_loss'] is the term itself.  Its ['iso'] term is [outs['iso']],
    that is [iso_reg] times the distortion measure of the decoder at the
    returned features; 'model_kl', 'prior_ent' and 'post_ent' are means
    over the returned KL values, prior and posterior; and the returned
    state is the last time step of the posterior. *)
Theorem loss_reports_unscaled_terms
    (tf_tanh : Qc -> Qc) (self : WorldModel.t) (data : gmap string NDArray)
    (state : option (list Latent)) (draws : WorldModel.Draws)
    (total : Qc) (last_state : list Latent) (outs : WorldModel.Outs)
    (metrics : gmap string Qc) :
  WorldModel.loss tf_tanh self data state draws
    = Ok (total, last_state, outs, metrics) ->
  exists losses : gmap string Qc,
    total =
      WorldModel.scaled_sum (loss_scales (WorldModel.config self)) losses /\
    (forall name, metrics !! (name +:+ "_loss") = losses !! name) /\
    losses !! "iso" = Some (WorldModel.out_iso outs) /\
    (exists measure,
       WorldModel.relaxed_distortion_measure
         (WorldModel.head_decoder (WorldModel.heads self))
         (WorldModel.out_feat outs) (Q2Qc (2 # 10)) draws = Ok measure /\
       WorldModel.out_iso outs = WorldModel.iso_reg self * measure) /\
    metrics !! "model_kl" = Some (mean2 (WorldModel.out_kl outs)) /\
    metrics !! "prior_ent" =
      Some (mean2 (dist_entropy (WorldModel.rssm self)
                     (WorldModel.out_prior outs))) /\
    metrics !! "post_ent" =
      Some (mean2 (dist_entropy (WorldModel.rssm self)
                     (WorldModel.out_post outs))) /\
    WorldModel.out_feat outs =
      map (map (get_feat (WorldModel.rssm self))) (WorldModel.out_post outs) /\
    last_state = map (fun v => List.last v ∅) (WorldModel.out_post outs).
Proof.
  intros H.
  destruct (loss_inv _ _ _ _ _ _ H)
    as (data' & action & is_first & terms & measure
        & _ & _ & _ & _ & _ & Hiso & Hr).
  cbv zeta in Hr. injection Hr as -> -> -> ->.
  eexists. split; [reflexivity|]. cbn [WorldModel.out_iso
    WorldModel.out_feat WorldModel.out_kl WorldModel.out_prior
    WorldModel.out_post].
  split; [|split; [apply lookup_insert_eq|
                   split; [exists measure; split; [exact Hiso|reflexivity]|]]].
  - intros name. destruct (loss_name_fresh name) as (N1 & N2 & N3).
    rewrite !lookup_insert_ne by congruence.
    apply (lookup_kmap (fun name => name +:+ "_loss")).
  - split; [|split; [|split; [|split; reflexivity]]].
    + rewrite !lookup_insert_ne by discriminate. apply lookup_insert_eq.
    + rewrite lookup_insert_ne by discriminate. apply lookup_insert_eq.
    + apply lookup_insert_eq.
Qed.

Lemma loss_reports_unscaled_terms_witness :
  exists total last_state outs metrics,
    WorldModel.loss id Demo.wm_iso Demo.batch None Demo.draws
      = Ok (total, last_state, outs, metrics) /\
    metrics !! "iso_loss" = Some (WorldModel.out_iso outs).
Proof.
  destruct (WorldModel.loss id Demo.wm_iso Demo.batch None Demo.draws)
    as [[[[total last_state] outs] metrics]|e] eqn:H.
  - exists total, last_state, outs, metrics. split; [reflexivity|].
    destruct (loss_reports_unscaled_terms _ _ _ _ _ _ _ _ _ H)
      as (losses & _ & Hname & Hiso & _).
    rewrite <- Hiso. exact (Hname "iso").
  - exfalso. pose proof model_loss_example as E.
    unfold model_loss in E. rewrite H in E. discriminate.
Defined.

(** The keys of a preprocessed batch: those of the batch, and 'discount'. *)
Lemma preprocess_keys tf_tanh (self : WorldModel.t)
    (obs obs' : gmap string NDArray) :
  WorldModel.preprocess tf_tanh self obs = Ok obs' ->
  forall key, is_Some (obs' !! key) <->
              key = "discount" \/ is_Some (obs !! key).
Proof.
  rewrite preprocess_unfold.
  destruct (WorldModel.clip_fn _ _) as [clip|e]; [|discriminate].
  destruct (obs !! "reward") as [reward|] eqn:Hr; [|discriminate].
  destruct (obs !! "is_terminal") as [it|] eqn:Hit; [|discriminate].
  cbv zeta. intros [= <-] key.
  destruct (decide (key = "discount")) as [->|Hd].
  { rewrite lookup_insert_eq. split; eauto. }
  rewrite !lookup_insert_ne by congruence.
  destruct (decide (key = "reward")) as [->|Hrw].
  { rewrite lookup_insert_eq, Hr. split; eauto. }
  rewrite lookup_insert_ne by congruence.
  rewrite converted_lookup, is_Some_alt.
  destruct (obs !! key) eqn:Hk; simpl.
  - split; [right; eauto|tauto].
  - split; [tauto|]. intros [?|[? ?]]; [contradiction|discriminate].
Qed.

Lemma add_like_fold (data : gmap string NDArray)
    (dists : list (string * Dist)) :
  forall acc : result (gmap string Seq2 * gmap string Qc),
    match fold_left (WorldModel.add_like data) dists acc with
    | Ok _ =>
        (exists terms, acc = Ok terms) /\
        forall kd, kd ∈ dists -> is_Some (data !! kd.1)
    | Raise e =>
        acc = Raise e \/
        exists kd, kd ∈ dists /\ data !! kd.1 = None /\ e = KeyError kd.1
    end.
Proof.
  induction dists as [|kd dists IH]; intros acc.
  - simpl. destruct acc as [terms|e].
    + split; [eauto|]. intros kd Hkd. inversion Hkd.
    + left. reflexivity.
  - cbn [fold_left]. specialize (IH (WorldModel.add_like data acc kd)).
    destruct (fold_left _ dists _) as [terms|e].
    + destruct IH as [[terms' Hacc] Hkeys].
      unfold WorldModel.add_like in Hacc.
      destruct acc as [terms0|e0]; [|discriminate].
      cbn [mbind result_bind] in Hacc. unfold getitem in Hacc.
      destruct (data !! kd.1) as [value|] eqn:Hv; [|discriminate].
      split; [eauto|]. intros kd' Hkd'.
      apply elem_of_cons in Hkd' as [->|Hin]; [rewrite Hv; eauto|].
      apply Hkeys. exact Hin.
    + destruct IH as [Hacc|(kd' & Hin & Hnone & He)].
      * unfold WorldModel.add_like in Hacc.
        destruct acc as [terms0|e0]; [|left; exact Hacc].
        cbn [mbind result_bind] in Hacc. unfold getitem in Hacc.
        destruct (data !! kd.1) as [value|] eqn:Hv; [discriminate|].
        cbn [mbind result_bind] in Hacc. injection Hacc as <-.
        right. exists kd. split; [apply elem_of_cons; auto|]. auto.
      * right. exists kd'. split; [apply elem_of_cons; auto|]. auto.
Qed.

Lemma head_terms_cases (self : WorldModel.t) (data : gmap string NDArray)
    (feat : list (list Feat)) (kl : Qc) :
  match head_terms self data feat kl with
  | Ok _ => True
  | Raise e =>
      exists key, e = KeyError key /\ data !! key = None /\
                  head_key self key
  end.
Proof.
  unfold head_terms, WorldModel.heads_items, WorldModel.add_head.
  cbn [fold_left app fst snd]. unfold stop_gradient.
  set (acc0 := @Ok (gmap string Seq2 * gmap string Qc) (∅, {["kl" := kl]})).
  set (inp1 := if bool_decide ("decoder" ∈ _) then feat else feat).
  set (inp2 := if bool_decide ("reward" ∈ _) then feat else feat).
  pose proof (add_like_fold data
    (decoder_call (WorldModel.head_decoder (WorldModel.heads self)) inp1)
    acc0) as H1.
  destruct (fold_left _ (decoder_call _ inp1) acc0) as [t1|e1] eqn:E1.
  2:{ destruct H1 as [H1|(kd & Hin & Hnone & ->)]; [discriminate|].
      assert (Hrest : forall items,
        fold_left (fun acc item =>
          fold_left (WorldModel.add_like data)
            (item.2 (if bool_decide (item.1 ∈ grad_heads
                                       (WorldModel.config self))
                     then feat else feat)) acc) items
          (Raise (KeyError kd.1) :
             result (gmap string Seq2 * gmap string Qc))
        = Raise (KeyError kd.1)).
      { induction items as [|it items IHi]; [reflexivity|].
        cbn [fold_left]. 
        assert (Hin' : forall ds,
          fold_left (WorldModel.add_like data) ds
            (Raise (KeyError kd.1) :
               result (gmap string Seq2 * gmap string Qc))
          = Raise (KeyError kd.1)).
        { induction ds as [|d ds IHd]; [reflexivity|]. exact IHd. }
        rewrite Hin'. exact IHi. }
      cbn [fold_left]. fold inp2.
      match goal with
      | |- match ?x with _ => _ end =>
          assert (Hx : x = Raise (KeyError kd.1))
      end.
      { destruct (WorldModel.head_discount (WorldModel.heads self));
          reflexivity. }
      rewrite Hx. exists kd.1. split; [reflexivity|]. split; [exact Hnone|].
      left. exists inp1, kd.2. destruct kd. exact Hin. }
  cbn [fold_left]. fold inp2. cbn [mbind result_bind].
  unfold WorldModel.add_like at 2. cbn [mbind result_bind fst snd].
  unfold getitem.
  destruct (data !! "reward") as [rv|] eqn:Hr.
  2:{ cbn [mbind result_bind].
      match goal with
      | |- match ?x with _ => _ end =>
          assert (Hx : x = Raise (KeyError "reward"))
      end.
      { destruct (WorldModel.head_discount (WorldModel.heads self));
          reflexivity. }
      rewrite Hx. exists "reward". split; [reflexivity|].
      split; [exact Hr|]. right. left. reflexivity. }
  cbn [mbind result_bind].
  destruct (WorldModel.head_discount (WorldModel.heads self)) as [hd|] eqn:Hd.
  2:{ exact I. }
  cbn [fold_left fst snd]. unfold WorldModel.add_like.
  cbn [mbind result_bind fst snd]. unfold getitem.
  destruct (data !! "discount") eqn:Hdisc; cbn [mbind result_bind];
    [exact I|].
  exists "discount". split; [reflexivity|]. split; [exact Hdisc|].
  right. right. split; [reflexivity|]. rewrite Hd. eauto.
Qed.

Lemma preprocess_raise_key tf_tanh (self : WorldModel.t)
    (obs : gmap string NDArray) (e : Error) :
  let mode := clip_rewards (WorldModel.config self) in
  WorldModel.preprocess tf_tanh self obs = Raise e ->
  (e = KeyError mode /\
   mode <> "identity" /\ mode <> "sign" /\ mode <> "tanh") \/
  (e = KeyError "reward" /\ obs !! "reward" = None) \/
  (e = KeyError "is_terminal" /\ obs !! "is_terminal" = None).
Proof.
  intros mode. rewrite preprocess_unfold. fold mode.
  unfold WorldModel.clip_fn.
  destruct (decide (mode = "identity")) as [E1|N1];
    [|destruct (decide (mode = "sign")) as [E2|N2];
      [|destruct (decide (mode = "tanh")) as [E3|N3]]].
  4:{ intros [= <-]. left. auto. }
  all: destruct (obs !! "reward") as [reward|];
    [|intros [= <-]; right; left; auto].
  all: destruct (obs !! "is_terminal") as [it|];
    [discriminate|intros [= <-]; right; right; auto].
Qed.

(** X17. Every error of [WorldModel.loss] is the [AssertionError] of the
    KL rank check, the [KeyError] of an unknown [clip_rewards] mode, the
    [KeyError] of a key that the batch lacks, which is 'reward',
    'is_terminal', 'action', 'is_first' or a key of the decoder's
    distributions, or the [ZeroDivisionError] of the distortion measure,
    raised after every other check when the sample of the features is
    empty (fewer than 400 feature rows).  A missing 'discount' is never an
    error, even with a discount head: [preprocess] writes that entry. *)
Theorem loss_errors
    (tf_tanh : Qc -> Qc) (self : WorldModel.t) (data : gmap string NDArray)
    (state : option (list Latent)) (draws : WorldModel.Draws) (e : Error) :
  let mode := clip_rewards (WorldModel.config self) in
  WorldModel.loss tf_tanh self data state draws = Raise e ->
  e = AssertionError EmptyString \/
  (e = KeyError mode /\
   mode <> "identity" /\ mode <> "sign" /\ mode <> "tanh") \/
  (exists key,
     e = KeyError key /\ data !! key = None /\ key <> "discount" /\
     (key ∈ ["reward"; "is_terminal"; "action"; "is_first"] \/
      exists inp dist,
        (key, dist) ∈ decoder_call
                        (WorldModel.head_decoder (WorldModel.heads self))
                        inp)) \/
  (e = ZeroDivisionError "integer division or modulo by zero" /\
   exists data' action is_first,
     WorldModel.preprocess tf_tanh self data = Ok data' /\
     data' !! "action" = Some action /\
     data' !! "is_first" = Some is_first /\
     WorldModel.sample_batch draws
       (concat (observed_feat self data' action is_first state)) 400 = []).
Proof.
  intros mode He.
  pose proof (loss_cases tf_tanh self data state draws) as Hl.
  cbv zeta in Hl. rewrite He in Hl.
  destruct (WorldModel.preprocess tf_tanh self data) as [data'|e'] eqn:Hpre.
  2:{ injection Hl as ->.
      destruct (preprocess_raise_key _ _ _ _ Hpre)
        as [Hmode|[[-> Hr]|[-> Hit]]].
      - right. left. exact Hmode.
      - right. right. left. exists "reward".
        repeat split; [exact Hr|discriminate|left; repeat constructor].
      - right. right. left. exists "is_terminal".
        repeat split; [exact Hit|discriminate|left; repeat constructor]. }
  pose proof (preprocess_keys _ _ _ _ Hpre) as Hkeys.
  assert (Hmiss : forall key, data' !! key = None ->
                              key <> "discount" /\ data !! key = None).
  { intros key Hnone. split.
    - intros ->. destruct (proj2 (Hkeys "discount") (or_introl eq_refl)).
      congruence.
    - destruct (data !! key) eqn:Hk; [|reflexivity].
      destruct (proj2 (Hkeys key)) as [? ?]; [right; eauto|congruence]. }
  destruct (data' !! "action") as [action|] eqn:Ha.
  2:{ injection Hl as ->. right. right. left. exists "action".
      destruct (Hmiss _ Ha) as [Hd Hn].
      repeat split; [exact Hn|exact Hd|left; repeat constructor]. }
  destruct (data' !! "is_first") as [is_first|] eqn:Hf.
  2:{ injection Hl as ->. right. right. left. exists "is_first".
      destruct (Hmiss _ Hf) as [Hd Hn].
      repeat split; [exact Hn|exact Hd|left; repeat constructor]. }
  destruct (decide _) as [Hrank|Hrank].
  2:{ injection Hl as ->. left. reflexivity. }
  pose proof (head_terms_cases self data'
    (observed_feat self data' action is_first state)
    (WorldModel.scalar (observed_kl self data' action is_first state)))
    as Hh.
  destruct (head_terms _ _ _ _) as [terms|e'].
  { destruct (WorldModel.relaxed_distortion_measure _ _ _ _)
      as [measure|e'] eqn:Hiso.
    - destruct Hl as (? & ? & ? & Hl & _). discriminate.
    - injection Hl as ->.
      apply relaxed_distortion_measure_raise in Hiso as [-> Hnil].
      right. right. right. split; [reflexivity|].
      exists data', action, is_first. auto. }
  injection Hl as ->. destruct Hh as (key & -> & Hnone & Hkey).
  destruct (Hmiss _ Hnone) as [Hd Hn].
  right. right. left. exists key. repeat split; [exact Hn|exact Hd|].
  destruct Hkey as [Hdec|[->|[-> _]]].
  - right. exact Hdec.
  - left. repeat constructor.
  - contradiction.
Qed.

Lemma loss_errors_witness :
  WorldModel.loss id (Demo.wm false) ∅ None Demo.draws
    = Raise (KeyError "reward") /\
  (KeyError "reward" = AssertionError EmptyString \/
   (KeyError "reward" = KeyError "identity" /\
    "identity" <> "identity" /\ "identity" <> "sign" /\
    "identity" <> "tanh") \/
   (exists key,
      KeyError "reward" = KeyError key /\
      (∅ : gmap string NDArray) !! key = None /\ key <> "discount" /\
      (key ∈ ["reward"; "is_terminal"; "action"; "is_first"] \/
       exists inp dist,
         (key, dist) ∈ decoder_call Demo.decoder inp)) \/
   (KeyError "reward"
      = ZeroDivisionError "integer division or modulo by zero" /\
    exists data' action is_first,
      WorldModel.preprocess id (Demo.wm false) ∅ = Ok data' /\
      data' !! "action" = Some action /\
      data' !! "is_first" = Some is_first /\
      WorldModel.sample_batch Demo.draws
        (concat (observed_feat (Demo.wm false) data' action is_first None))
        400 = [])).
Proof.
  assert (H : WorldModel.loss id (Demo.wm false) ∅ None Demo.draws
              = Raise (KeyError "reward")) by (vm_compute; reflexivity).
  split; [exact H|].
  exact (loss_errors id (Demo.wm false) ∅ None Demo.draws _ H).
Defined.




(** ** [WorldModel.__init__] *)

(** X19. A world model that [__init__] returns keeps the configuration and
    [iso_reg], has the heads 'decoder', 'reward' and, exactly when
    [pred_discount] is set, 'discount' (the head built for it), and every
    name of [grad_heads] is one of its heads.  Built without
    [pred_discount], it imagines with the configured discount at every
    step and batch item, whatever [is_terminal] is. *)
Theorem init_invariants
    (config : Config) (built : WorldModel.Built) (iso : Qc)
    (wm : WorldModel.t) :
  WorldModel.__init__ config built iso = Ok wm ->
  WorldModel.config wm = config /\
  WorldModel.iso_reg wm = iso /\
  WorldModel.heads_keys (WorldModel.heads wm) = registered_heads config /\
  WorldModel.head_discount (WorldModel.heads wm) =
    (if pred_discount config then Some (WorldModel.built_discount built)
     else None) /\
  (forall name, name ∈ grad_heads config ->
                name ∈ WorldModel.heads_keys (WorldModel.heads wm)) /\
  (pred_discount config = false ->
   forall policy start is_terminal horizon seeds,
     let s := WorldModel.imagine wm policy start is_terminal horizon seeds in
     WorldModel.seq_discount s =
     map (map (fun _ => discount config)) (WorldModel.seq_feat s)).
Proof.
  unfold WorldModel.__init__. intros H.
  destruct (WorldModel.assert_grad_heads _ _) as [[]|e] eqn:Ha;
    [|discriminate].
  cbn [mbind result_bind] in H. injection H as <-.
  cbn [WorldModel.config WorldModel.iso_reg WorldModel.heads
       WorldModel.head_discount].
  split; [reflexivity|]. split; [reflexivity|].
  split; [unfold WorldModel.heads_keys, registered_heads;
          destruct (pred_discount config); reflexivity|].
  split; [reflexivity|]. split.
  - intros name Hin. exact (proj1 (assert_grad_heads_ok _ _) Ha name Hin).
  - intros Hpred policy start is_terminal horizon seeds.
    rewrite imagine_no_head_discount.
    + reflexivity.
    + cbn [WorldModel.heads WorldModel.head_discount]. rewrite Hpred.
      reflexivity.
Qed.

Lemma init_invariants_witness :
  exists wm,
    WorldModel.__init__ (Demo.cfg_heads ["reward"]) Demo.built (Q2Qc (1 # 10))
      = Ok wm /\
    WorldModel.iso_reg wm = Q2Qc (1 # 10) /\
    WorldModel.seq_discount
      (WorldModel.imagine wm Demo.actor Demo.start (Some Demo.is_terminal)
         3 Demo.seeds) =
    map (map (fun _ => discount (Demo.cfg_heads ["reward"])))
        (WorldModel.seq_feat
           (WorldModel.imagine wm Demo.actor Demo.start
              (Some Demo.is_terminal) 3 Demo.seeds)).
Proof.
  destruct (WorldModel.__init__ (Demo.cfg_heads ["reward"]) Demo.built
              (Q2Qc (1 # 10))) as [wm|e] eqn:H.
  - exists wm. split; [reflexivity|].
    destruct (init_invariants _ _ _ _ H) as (_ & Hiso & _ & _ & _ & Himg).
    split; [exact Hiso|]. apply Himg. reflexivity.
  - exfalso. vm_compute in H. discriminate.
Defined.

(** ** [WorldModel.sample_batch] *)

(** X20. For a positive [ratio], and a shuffle that returns a permutation
    of the row indices, [sample_batch] returns [len(z) // ratio] rows of
    [z], taken at distinct indices: it samples without replacement. *)
Theorem sample_batch_subsample
    (draws : WorldModel.Draws) (z : list Feat) (ratio : nat) :
  (0 < ratio)%nat ->
  WorldModel.sample_shuffle draws (length z) ≡ₚ seq 0 (length z) ->
  exists indices,
    WorldModel.sample_batch draws z ratio =
      map (fun i => nth i z []) indices /\
    length indices = (length z / ratio)%nat /\
    NoDup indices /\
    Forall (fun i => (i < length z)%nat) indices /\
    length (WorldModel.sample_batch draws z ratio)
      = (length z / ratio)%nat /\
    forall row, row ∈ WorldModel.sample_batch draws z ratio -> row ∈ z.
Proof.
  intros Hratio Hperm. unfold WorldModel.sample_batch, WorldModel.gather.
  set (n := length z) in *.
  set (indices := take (n / ratio) (WorldModel.sample_shuffle draws n)).
  assert (Hlen : length indices = (n / ratio)%nat).
  { subst indices. rewrite length_take.
    rewrite (Permutation_length Hperm), length_seq.
    assert (n / ratio <= n)%nat; [|lia].
    apply Nat.Div0.div_le_upper_bound. nia. }
  assert (Hall : Forall (fun i => (i < n)%nat) indices).
  { apply list.Forall_forall. intros i Hi.
    assert (Hin : i ∈ WorldModel.sample_shuffle draws n).
    { subst indices.
      apply elem_of_take in Hi as (k & Hk & _).
      eapply list_elem_of_lookup_2. exact Hk. }
    rewrite Hperm in Hin. apply elem_of_seq in Hin. lia. }
  exists indices. split; [reflexivity|]. split; [exact Hlen|]. split.
  { subst indices. eapply sublist_NoDup; [|apply sublist_take].
    rewrite Hperm. apply NoDup_seq. }
  split; [exact Hall|]. split; [rewrite length_map; exact Hlen|].
  intros row Hrow. apply list_elem_of_fmap in Hrow as (i & -> & Hi).
  assert (Hlt : (i < n)%nat).
  { apply (proj1 (list.Forall_forall _ _) Hall). exact Hi. }
  rewrite nth_lookup.
  destruct (lookup_lt_length_Some z i Hlt) as [row Hrow].
  rewrite Hrow. simpl. eapply list_elem_of_lookup_2. exact Hrow.
Qed.

Lemma sample_batch_subsample_witness :
  exists indices,
    WorldModel.sample_batch Demo.draws (replicate 800 [1; Qc_of_Z 2]) 400 =
      map (fun i => nth i (replicate 800 [1; Qc_of_Z 2]) []) indices /\
    length indices = 2%nat.
Proof.
  destruct (sample_batch_subsample Demo.draws (replicate 800 [1; Qc_of_Z 2])
              400) as (indices & Heq & Hlen & _).
  - lia.
  - reflexivity.
  - exists indices. split; [exact Heq|].
    rewrite Hlen, length_replicate. reflexivity.
Defined.

(** ** The distortion measure as a squared residual *)

Lemma big_sum_add (n : nat) (f g : nat -> Qc) :
  big_sum n (fun i => f i + g i) = big_sum n f + big_sum n g.
Proof.
  unfold big_sum. induction (seq 0 n) as [|k l IH]; simpl.
  - ring.
  - rewrite IH. ring.
Qed.

Lemma big_sum_scale (n : nat) (c : Qc) (f : nat -> Qc) :
  big_sum n (fun i => c * f i) = c * big_sum n f.
Proof. unfold big_sum. apply reduce_sum_scale. Qed.

Lemma big_sum_lin (n : nat) (c : Qc) (f g : nat -> Qc) :
  big_sum n (fun i => f i + c * g i) = big_sum n f + c * big_sum n g.
Proof. rewrite big_sum_add, big_sum_scale. reflexivity. Qed.

Lemma big_sum_swap (n m : nat) (f : nat -> nat -> Qc) :
  big_sum n (fun i => big_sum m (fun j => f i j)) =
  big_sum m (fun j => big_sum n (fun i => f i j)).
Proof.
  unfold big_sum. generalize (seq 0 m) as l2. generalize (seq 0 n) as l1.
  induction l1 as [|i l1 IH]; intros l2; simpl.
  - induction l2 as [|j l2 IH2]; simpl; [reflexivity|].
    rewrite <- IH2. ring.
  - rewrite IH. clear IH.
    induction l2 as [|j l2 IH2]; simpl; [ring|].
    rewrite <- IH2. ring.
Qed.

Lemma Qc_square_nonneg (x : Qc) : 0 <= x * x.
Proof.
  destruct (Qclt_le_dec x 0) as [Hneg|Hpos].
  - replace (x * x) with ((- x) * (- x)) by ring.
    assert (H : 0 <= - x).
    { pose proof (proj1 (Qcle_minus_iff x 0) (Qclt_le_weak _ _ Hneg)) as H.
      replace (0 + - x) with (- x) in H by ring. exact H. }
    apply Qcmult_nonneg_nonneg; exact H.
  - apply Qcmult_nonneg_nonneg; exact Hpos.
Qed.

Lemma big_sum_nonneg (n : nat) (f : nat -> Qc) :
  (forall i, 0 <= f i) -> 0 <= big_sum n f.
Proof.
  intros H. unfold big_sum. induction (seq 0 n) as [|k l IH]; simpl.
  - apply Qcle_refl.
  - apply Qcplus_nonneg_nonneg; [apply H|exact IH].
Qed.

Lemma Qc_of_nat_inv_nonneg (n : nat) : 0 <= / Qc_of_nat n.
Proof.
  destruct n as [|n].
  - apply Qcle_refl.
  - apply Qclt_le_weak. apply Qcinv_pos.
    unfold Qc_of_nat, Qc_of_Z, Qclt. simpl. rewrite Qred_correct.
    unfold Qlt. simpl. lia.
Qed.

Lemma get_rsub (x y : list Qc) (b : nat) :
  length x = length y -> get (rsub x y) b = get x b - get y b.
Proof.
  intros H. unfold get, rsub. rewrite lookup_zip_with.
  destruct (x !! b) as [p|] eqn:Hx; simpl.
  - destruct (lookup_lt_length_Some y b) as [q Hq].
    { rewrite <- H. apply lookup_lt_is_Some_1. eauto. }
    rewrite Hq. reflexivity.
  - apply lookup_ge_None_1 in Hx. rewrite H in Hx.
    apply lookup_ge_None_2 in Hx. rewrite Hx. simpl. ring.
Qed.

(** [<J^T u, v> = <u, J v>]. *)
Lemma vjp_adjoint (obs_dim F : nat) (J : list (list Qc)) (u v : list Qc) :
  big_sum F (fun j => get (vjp obs_dim F J u) j * get v j) =
  big_sum obs_dim (fun i => get u i * get (jvp obs_dim F J v) i).
Proof.
  transitivity
    (big_sum F (fun j =>
       big_sum obs_dim (fun i => get u i * (at2 J i j * get v j)))).
  { apply big_sum_ext. intros j Hj. unfold vjp.
    rewrite get_map_seq by exact Hj.
    rewrite Qcmult_comm, <- big_sum_scale.
    apply big_sum_ext. intros i _. ring. }
  rewrite big_sum_swap. apply big_sum_ext. intros i Hi. unfold jvp.
  rewrite get_map_seq by exact Hi. rewrite big_sum_scale. reflexivity.
Qed.

(** For one sample: [|J^T J v|^2 - 2 |J v|^2 = |J^T J v - v|^2 - |v|^2]. *)
Lemma distortion_sample (obs_dim F : nat) (J : list (list Qc))
    (v : list Qc) :
  length v = F ->
  let u := jvp obs_dim F J v in
  let w := vjp obs_dim F J u in
  sq_norm w - Qc_of_Z 2 * sq_norm u = sq_norm (rsub w v) - sq_norm v.
Proof.
  intros Hv u w.
  assert (Hu : length u = obs_dim)
    by (subst u; unfold jvp; rewrite length_map, length_seq; reflexivity).
  assert (Hw : length w = F)
    by (subst w; unfold vjp; rewrite length_map, length_seq; reflexivity).
  assert (Hr : length (rsub w v) = F)
    by (unfold rsub; rewrite length_zip_with; lia).
  assert (H2 : Qc_of_Z 2 = 1 + 1) by (apply Qc_is_canon; reflexivity).
  unfold sq_norm. rewrite Hu, Hw, Hr, Hv.
  assert (Hcross :
    big_sum F (fun j => get w j * get v j) =
    big_sum obs_dim (fun i => get u i * get u i))
    by (subst w u; apply vjp_adjoint).
  assert (Hres :
    big_sum F (fun i => get (rsub w v) i * get (rsub w v) i) =
    big_sum F (fun j => get w j * get w j)
    + (- (1 + 1) * big_sum F (fun j => get w j * get v j)
       + big_sum F (fun j => get v j * get v j))).
  { rewrite <- big_sum_scale, <- !big_sum_add.
    apply big_sum_ext. intros j _.
    rewrite get_rsub by congruence. ring. }
  rewrite Hres, Hcross, H2. ring.
Qed.

Lemma mean_sq_norm_zip {A B} (f : A -> B -> list Qc)
    (xs : list A) (ys : list B) (n : nat) (dx : A) (dy : B) :
  length xs = n -> length ys = n ->
  mean_sq_norm (zip_with f xs ys) =
  big_sum n (fun b =>
    sq_norm (f (default dx (xs !! b)) (default dy (ys !! b))))
  / Qc_of_nat n.
Proof.
  intros Hx Hy. unfold mean_sq_norm.
  rewrite length_zip_with, Hx, Hy, Nat.min_id. f_equal.
  apply big_sum_ext. intros b Hb. rewrite lookup_zip_with.
  destruct (lookup_lt_length_Some xs b) as [x Hxb]; [lia|].
  destruct (lookup_lt_length_Some ys b) as [y Hyb]; [lia|].
  rewrite Hxb, Hyb. reflexivity.
Qed.

(** X21. For Jacobians [J] and directions [v] of one non-empty batch,
    on a non-empty sample of the features,
    [relaxed_distortion_measure] returns
    [mean |J^T J v - v|^2 - mean |v|^2 + 2]: it measures how far
    [J^T J] is from the identity along [v].  Hence it is never below
    [2 - mean |v|^2], the value it takes when [J^T J v = v] for every
    sample. *)
Theorem relaxed_distortion_measure_residual
    (func : Decoder) (feat : list (list Feat)) (eta : Qc)
    (draws : WorldModel.Draws) (obs_dim F : nat) :
  let J := estim_obs_jacobian func (perturbed_features feat eta draws) in
  let v := direction feat draws in
  let u := zip_with (jvp obs_dim F) J v in
  let w := zip_with (vjp obs_dim F) J u in
  let residual := zip_with rsub w v in
  WorldModel.sample_batch draws (concat feat) 400 <> [] ->
  Forall (has_shape obs_dim F) J ->
  Forall (fun vb => length vb = F) v ->
  (1 <= obs_dim)%nat ->
  length J = length v -> (0 < length v)%nat ->
  exists measure,
    WorldModel.relaxed_distortion_measure func feat eta draws = Ok measure /\
    measure = mean_sq_norm residual - mean_sq_norm v + Qc_of_Z 2 /\
    Qc_of_Z 2 - mean_sq_norm v <= measure /\
    (w = v -> measure = Qc_of_Z 2 - mean_sq_norm v).
Proof.
  intros J v u w residual Hnonempty HJ Hv Hpos Hlen Hne.
  set (measure :=
         mean_sq_norm w - Qc_of_Z 2 * mean_sq_norm u + Qc_of_Z 2).
  assert (Hrun : WorldModel.relaxed_distortion_measure func feat eta draws
                 = Ok measure).
  { subst measure w u.
    apply (relaxed_distortion_measure_terms func feat eta draws obs_dim F);
      assumption. }
  exists measure. split; [exact Hrun|]. clear Hrun Hnonempty.
  set (n := length v) in *.
  set (a := fun b : nat =>
    sq_norm (vjp obs_dim F (default [] (J !! b))
               (jvp obs_dim F (default [] (J !! b))
                              (default [] (v !! b))))).
  set (c := fun b : nat =>
    sq_norm (jvp obs_dim F (default [] (J !! b)) (default [] (v !! b)))).
  set (r := fun b : nat =>
    sq_norm (rsub (vjp obs_dim F (default [] (J !! b))
                     (jvp obs_dim F (default [] (J !! b))
                                    (default [] (v !! b))))
                  (default [] (v !! b)))).
  set (s := fun b : nat => sq_norm (default [] (v !! b))).
  assert (Hu : length u = n)
    by (subst u; rewrite length_zip_with; lia).
  assert (Hw : length w = n)
    by (subst w; rewrite length_zip_with; lia).
  assert (Hm : measure =
            mean_sq_norm w - Qc_of_Z 2 * mean_sq_norm u + Qc_of_Z 2)
    by reflexivity.
  clearbody measure.
  assert (Hmu : mean_sq_norm u = big_sum n c / Qc_of_nat n)
    by (subst u; apply mean_sq_norm_zip; [exact Hlen|reflexivity]).
  assert (Hub : forall b, (b < n)%nat ->
    default [] (u !! b) =
    jvp obs_dim F (default [] (J !! b)) (default [] (v !! b))).
  { intros b Hb. subst u. rewrite lookup_zip_with.
    destruct (lookup_lt_length_Some J b) as [x Hxb]; [lia|].
    destruct (lookup_lt_length_Some v b) as [y Hyb]; [exact Hb|].
    rewrite Hxb, Hyb. reflexivity. }
  assert (Hwb : forall b, (b < n)%nat ->
    default [] (w !! b) =
    vjp obs_dim F (default [] (J !! b))
      (jvp obs_dim F (default [] (J !! b)) (default [] (v !! b)))).
  { intros b Hb. rewrite <- (Hub b Hb). subst w. rewrite lookup_zip_with.
    destruct (lookup_lt_length_Some J b) as [x Hxb]; [lia|].
    destruct (lookup_lt_length_Some u b) as [y Hyb]; [lia|].
    rewrite Hxb, Hyb. reflexivity. }
  assert (Hmw : mean_sq_norm w = big_sum n a / Qc_of_nat n).
  { unfold mean_sq_norm. rewrite Hw. f_equal.
    apply big_sum_ext. intros b Hb. rewrite (Hwb b Hb). reflexivity. }
  assert (Hmr : mean_sq_norm residual = big_sum n r / Qc_of_nat n).
  { subst residual.
    rewrite (mean_sq_norm_zip _ w v n [] []) by (assumption || reflexivity).
    f_equal. apply big_sum_ext. intros b Hb. rewrite (Hwb b Hb).
    reflexivity. }
  assert (Hmv : mean_sq_norm v = big_sum n s / Qc_of_nat n)
    by reflexivity.
  assert (Hsample : forall b, (b < n)%nat ->
            a b - Qc_of_Z 2 * c b = r b - s b).
  { intros b Hb. subst a c r s. cbv beta.
    destruct (lookup_lt_length_Some v b Hb) as [vb Hvb].
    rewrite Hvb. cbn [default from_option id].
    exact (distortion_sample obs_dim F (default [] (J !! b)) vb
             (proj1 (list.Forall_lookup _ _) Hv b vb Hvb)). }
  assert (Hsum : big_sum n a - Qc_of_Z 2 * big_sum n c
                 = big_sum n r - big_sum n s).
  { transitivity (big_sum n (fun b => a b + - Qc_of_Z 2 * c b)).
    { rewrite big_sum_lin. ring. }
    transitivity (big_sum n (fun b => r b + - (1) * s b)).
    2:{ rewrite big_sum_lin. ring. }
    apply big_sum_ext. intros b Hb.
    transitivity (a b - Qc_of_Z 2 * c b); [ring|].
    rewrite (Hsample b Hb). ring. }
  assert (Hid : measure =
            mean_sq_norm residual - mean_sq_norm v + Qc_of_Z 2).
  { rewrite Hm, Hmw, Hmu, Hmr, Hmv. unfold Qcdiv.
    transitivity
      ((big_sum n a - Qc_of_Z 2 * big_sum n c) * / Qc_of_nat n
       + Qc_of_Z 2); [ring|].
    rewrite Hsum. ring. }
  split; [exact Hid|]. split.
  - rewrite Hid. apply Qcle_minus_iff.
    replace (mean_sq_norm residual - mean_sq_norm v + Qc_of_Z 2
             + - (Qc_of_Z 2 - mean_sq_norm v))
      with (mean_sq_norm residual) by ring.
    unfold mean_sq_norm, Qcdiv. apply Qcmult_nonneg_nonneg.
    + apply big_sum_nonneg. intros b. unfold sq_norm.
      apply big_sum_nonneg. intros i. apply Qc_square_nonneg.
    + apply Qc_of_nat_inv_nonneg.
  - intros Hwv. rewrite Hid.
    assert (Hzero : mean_sq_norm residual = 0).
    { rewrite Hmr. unfold Qcdiv.
      assert (Hr0 : big_sum n r = 0).
      { transitivity (big_sum n (fun _ => 0 * 0)).
        - apply big_sum_ext. intros b Hb. subst r. cbv beta.
          rewrite <- (Hwb b Hb), Hwv.
          unfold sq_norm. transitivity (big_sum
            (length (rsub (default [] (v !! b)) (default [] (v !! b))))
            (fun _ => 0 * 0)).
          + apply big_sum_ext. intros i _.
            rewrite get_rsub by reflexivity. ring.
          + rewrite big_sum_scale. ring.
        - rewrite big_sum_scale. ring. }
      rewrite Hr0. ring. }
    rewrite Hzero. ring.
Qed.

Lemma relaxed_distortion_measure_residual_witness :
  exists measure,
    WorldModel.relaxed_distortion_measure Demo.decoder_iso
      [replicate 400 [1; Qc_of_Z 2]] (Q2Qc (2 # 10)) Demo.draws
      = Ok measure /\
    Qc_of_Z 2
    - mean_sq_norm (direction [replicate 400 [1; Qc_of_Z 2]] Demo.draws)
    <= measure.
Proof.
  assert (Hsample : WorldModel.sample_batch Demo.draws
                      (concat [replicate 400 [1; Qc_of_Z 2]]) 400 <> [])
    by (vm_compute; discriminate).
  assert (HJ : Forall (has_shape 2 2)
    (estim_obs_jacobian Demo.decoder_iso
       (perturbed_features [replicate 400 [1; Qc_of_Z 2]] (Q2Qc (2 # 10))
                           Demo.draws))).
  { vm_compute. repeat constructor. }
  assert (Hv : Forall (fun vb : list Qc => length vb = 2%nat)
                 (direction [replicate 400 [1; Qc_of_Z 2]] Demo.draws)).
  { vm_compute. repeat constructor. }
  assert (Hlen :
    length (estim_obs_jacobian Demo.decoder_iso
       (perturbed_features [replicate 400 [1; Qc_of_Z 2]] (Q2Qc (2 # 10))
                           Demo.draws)) =
    length (direction [replicate 400 [1; Qc_of_Z 2]] Demo.draws))
    by (vm_compute; reflexivity).
  assert (Hne : Nat.lt 0 (length (direction [replicate 400 [1; Qc_of_Z 2]]
                                    Demo.draws)))
    by (vm_compute; lia).
  assert (Hobs : (1 <= 2)%nat) by lia.
  destruct (relaxed_distortion_measure_residual
    Demo.decoder_iso [replicate 400 [1; Qc_of_Z 2]] (Q2Qc (2 # 10))
    Demo.draws 2 2 Hsample HJ Hv Hobs Hlen Hne)
    as (measure & Hrun & _ & Hbound & _).
  exists measure. split; [exact Hrun|exact Hbound].
Defined.

(** ** The batch dimension of [WorldModel.imagine] *)

Lemma imagine_latent_eq self policy start is_terminal horizon seeds :
  let s := WorldModel.imagine self policy start is_terminal horizon seeds in
  WorldModel.seq_latent s =
    concat start :: map fst (rollout self policy seeds horizon 0
                               (concat start)) /\
  WorldModel.seq_feat s =
    map (map (get_feat (WorldModel.rssm self))) (WorldModel.seq_latent s).
Proof.
  intros s. subst s. unfold WorldModel.imagine. cbv zeta.
  pose proof (imagine_loop self policy seeds horizon 0 [] [] []
                (concat start)
                (zeros_like (sp_mode (actor_step policy
                   (map (get_feat (WorldModel.rssm self)) (concat start))))))
    as Hloop.
  cbn [app] in Hloop. rewrite Hloop.
  cbn [WorldModel.seq_latent WorldModel.seq_feat app].
  split; [reflexivity|]. cbn [map]. f_equal. rewrite map_map. reflexivity.
Qed.

Lemma rollout_batch self policy seeds (n : nat) :
  (forall state action,
     length (img_step (WorldModel.rssm self) state action) = length state) ->
  forall (a : nat) (l : list Latent),
    Forall (fun r => length r = length l)
           (map fst (rollout self policy seeds n a l)).
Proof.
  intros Hstep. induction n as [|n IH]; intros a l; cbn [rollout map fst].
  - constructor.
  - constructor; [apply Hstep|].
    specialize (IH (S a)
      (img_step (WorldModel.rssm self) l
         (sp_sample (actor_step policy
            (map (get_feat (WorldModel.rssm self)) l)) (seeds a)))).
    rewrite Hstep in IH. exact IH.
Qed.

Lemma shifted_cumprod_shape (T B : nat) (disc : Seq2) :
  has_shape T B disc ->
  has_shape T B (cumprod (ones_like (take 1 disc) ++ drop_last 1 disc)).
Proof.
  intros [Hlen Hrows]. destruct disc as [|d0 rest].
  { simpl in *. split; [exact Hlen|constructor]. }
  assert (Heq : ones_like (take 1 (d0 :: rest)) ++ drop_last 1 (d0 :: rest)
                = map (fun _ : Qc => 1) d0 :: take (length rest) (d0 :: rest)).
  { unfold drop_last. simpl. rewrite Nat.sub_0_r. reflexivity. }
  rewrite Heq. split.
  - rewrite cumprod_length, length_take. simpl in *. lia.
  - apply cumprod_shape.
    + rewrite length_map. exact (Forall_inv Hrows).
    + apply Forall_take. exact Hrows.
Qed.

(** X22. When [img_step] keeps the number of batch items, every step of
    the imagined states and features has as many items as the flattened
    start; without a discount head the discounts and the weights then have
    shape (horizon + 1, items); and the weights always have the shape of
    the discounts. *)
Theorem imagine_batch_shape
    (self : WorldModel.t) (policy : Actor) (start : list (list Latent))
    (is_terminal : option NDArray) (horizon : nat) (seeds : nat -> Seed) :
  let s := WorldModel.imagine self policy start is_terminal horizon seeds in
  let B := length (concat start) in
  (forall state action,
     length (img_step (WorldModel.rssm self) state action) = length state) ->
  Forall (fun r => length r = B) (WorldModel.seq_latent s) /\
  Forall (fun r => length r = B) (WorldModel.seq_feat s) /\
  (WorldModel.head_discount (WorldModel.heads self) = None ->
   has_shape (S horizon) B (WorldModel.seq_discount s) /\
   has_shape (S horizon) B (WorldModel.seq_weight s)) /\
  (forall T, has_shape T B (WorldModel.seq_discount s) ->
             has_shape T B (WorldModel.seq_weight s)).
Proof.
  intros s B Hstep.
  destruct (imagine_latent_eq self policy start is_terminal horizon seeds)
    as [Hlat Hfeat].
  fold s in Hlat, Hfeat.
  assert (HL : Forall (fun r => length r = B) (WorldModel.seq_latent s)).
  { rewrite Hlat. constructor; [reflexivity|].
    apply rollout_batch. exact Hstep. }
  assert (HF : Forall (fun r => length r = B) (WorldModel.seq_feat s)).
  { rewrite Hfeat. apply Forall_map.
    eapply Forall_impl; [|exact HL]. intros r Hr. simpl.
    rewrite length_map. exact Hr. }
  assert (HW : forall T, has_shape T B (WorldModel.seq_discount s) ->
                         has_shape T B (WorldModel.seq_weight s)).
  { intros T HT. subst s. rewrite imagine_weight_eq. cbv zeta.
    apply shifted_cumprod_shape. exact HT. }
  split; [exact HL|]. split; [exact HF|]. split; [|exact HW].
  intros Hhead.
  assert (HD : has_shape (S horizon) B (WorldModel.seq_discount s)).
  { subst s. rewrite imagine_no_head_discount by exact Hhead. split.
    - rewrite length_map. apply imagine_feat_length.
    - apply Forall_map. eapply Forall_impl; [|exact HF].
      intros r Hr. simpl. rewrite length_map. exact Hr. }
  split; [exact HD|]. apply HW. exact HD.
Qed.

Lemma imagine_batch_shape_witness :
  has_shape 4 2
    (WorldModel.seq_weight
       (WorldModel.imagine (Demo.wm false) Demo.actor Demo.start
          (Some Demo.is_terminal) 3 Demo.seeds)).
Proof.
  assert (Hstep : forall state action,
            length (img_step (WorldModel.rssm (Demo.wm false)) state action)
            = length state) by reflexivity.
  destruct (imagine_batch_shape (Demo.wm false) Demo.actor Demo.start
              (Some Demo.is_terminal) 3 Demo.seeds Hstep)
    as (_ & _ & Hnone & _).
  exact (proj2 (Hnone eq_refl)).
Defined.

(** ** The gradient modes of [ActorCritic.actor_loss] *)

Lemma mean2_ext (T B : nat) (x y : Seq2) :
  has_shape T B x -> has_shape T B y ->
  (forall t b, (t < T)%nat -> (b < B)%nat -> at2 x t b = at2 y t b) ->
  mean2 x = mean2 y.
Proof.
  intros Hx Hy H. rewrite (mean2_big_sum T B x Hx), (mean2_big_sum T B y Hy).
  f_equal. apply big_sum_ext. intros t Ht. apply big_sum_ext. intros b Hb.
  apply H; assumption.
Qed.

Lemma mean2_lin (T B : nat) (a b : Qc) (x y : Seq2) :
  has_shape T B x -> has_shape T B y ->
  mean2 (tadd (tscale a x) (tscale b y)) = a * mean2 x + b * mean2 y.
Proof.
  intros Hx Hy.
  assert (Hs : has_shape T B (tadd (tscale a x) (tscale b y)))
    by (apply has_shape_zip; apply has_shape_tscale; assumption).
  rewrite (mean2_big_sum T B _ Hs), (mean2_big_sum T B x Hx),
    (mean2_big_sum T B y Hy).
  unfold Qcdiv.
  transitivity
    ((a * big_sum T (fun t => big_sum B (fun j => at2 x t j))
      + b * big_sum T (fun t => big_sum B (fun j => at2 y t j)))
     * / Qc_of_nat (T * B)); [|ring].
  f_equal. rewrite <- !big_sum_scale, <- big_sum_add.
  apply big_sum_ext. intros t _.
  rewrite <- !big_sum_scale, <- big_sum_add.
  apply big_sum_ext. intros j _.
  rewrite (at2_tadd T B) by (apply has_shape_tscale; assumption).
  rewrite !at2_tscale. reflexivity.
Qed.

(** X23. With [actor_grad = 'both'] the actor loss is the mix of the
    losses of the two other modes on the same inputs:
    [mix * loss('dynamics') + (1 - mix) * loss('reinforce')], with
    [mix] the scheduled [actor_grad_mix], which is also reported as the
    metric 'actor_grad_mix'. *)
Theorem actor_loss_both_mixes
    (self : ActorCritic.t) (seq : WorldModel.Seq) (target : Seq2)
    (tfstep T B : nat) :
  let cfg := ActorCritic.config self in
  let mix := schedule (actor_grad_mix cfg) tfstep in
  let feat := drop_last 2 (WorldModel.seq_feat seq) in
  let policy := actor_seq (ActorCritic.actor self) feat in
  let baseline := d_mode (ActorCritic._target_critic self feat) in
  let action := drop 1 (drop_last 1 (WorldModel.seq_action seq)) in
  actor_grad cfg = "both" ->
  has_shape T B (drop_last 2 (WorldModel.seq_weight seq)) ->
  has_shape T B (drop 1 target) ->
  has_shape T B baseline ->
  has_shape T B (log_prob policy action) ->
  has_shape T B (entropy policy) ->
  exists both dyn rein m1 m2 m3,
    ActorCritic.actor_loss self seq target tfstep = Ok (both, m1) /\
    ActorCritic.actor_loss (with_actor_grad self "dynamics") seq target
      tfstep = Ok (dyn, m2) /\
    ActorCritic.actor_loss (with_actor_grad self "reinforce") seq target
      tfstep = Ok (rein, m3) /\
    both = mix * dyn + (1 - mix) * rein /\
    m1 !! "actor_grad_mix" = Some mix.
Proof.
  intros cfg mix feat policy baseline action Hgrad Hw Hd Hb Hlp He.
  unfold ActorCritic.actor_loss, ActorCritic.actor_objective.
  fold cfg. rewrite Hgrad.
  cbn [ActorCritic.config with_actor_grad actor_grad ActorCritic.actor
       actor_grad_mix actor_ent].
  rewrite (decide_False (P := "both" = "dynamics")) by discriminate.
  rewrite (decide_False (P := "both" = "reinforce")) by discriminate.
  rewrite (decide_True (P := "both" = "both")) by reflexivity.
  rewrite (decide_True (P := "dynamics" = "dynamics")) by reflexivity.
  rewrite (decide_False (P := "reinforce" = "dynamics")) by discriminate.
  rewrite (decide_True (P := "reinforce" = "reinforce")) by reflexivity.
  cbn [mbind result_bind fst snd]. unfold stop_gradient.
  assert (Htc : ActorCritic._target_critic
                  (with_actor_grad self "reinforce") feat
                = ActorCritic._target_critic self feat) by reflexivity.
  fold cfg. fold feat. rewrite Htc. fold policy baseline action mix.
  set (ent_scale := schedule (actor_ent cfg) tfstep).
  set (w := drop_last 2 (WorldModel.seq_weight seq)) in *.
  set (d := drop 1 target) in *.
  set (r := tmul (log_prob policy action) (tsub d baseline)).
  set (e := tscale ent_scale (entropy policy)).
  assert (Hr : has_shape T B r).
  { subst r. apply has_shape_zip; [exact Hlp|].
    apply has_shape_zip; assumption. }
  assert (Hes : has_shape T B e)
    by (subst e; apply has_shape_tscale; exact He).
  assert (Hde : has_shape T B (tadd d e)) by (apply has_shape_zip; assumption).
  assert (Hre : has_shape T B (tadd r e)) by (apply has_shape_zip; assumption).
  assert (Hmixed : has_shape T B (tadd (tscale mix d) (tscale (1 - mix) r)))
    by (apply has_shape_zip; apply has_shape_tscale; assumption).
  do 6 eexists. split; [reflexivity|]. split; [reflexivity|].
  split; [reflexivity|]. split.
  - rewrite (mean2_ext T B
      (tmul w (tadd (tadd (tscale mix d) (tscale (1 - mix) r)) e))
      (tadd (tscale mix (tmul w (tadd d e)))
            (tscale (1 - mix) (tmul w (tadd r e))))).
    + rewrite (mean2_lin T B) by (apply has_shape_zip; assumption). ring.
    + apply has_shape_zip; [exact Hw|].
      apply has_shape_zip; assumption.
    + apply has_shape_zip; apply has_shape_tscale;
        apply has_shape_zip; assumption.
    + intros t b _ _.
      rewrite (at2_tmul T B) by (try assumption; apply has_shape_zip; assumption).
      rewrite (at2_tadd T B _ e) by assumption.
      rewrite (at2_tadd T B (tscale mix d))
        by (apply has_shape_tscale; assumption).
      rewrite (at2_tadd T B (tscale mix (tmul w (tadd d e))))
        by (apply has_shape_tscale; apply has_shape_zip; assumption).
      rewrite !at2_tscale.
      rewrite !(at2_tmul T B w) by assumption.
      rewrite (at2_tadd T B d e), (at2_tadd T B r e) by assumption.
      ring.
  - rewrite !lookup_insert_ne by discriminate. apply lookup_insert_eq.
Qed.

Lemma actor_loss_both_mixes_witness :
  exists both dyn rein m1 m2 m3,
    ActorCritic.actor_loss (Demo.ac 0 "both" 0) Demo.imagined_seq
      [[1; 1]; [1; 1]; [1; 1]] 0 = Ok (both, m1) /\
    ActorCritic.actor_loss (with_actor_grad (Demo.ac 0 "both" 0) "dynamics")
      Demo.imagined_seq [[1; 1]; [1; 1]; [1; 1]] 0 = Ok (dyn, m2) /\
    ActorCritic.actor_loss (with_actor_grad (Demo.ac 0 "both" 0) "reinforce")
      Demo.imagined_seq [[1; 1]; [1; 1]; [1; 1]] 0 = Ok (rein, m3) /\
    both = Q2Qc (1 # 10) * dyn + (1 - Q2Qc (1 # 10)) * rein /\
    m1 !! "actor_grad_mix" = Some (Q2Qc (1 # 10)).
Proof.
  apply (actor_loss_both_mixes (Demo.ac 0 "both" 0) Demo.imagined_seq
           [[1; 1]; [1; 1]; [1; 1]] 0 2 2).
  - reflexivity.
  - split; [vm_compute; reflexivity|vm_compute; repeat constructor].
  - split; [vm_compute; reflexivity|vm_compute; repeat constructor].
  - split; [vm_compute; reflexivity|vm_compute; repeat constructor].
  - split; [vm_compute; reflexivity|vm_compute; repeat constructor].
  - split; [vm_compute; reflexivity|vm_compute; repeat constructor].
Defined.

(** ** Terminal start states in [WorldModel.imagine] *)

Lemma imagine_head_discount self policy start it horizon seeds head :
  let s := WorldModel.imagine self policy start (Some it) horizon seeds in
  WorldModel.head_discount (WorldModel.heads self) = Some head ->
  WorldModel.seq_discount s =
  map (fun x => (1 - x) * discount (WorldModel.config self)) (nd_data it)
  :: drop 1 (d_mean (head (WorldModel.seq_feat s))).
Proof.
  intros s Hhead. subst s. unfold WorldModel.imagine.
  destruct (fold_left _ _ _) as [[latents feats] actions].
  rewrite Hhead. reflexivity.
Qed.

(** X24. With a discount head and [is_terminal] given, the weight of the
    start step is 1 and the weight of the first imagined step is
    [(1 - is_terminal) * config.discount]; so a batch item whose start
    state is terminal has weight 0 at every imagined step, whatever the
    head predicts. *)
Theorem imagine_terminal_start
    (self : WorldModel.t) (policy : Actor) (start : list (list Latent))
    (it : NDArray) (horizon : nat) (seeds : nat -> Seed)
    (head : MLP) (B : nat) :
  let s := WorldModel.imagine self policy start (Some it) horizon seeds in
  let weight := WorldModel.seq_weight s in
  WorldModel.head_discount (WorldModel.heads self) = Some head ->
  has_shape (S horizon) B (d_mean (head (WorldModel.seq_feat s))) ->
  length (nd_data it) = B ->
  forall b, (b < B)%nat ->
    at2 weight 0 b = 1 /\
    ((1 <= horizon)%nat ->
     at2 weight 1 b =
     (1 - get (nd_data it) b) * discount (WorldModel.config self)) /\
    (get (nd_data it) b = 1 ->
     forall t, (1 <= t <= horizon)%nat -> at2 weight t b = 0).
Proof.
  intros s weight Hhead [Hlen Hrows] Hit b Hb.
  pose proof (imagine_head_discount self policy start it horizon seeds head
                Hhead) as Hdisc.
  pose proof (imagine_weight_eq self policy start (Some it) horizon seeds)
    as Hw.
  fold s in Hdisc, Hw. cbv zeta in Hw. fold weight in Hw.
  set (disc := WorldModel.seq_discount s) in *.
  assert (Hshape : Forall (fun r => length r = B) disc).
  { rewrite Hdisc. constructor.
    - rewrite length_map. exact Hit.
    - apply Forall_drop. exact Hrows. }
  assert (Hdlen : length disc = S horizon).
  { rewrite Hdisc. cbn [length]. rewrite length_drop, Hlen. lia. }
  destruct (shifted_cumprod_entries B disc Hshape) as [H0 Hrec].
  rewrite <- Hw in H0, Hrec.
  assert (Hd0 : at2 disc 0 b =
                (1 - get (nd_data it) b) * discount (WorldModel.config self)).
  { destruct (lookup_lt_length_Some (nd_data it) b) as [q Hq]; [lia|].
    unfold get. rewrite Hq. cbn [default from_option id].
    apply (at2_lookup disc 0 b
             (map (fun x => (1 - x) * discount (WorldModel.config self))
                  (nd_data it))).
    - rewrite Hdisc. reflexivity.
    - rewrite lookup_map, Hq. reflexivity. }
  assert (Hw0 : at2 weight 0 b = 1) by (apply H0; lia).
  assert (Hw1 : (1 <= horizon)%nat ->
                at2 weight 1 b =
                (1 - get (nd_data it) b) * discount (WorldModel.config self)).
  { intros Hh. rewrite Hrec by lia. rewrite Hw0, Hd0. ring. }
  split; [exact Hw0|]. split; [exact Hw1|].
  intros Hterm t [Ht1 Ht2].
  destruct t as [|t]; [lia|]. clear Ht1.
  induction t as [|t IH].
  - rewrite Hw1 by lia. rewrite Hterm. ring.
  - rewrite Hrec by lia. rewrite IH by lia. ring.
Qed.

Lemma imagine_terminal_start_witness :
  at2 (WorldModel.seq_weight
         (WorldModel.imagine (Demo.wm true) Demo.actor Demo.start
            (Some Demo.is_terminal) 3 Demo.seeds)) 2 0 = 0.
Proof.
  assert (Hshape : has_shape 4 2
    (d_mean (Demo.const_dist (Q2Qc (1 # 2))
       (WorldModel.seq_feat
          (WorldModel.imagine (Demo.wm true) Demo.actor Demo.start
             (Some Demo.is_terminal) 3 Demo.seeds))))).
  { split; [vm_compute; reflexivity|vm_compute; repeat constructor]. }
  assert (Hb : (0 < 2)%nat) by lia.
  destruct (imagine_terminal_start (Demo.wm true) Demo.actor Demo.start
              Demo.is_terminal 3 Demo.seeds
              (Demo.const_dist (Q2Qc (1 # 2))) 2 eq_refl Hshape eq_refl
              0%nat Hb) as (_ & _ & Hzero).
  apply Hzero; [apply Qc_is_canon; reflexivity|lia].
Defined.

(** ** The likelihoods of [WorldModel.loss] *)

Lemma add_like_raise (data : gmap string NDArray)
    (dists : list (string * Dist)) (e : Error) :
  fold_left (WorldModel.add_like data) dists (Raise e) = Raise e.
Proof. induction dists as [|d dists IH]; [reflexivity|exact IH]. Qed.

Lemma add_like_likes (data : gmap string NDArray)
    (dists : list (string * Dist)) :
  forall acc terms,
    fold_left (WorldModel.add_like data) dists acc = Ok terms ->
    exists terms0, acc = Ok terms0 /\
                   (likes_losses terms0 -> likes_losses terms).
Proof.
  induction dists as [|kd dists IH]; intros acc terms H.
  - simpl in H. exists terms. split; [exact H|tauto].
  - cbn [fold_left] in H. destruct (IH _ _ H) as (t1 & Hacc & Hinv).
    unfold WorldModel.add_like in Hacc.
    destruct acc as [t0|e]; [|discriminate].
    cbn [mbind result_bind] in Hacc. unfold getitem in Hacc.
    destruct (data !! kd.1) as [value|]; [|discriminate].
    cbn [mbind result_bind] in Hacc. injection Hacc as <-.
    exists t0. split; [reflexivity|]. intros H0. apply Hinv.
    intros key like. cbn [fst snd].
    destruct (decide (kd.1 = key)) as [->|Hne].
    + rewrite !lookup_insert_eq. intros [= <-]. reflexivity.
    + rewrite !lookup_insert_ne by exact Hne. apply H0.
Qed.

Lemma add_head_eq (self : WorldModel.t) (data : gmap string NDArray)
    (feat : list (list Feat))
    (acc : result (gmap string Seq2 * gmap string Qc))
    (item : string * (list (list Feat) -> list (string * Dist))) :
  WorldModel.add_head self data feat acc item =
  fold_left (WorldModel.add_like data) (item.2 feat) acc.
Proof.
  unfold WorldModel.add_head, stop_gradient.
  destruct (bool_decide _); reflexivity.
Qed.

Lemma add_like_ok (data : gmap string NDArray)
    (t : gmap string Seq2 * gmap string Qc) (key : string) (dist : Dist) :
  WorldModel.add_like data (Ok t) (key, dist) =
  match data !! key with
  | Some value =>
      Ok (<[key := d_log_prob dist value]> t.1,
          <[key := - mean2 (d_log_prob dist value)]> t.2)
  | None => Raise (KeyError key)
  end.
Proof.
  unfold WorldModel.add_like, getitem. cbn [mbind result_bind fst snd].
  destruct (data !! key); reflexivity.
Qed.

Lemma likes_losses_insert (likes : gmap string Seq2)
    (losses : gmap string Qc) (key : string) (like : Seq2) :
  likes_losses (likes, losses) ->
  likes_losses (<[key := like]> likes, <[key := - mean2 like]> losses).
Proof.
  intros Hinv k l. cbn [fst snd].
  destruct (decide (key = k)) as [<-|Hne].
  - rewrite !lookup_insert_eq. intros [= <-]. reflexivity.
  - rewrite !lookup_insert_ne by exact Hne. apply Hinv.
Qed.

Lemma head_terms_ok (self : WorldModel.t) (data : gmap string NDArray)
    (feat : list (list Feat)) (kl : Qc)
    (terms : gmap string Seq2 * gmap string Qc) :
  head_terms self data feat kl = Ok terms ->
  likes_losses terms /\
  exists reward,
    data !! "reward" = Some reward /\
    terms.1 !! "reward" =
      Some (d_log_prob
              (WorldModel.head_reward (WorldModel.heads self) feat) reward).
Proof.
  unfold head_terms, WorldModel.heads_items.
  cbn [fold_left app]. rewrite !add_head_eq. cbn [fst snd fold_left].
  assert (H0 : likes_losses (∅, {["kl" := kl]})).
  { intros key like Hl. cbn [fst] in Hl. rewrite lookup_empty in Hl.
    discriminate. }
  destruct (fold_left _ (decoder_call _ feat) _) as [t1|e1] eqn:E1.
  2:{ change (WorldModel.add_like data (Raise e1) ?kd) with
        (@Raise (gmap string Seq2 * gmap string Qc) e1).
      destruct (WorldModel.head_discount (WorldModel.heads self));
        cbn [fold_left]; [rewrite add_head_eq; cbn [fst snd fold_left]|];
        discriminate. }
  destruct (add_like_likes _ _ _ _ E1) as (t0 & Ht0 & Hinv1).
  injection Ht0 as <-. specialize (Hinv1 H0).
  rewrite add_like_ok.
  destruct (data !! "reward") as [rv|] eqn:Hr.
  2:{ destruct (WorldModel.head_discount (WorldModel.heads self));
        cbn [fold_left]; [rewrite add_head_eq; cbn [fst snd fold_left]|];
        discriminate. }
  destruct t1 as [likes1 losses1]. cbn [fst snd].
  pose proof (likes_losses_insert likes1 losses1 "reward"
    (d_log_prob (WorldModel.head_reward (WorldModel.heads self) feat) rv)
    Hinv1) as Hinv2.
  destruct (WorldModel.head_discount (WorldModel.heads self)) as [hd|].
  - cbn [fold_left]. rewrite add_head_eq. cbn [fst snd fold_left].
    rewrite add_like_ok.
    destruct (data !! "discount") as [dv|]; [|discriminate].
    intros [= <-]. split.
    + apply (likes_losses_insert _ _ "discount" (d_log_prob (hd feat) dv)).
      exact Hinv2.
    + exists rv. split; [reflexivity|]. cbn [fst].
      rewrite lookup_insert_ne by discriminate. apply lookup_insert_eq.
  - cbn [fold_left]. intros [= <-]. split; [exact Hinv2|].
    exists rv. split; [reflexivity|]. apply lookup_insert_eq.
Qed.

(** X25. In a successful [WorldModel.loss], every likelihood of
    [outs['likes']] other than one named 'iso' has its negative mean
    reported as the metric ['<key>_loss'], and the 'reward' likelihood is
    the reward head's log-probability of the preprocessed reward at the
    returned features, even when the decoder returns a distribution under
    the same key. *)
Theorem loss_likes
    (tf_tanh : Qc -> Qc) (self : WorldModel.t) (data : gmap string NDArray)
    (state : option (list Latent)) (draws : WorldModel.Draws)
    (total : Qc) (last_state : list Latent) (outs : WorldModel.Outs)
    (metrics : gmap string Qc) :
  WorldModel.loss tf_tanh self data state draws
    = Ok (total, last_state, outs, metrics) ->
  (forall key like,
     key <> "iso" ->
     WorldModel.out_likes outs !! key = Some like ->
     metrics !! (key +:+ "_loss") = Some (- mean2 like)) /\
  exists data' reward,
    WorldModel.preprocess tf_tanh self data = Ok data' /\
    data' !! "reward" = Some reward /\
    WorldModel.out_likes outs !! "reward" =
      Some (d_log_prob
              (WorldModel.head_reward (WorldModel.heads self)
                 (WorldModel.out_feat outs)) reward).
Proof.
  intros H.
  destruct (loss_inv _ _ _ _ _ _ H)
    as (data' & action & is_first & terms & measure
        & Hpre & _ & _ & _ & Hterms & _ & Hr).
  cbv zeta in Hr. injection Hr as -> -> -> ->.
  destruct (head_terms_ok _ _ _ _ _ Hterms) as (Hinv & reward & Hrw & Hlike).
  cbn [WorldModel.out_likes WorldModel.out_feat]. split.
  - intros key like Hkey Hl.
    destruct (loss_name_fresh key) as (N1 & N2 & N3).
    rewrite !lookup_insert_ne by congruence.
    rewrite (lookup_kmap (fun name => name +:+ "_loss")).
    rewrite lookup_insert_ne by congruence. apply Hinv. exact Hl.
  - exists data', reward. split; [exact Hpre|]. split; [exact Hrw|exact Hlike].
Qed.

Lemma loss_likes_witness :
  exists total last_state outs metrics data' reward,
    WorldModel.loss id Demo.wm_iso Demo.batch None Demo.draws
      = Ok (total, last_state, outs, metrics) /\
    WorldModel.preprocess id Demo.wm_iso Demo.batch = Ok data' /\
    data' !! "reward" = Some reward /\
    WorldModel.out_likes outs !! "reward" =
      Some (d_log_prob
              (WorldModel.head_reward (WorldModel.heads Demo.wm_iso)
                 (WorldModel.out_feat outs)) reward).
Proof.
  destruct (WorldModel.loss id Demo.wm_iso Demo.batch None Demo.draws)
    as [[[[total last_state] outs] metrics]|e] eqn:H.
  - destruct (loss_likes _ _ _ _ _ _ _ _ _ H)
      as (_ & data' & reward & Hpre & Hrw & Hlike).
    exists total, last_state, outs, metrics, data', reward.
    split; [reflexivity|]. split; [exact Hpre|]. split; [exact Hrw|].
    exact Hlike.
  - exfalso. pose proof model_loss_example as E.
    unfold model_loss in E. rewrite H in E. discriminate.
Defined.
